(** * Task side effects: recurrence, reminders and live fan-out

    A shallow embedding of the event-driven services of the todo backend
    (recurrence engine, notification service, reminder state manager, task
    lifecycle handler, reminder scheduler and WebSocket manager), with the
    properties of their specification stated and settled on the embedding.

    Conventions of the embedding
    - Python dictionaries whose key order or key set matters are association
      lists in insertion order; the Dapr state store and the connection
      registry are finite maps.
    - [json.loads (json.dumps x)] is the identity on the values handled here,
      so the state store holds decoded payloads.
    - Text is ASCII; [str.lower] is the ASCII lower-casing.
    - Every call on the Dapr client may raise; which calls do is fixed by a
      fault schedule carried by the world.  [datetime.now()] reads the next
      entry of a clock schedule. *)

From Stdlib Require Import ZArith String Ascii List Bool Lia DecimalString.
From stdpp Require Import gmap strings list fin_maps.
Import ListNotations.

Local Open Scope string_scope.

(** ** Python values *)

Inductive value :=
| VNone
| VBool (b : bool)
| VInt (z : Z)
| VStr (s : string)
| VList (l : list string).

#[global] Instance value_eq_dec : EqDecision value.
Proof. solve_decision. Defined.

(** [a == b]: [True] and [False] are the integers 1 and 0; values of
    different kinds are otherwise unequal. *)
Definition py_eq (a b : value) : bool :=
  match a, b with
  | VNone, VNone => true
  | VBool x, VBool y => Bool.eqb x y
  | VBool x, VInt z | VInt z, VBool x => (z =? (if x then 1 else 0))%Z
  | VInt x, VInt y => (x =? y)%Z
  | VStr x, VStr y => String.eqb x y
  | VList x, VList y => bool_decide (x = y)
  | _, _ => false
  end.

(** A [dict] keeps its keys in insertion order, as Python does. *)
Definition dict := list (string * value).

Fixpoint dict_get (k : string) (d : dict) : option value :=
  match d with
  | [] => None
  | (k', v) :: d' => if String.eqb k k' then Some v else dict_get k d'
  end.

(** [d[k] = v]: an existing key keeps its place, a new key goes last. *)
Fixpoint dict_set (k : string) (v : value) (d : dict) : dict :=
  match d with
  | [] => [(k, v)]
  | (k', v') :: d' =>
      if String.eqb k k' then (k, v) :: d' else (k', v') :: dict_set k v d'
  end.

(** [d.update(u)] *)
Definition dict_update (u d : dict) : dict :=
  fold_left (fun acc kv => dict_set (fst kv) (snd kv) acc) u d.

(** [d.get(k, default)] *)
Definition dict_get_default (k : string) (default : value) (d : dict) : value :=
  match dict_get k d with Some v => v | None => default end.

(** [d.get(k)] *)
Definition dict_get_none (k : string) (d : dict) : value :=
  dict_get_default k VNone d.

Definition dict_has (k : string) (d : dict) : bool :=
  match dict_get k d with Some _ => true | None => false end.

(** Truth value of an object, as tested by [if x], [not x] and [all]. *)
Definition truthy (v : value) : bool :=
  match v with
  | VNone => false
  | VBool b => b
  | VInt z => negb (Z.eqb z 0)
  | VStr s => negb (String.eqb s "")
  | VList l => match l with [] => false | _ => true end
  end.

Definition py_str_int (z : Z) : string := NilZero.string_of_int (Z.to_int z).

(** [str(v)], as used by f-strings.  For a list Python prints the [repr] of
    each element; the rendering below is exact for elements free of quotes,
    backslashes and control characters. *)
Definition py_str (v : value) : string :=
  match v with
  | VNone => "None"
  | VBool true => "True"
  | VBool false => "False"
  | VInt z => py_str_int z
  | VStr s => s
  | VList l => "[" ++ String.concat ", " (map (fun s => "'" ++ s ++ "'") l) ++ "]"
  end.

Definition lower_ascii (c : ascii) : ascii :=
  let n := nat_of_ascii c in
  if (65 <=? n)%nat && (n <=? 90)%nat then ascii_of_nat (n + 32) else c.

(** [s.lower()] *)
Fixpoint lower (s : string) : string :=
  match s with
  | EmptyString => EmptyString
  | String c s' => String (lower_ascii c) (lower s')
  end.

(** [s.endswith('Z')] and [s[:-1]] *)
Fixpoint endswith_Z (s : string) : bool :=
  match s with
  | EmptyString => false
  | String c EmptyString => Ascii.eqb c "Z"%char
  | String _ s' => endswith_Z s'
  end.

Fixpoint drop_last (s : string) : string :=
  match s with
  | EmptyString => EmptyString
  | String _ EmptyString => EmptyString
  | String c s' => String c (drop_last s')
  end.

(** [s.replace('Z', '+00:00')] *)
Fixpoint replace_Z (s : string) : string :=
  match s with
  | EmptyString => EmptyString
  | String c s' =>
      if Ascii.eqb c "Z"%char then "+00:00" ++ replace_Z s'
      else String c (replace_Z s')
  end.

(** [if d] on an optional dictionary: [None] and [{}] are both false. *)
Definition truthy_dict (d : option dict) : option dict :=
  match d with
  | Some [] => None
  | Some d' => Some d'
  | None => None
  end.

(** ** Exceptions *)

Inductive exn :=
| ValueError | KeyError | TypeError | AttributeError | OverflowError
| RuntimeError
| ConnectionClosed
| DaprError.

Inductive res (A : Type) :=
| Ret (a : A)
| Raise (e : exn).
Arguments Ret {A} a.
Arguments Raise {A} e.

(** ** The [datetime] library, as far as the services use it *)

Module PyDatetime.
Local Open Scope Z_scope.

Record datetime := mk_datetime {
  year : Z; month : Z; day : Z;
  hour : Z; minute : Z; second : Z; microsecond : Z;
  tzinfo : option Z   (* UTC offset in minutes; [None] for a naive value *)
}.

Definition MINYEAR := 1.
Definition MAXYEAR := 9999.

Definition is_leap (y : Z) : bool :=
  (y mod 4 =? 0) && (negb (y mod 100 =? 0) || (y mod 400 =? 0)).

Definition days_in_month (y m : Z) : Z :=
  nth (Z.to_nat (m - 1))
      [31; if is_leap y then 29 else 28; 31; 30; 31; 30; 31; 31; 30; 31; 30; 31] 0.

Definition valid_date (y m d : Z) : bool :=
  (MINYEAR <=? y) && (y <=? MAXYEAR) && (1 <=? m) && (m <=? 12) &&
  (1 <=? d) && (d <=? days_in_month y m).

Definition valid_time (h mi s us : Z) : bool :=
  (0 <=? h) && (h <? 24) && (0 <=? mi) && (mi <? 60) &&
  (0 <=? s) && (s <? 60) && (0 <=? us) && (us <? 1000000).

Definition valid_tz (tz : option Z) : bool :=
  match tz with None => true | Some off => (-1440 <? off) && (off <? 1440) end.

Definition valid (dt : datetime) : bool :=
  valid_date (year dt) (month dt) (day dt) &&
  valid_time (hour dt) (minute dt) (second dt) (microsecond dt) &&
  valid_tz (tzinfo dt).

(** [dt.replace(year=y, month=m, day=d)]: the constructor checks the date. *)
Definition replace_ymd (dt : datetime) (y m d : Z) : res datetime :=
  if valid_date y m d then
    Ret (mk_datetime y m d (hour dt) (minute dt) (second dt) (microsecond dt) (tzinfo dt))
  else Raise ValueError.

(** Proleptic Gregorian ordinal of a date ([date.toordinal]). *)
Definition days_before_year (y : Z) : Z :=
  (y - 1) * 365 + (y - 1) / 4 - (y - 1) / 100 + (y - 1) / 400.

Definition days_before_month (y m : Z) : Z :=
  fold_right Z.add 0 (map (days_in_month y) (map Z.of_nat (seq 1 (Z.to_nat (m - 1))))).

Definition toordinal (dt : datetime) : Z :=
  days_before_year (year dt) + days_before_month (year dt) (month dt) + day dt.

(** The day after, on the calendar. *)
Definition next_day (dt : datetime) : datetime :=
  let '(y, m, d) :=
    if day dt <? days_in_month (year dt) (month dt) then (year dt, month dt, day dt + 1)
    else if month dt <? 12 then (year dt, month dt + 1, 1)
    else (year dt + 1, 1, 1) in
  mk_datetime y m d (hour dt) (minute dt) (second dt) (microsecond dt) (tzinfo dt).

(** [dt + timedelta(days=n)] for [n >= 0]; out of range is an OverflowError. *)
Definition add_days (n : nat) (dt : datetime) : res datetime :=
  let r := Nat.iter n next_day dt in
  if year r <=? MAXYEAR then Ret r else Raise OverflowError.

(** Microseconds since the start of the calendar, ignoring the offset. *)
Definition naive_micros (dt : datetime) : Z :=
  (((toordinal dt * 24 + hour dt) * 60 + minute dt) * 60 + second dt) * 1000000
  + microsecond dt.

(** The same instant on the UTC time line, for an aware value. *)
Definition utc_micros (dt : datetime) (off : Z) : Z :=
  naive_micros dt - off * 60 * 1000000.

(** *** Formatting *)

Definition digit_char (z : Z) : ascii := ascii_of_N (Z.to_N (48 + z mod 10)).

(** The [n] low decimal digits of [z], most significant first. *)
Fixpoint zpad (n : nat) (z : Z) : string :=
  match n with
  | O => EmptyString
  | S k => String (digit_char (z / 10 ^ Z.of_nat k)) (zpad k z)
  end.

(** [dt.strftime('%Y%m%d%H%M%S')] *)
Definition strftime_seconds (dt : datetime) : string :=
  (zpad 4 (year dt) ++ zpad 2 (month dt) ++ zpad 2 (day dt) ++
   zpad 2 (hour dt) ++ zpad 2 (minute dt) ++ zpad 2 (second dt))%string.

(** [dt.strftime('%Y%m%d%H%M%S%f')] *)
Definition strftime_micros (dt : datetime) : string :=
  (strftime_seconds dt ++ zpad 6 (microsecond dt))%string.

Definition format_offset (off : Z) : string :=
  ((if (off <? 0)%Z then "-" else "+") ++
   zpad 2 (Z.abs off / 60)%Z ++ ":" ++ zpad 2 (Z.abs off mod 60)%Z)%string.

(** [dt.isoformat()] *)
Definition isoformat (dt : datetime) : string :=
  (zpad 4 (year dt) ++ "-" ++ zpad 2 (month dt) ++ "-" ++ zpad 2 (day dt) ++ "T" ++
   zpad 2 (hour dt) ++ ":" ++ zpad 2 (minute dt) ++ ":" ++ zpad 2 (second dt) ++
   (if (microsecond dt =? 0)%Z then "" else "." ++ zpad 6 (microsecond dt)) ++
   match tzinfo dt with None => "" | Some off => format_offset off end)%string.

(** *** Parsing

    [datetime.fromisoformat] on the texts that [isoformat] produces:
    [YYYY-MM-DD], then optionally one separator character and [HH:MM:SS],
    an optional fraction of three or six digits, and an optional offset
    [+HH:MM] or [-HH:MM]. *)

Definition digit_val (c : ascii) : option Z :=
  let n := Z.of_N (N_of_ascii c) in
  if (48 <=? n) && (n <=? 57) then Some (n - 48) else None.

(** Read exactly [n] decimal digits. *)
Fixpoint read_digits (n : nat) (acc : Z) (s : string) : option (Z * string) :=
  match n with
  | O => Some (acc, s)
  | S k =>
      match s with
      | String c s' =>
          match digit_val c with
          | Some d => read_digits k (acc * 10 + d) s'
          | None => None
          end
      | EmptyString => None
      end
  end.

Definition expect (c : ascii) (s : string) : option string :=
  match s with
  | String c' s' => if Ascii.eqb c c' then Some s' else None
  | EmptyString => None
  end.

Definition parse_offset (s : string) : option (option Z) :=
  match s with
  | EmptyString => Some None
  | String c s1 =>
      let sign := if Ascii.eqb c "+"%char then Some 1
                  else if Ascii.eqb c "-"%char then Some (-1) else None in
      match sign with
      | None => None
      | Some sg =>
          match read_digits 2 0 s1 with
          | Some (h, s2) =>
              match expect ":"%char s2 with
              | Some s3 =>
                  match read_digits 2 0 s3 with
                  | Some (m, EmptyString) =>
                      if (h <? 24) && (m <? 60) then Some (Some (sg * (h * 60 + m)))
                      else None
                  | _ => None
                  end
              | None => None
              end
          | None => None
          end
      end
  end.

Definition parse_fraction (s : string) : option (Z * string) :=
  match s with
  | String "."%char s1 =>
      match read_digits 6 0 s1 with
      | Some r => Some r
      | None =>
          match read_digits 3 0 s1 with
          | Some (ms, s2) => Some (ms * 1000, s2)
          | None => None
          end
      end
  | _ => Some (0, s)
  end.

Definition parse_time (s : string) : option (Z * Z * Z * Z * option Z) :=
  match read_digits 2 0 s with
  | Some (h, s1) =>
      match expect ":"%char s1 with
      | Some s2 =>
          match read_digits 2 0 s2 with
          | Some (mi, s3) =>
              match expect ":"%char s3 with
              | Some s4 =>
                  match read_digits 2 0 s4 with
                  | Some (sec, s5) =>
                      match parse_fraction s5 with
                      | Some (us, s6) =>
                          match parse_offset s6 with
                          | Some tz => Some (h, mi, sec, us, tz)
                          | None => None
                          end
                      | None => None
                      end
                  | None => None
                  end
              | None => None
              end
          | None => None
          end
      | None => None
      end
  | None => None
  end.

Definition parse_date (s : string) : option (Z * Z * Z * string) :=
  match read_digits 4 0 s with
  | Some (y, s1) =>
      match expect "-"%char s1 with
      | Some s2 =>
          match read_digits 2 0 s2 with
          | Some (m, s3) =>
              match expect "-"%char s3 with
              | Some s4 =>
                  match read_digits 2 0 s4 with
                  | Some (d, s5) => Some (y, m, d, s5)
                  | None => None
                  end
              | None => None
              end
          | None => None
          end
      | None => None
      end
  | None => None
  end.

Definition checked (dt : datetime) : res datetime :=
  if valid dt then Ret dt else Raise ValueError.

(** [datetime.fromisoformat(s)] *)
Definition fromisoformat (s : string) : res datetime :=
  match parse_date s with
  | Some (y, m, d, EmptyString) => checked (mk_datetime y m d 0 0 0 0 None)
  | Some (y, m, d, String _ t) =>
      match parse_time t with
      | Some (h, mi, sec, us, tz) => checked (mk_datetime y m d h mi sec us tz)
      | None => Raise ValueError
      end
  | None => Raise ValueError
  end.

End PyDatetime.

Import PyDatetime.

(** ** The world outside the services

    One Dapr sidecar serves the state store, the method invocations on the
    task backend and the message bus.  The client of the Dapr SDK is not part
    of the repository; it is modelled by the contract the specification gives
    for the entity store: point reads and writes, a read of a missing key
    answers with no data, and a failed call raises. *)

Inductive payload :=
| PDict (d : dict)
| PList (l : list string).

Record world := mk_world {
  store : gmap string payload;         (* the state store *)
  faults : nat -> bool;                (* [faults n]: the n-th client call raises *)
  calls : nat;                         (* client calls made so far *)
  clock : nat -> datetime;             (* successive readings of the local clock *)
  reads : nat;                         (* clock readings taken so far *)
  local_offset : Z;                    (* UTC offset of the local zone, minutes *)
  backend : dict -> res dict;          (* answer of the task backend to [create_task] *)
  tasks : list dict;                   (* bodies the backend has accepted *)
  published : list (string * dict);    (* events put on the bus: topic, data *)
  delivered : list (string * string * string)
                                       (* notifications handed out: channel, user, text *)
}.

Definition set_store (f : gmap string payload -> gmap string payload) (w : world) : world :=
  mk_world (f (store w)) (faults w) (calls w) (clock w) (reads w) (local_offset w)
           (backend w) (tasks w) (published w) (delivered w).

Definition set_calls (n : nat) (w : world) : world :=
  mk_world (store w) (faults w) n (clock w) (reads w) (local_offset w)
           (backend w) (tasks w) (published w) (delivered w).

Definition set_reads (n : nat) (w : world) : world :=
  mk_world (store w) (faults w) (calls w) (clock w) n (local_offset w)
           (backend w) (tasks w) (published w) (delivered w).

Definition add_task (t : dict) (w : world) : world :=
  mk_world (store w) (faults w) (calls w) (clock w) (reads w) (local_offset w)
           (backend w) (tasks w ++ [t]) (published w) (delivered w).

Definition add_published (topic : string) (data : dict) (w : world) : world :=
  mk_world (store w) (faults w) (calls w) (clock w) (reads w) (local_offset w)
           (backend w) (tasks w) (published w ++ [(topic, data)]) (delivered w).

Definition add_delivered (channel user text : string) (w : world) : world :=
  mk_world (store w) (faults w) (calls w) (clock w) (reads w) (local_offset w)
           (backend w) (tasks w) (published w) (delivered w ++ [(channel, user, text)]).

(** ** Computations: state, and exceptions that keep the state *)

Definition M (A : Type) := world -> res A * world.

Definition ret {A} (a : A) : M A := fun w => (Ret a, w).

Definition bind {A B} (c : M A) (k : A -> M B) : M B :=
  fun w => match c w with
           | (Ret a, w') => k a w'
           | (Raise e, w') => (Raise e, w')
           end.

Definition raise {A} (e : exn) : M A := fun w => (Raise e, w).

(** [try: c  except Exception as e: h e] *)
Definition try_except {A} (c : M A) (h : exn -> M A) : M A :=
  fun w => match c w with
           | (Ret a, w') => (Ret a, w')
           | (Raise e, w') => h e w'
           end.

Definition lift {A} (r : res A) : M A := fun w => (r, w).

Declare Scope py_scope.
Delimit Scope py_scope with py.
Notation "x <- c ;; k" := (bind c (fun x => k))
  (at level 62, c at next level, right associativity) : py_scope.
Notation "c ;;; k" := (bind c (fun _ => k))
  (at level 62, right associativity) : py_scope.
Local Open Scope py_scope.

(** Modelled from the spec: the Dapr client, which the services import and
    the repository does not contain.  It stands for the entity store of the
    specification ("put, get -> value or absent, delete"; "failure is
    reported as a distinct outcome from absent"): a call either raises, when
    the fault schedule says so, or does its work; [get_state] on a missing
    key answers with no data, which both [if response.data] and
    [response.data is not None] read as "absent". *)
Definition client_call : M unit :=
  fun w => let w' := set_calls (S (calls w)) w in
           if faults w (calls w) then (Raise DaprError, w') else (Ret tt, w').

Definition get_state (key : string) : M (option payload) :=
  client_call ;;; fun w => (Ret (store w !! key), w).

Definition save_state (key : string) (v : payload) : M unit :=
  client_call ;;; fun w => (Ret tt, set_store (insert key v) w).

Definition delete_state (key : string) : M unit :=
  client_call ;;; fun w => (Ret tt, set_store (delete key) w).

(** [invoke_method(app_id=backend, method_name='create_task', data=body)],
    followed by the decoding of the answer. *)
Definition invoke_create_task (body : dict) : M dict :=
  client_call ;;;
  fun w => match backend w body with
           | Ret r => (Ret r, add_task body w)
           | Raise e => (Raise e, w)
           end.

Definition publish_event (topic : string) (data : dict) : M unit :=
  client_call ;;; fun w => (Ret tt, add_published topic data w).

(** [datetime.now()] *)
Definition datetime_now : M datetime :=
  fun w => (Ret (clock w (reads w)), set_reads (S (reads w)) w).

(** [datetime.now(end.tzinfo) >= end]: two naive values compare by their
    fields, two aware values by their instants. *)
Definition now_reached (end_date : datetime) : M bool :=
  n <- datetime_now ;;
  fun w =>
    match tzinfo end_date with
    | None => (Ret (naive_micros end_date <=? naive_micros n)%Z, w)
    | Some off =>
        (Ret (utc_micros end_date off <=? utc_micros n (local_offset w))%Z, w)
    end.

(** ** Recurrence engine ([recurrence_engine/main.py]) *)

Module RecurrenceEngine.

Definition TASK_RECURRENCE_TOPIC := "task-recurrence".

Inductive RecurrencePattern := DAILY | WEEKLY | MONTHLY | YEARLY.

Definition pattern_value (p : RecurrencePattern) : string :=
  match p with
  | DAILY => "daily" | WEEKLY => "weekly" | MONTHLY => "monthly" | YEARLY => "yearly"
  end.

(** [RecurrencePattern(s)]: lookup by value. *)
Definition RecurrencePattern_of (s : string) : res RecurrencePattern :=
  if String.eqb s "daily" then Ret DAILY
  else if String.eqb s "weekly" then Ret WEEKLY
  else if String.eqb s "monthly" then Ret MONTHLY
  else if String.eqb s "yearly" then Ret YEARLY
  else Raise ValueError.

(** [v.lower()], an AttributeError on anything but a string. *)
Definition str_lower (v : value) : res string :=
  match v with VStr s => Ret (lower s) | _ => Raise AttributeError end.

Definition processing_id (user_id task_id : value) (t : datetime) : string :=
  "recurrence_" ++ py_str user_id ++ "_" ++ py_str task_id ++ "_" ++ strftime_micros t.

Definition processed_key (pid : string) : string := "recurrence_processed:" ++ pid.
Definition started_key (pid : string) : string := "recurrence_started:" ++ pid.

Definition marker (status : string) (t : datetime) : payload :=
  PDict [("status", VStr status); ("timestamp", VStr (isoformat t))].

(** [response.data is not None] *)
Definition has_processed_recurrence (pid : string) : M bool :=
  try_except
    (response <- get_state (processed_key pid) ;;
     ret (match response with Some _ => true | None => false end))
    (fun _ => ret false).

Definition mark_recurrence_processing_started (pid : string) : M bool :=
  try_except
    (t <- datetime_now ;;
     save_state (started_key pid) (marker "started" t) ;;;
     ret true)
    (fun _ => ret false).

Definition mark_recurrence_processing_completed (pid : string) : M bool :=
  try_except
    (t <- datetime_now ;;
     save_state (processed_key pid) (marker "completed" t) ;;;
     delete_state (started_key pid) ;;;
     ret true)
    (fun _ => ret false).

(** [recurrence_count <= 0]; [bool] is a subclass of [int]. *)
Definition le_zero (v : value) : res bool :=
  match v with
  | VInt z => Ret (z <=? 0)%Z
  | VBool b => Ret (negb b)
  | _ => Raise TypeError
  end.

Definition str_replace_Z (v : value) : res string :=
  match v with VStr s => Ret (replace_Z s) | _ => Raise AttributeError end.

Definition should_stop_recurrence (task_data : dict) : M bool :=
  try_except
    (let recurrence_end_date := dict_get_none "recurrence_end_date" task_data in
     let recurrence_count := dict_get_none "recurrence_count" task_data in
     stop_by_date <-
       (if truthy recurrence_end_date then
          s <- lift (str_replace_Z recurrence_end_date) ;;
          end_date <- lift (fromisoformat s) ;;
          now_reached end_date
        else ret false) ;;
     if stop_by_date : bool then ret true
     else
       match recurrence_count with
       | VNone => ret false
       | c => b <- lift (le_zero c) ;; ret b
       end)
    (fun _ => ret false).

(** [add_months], line for line. *)
Definition add_months (dt : datetime) (months : Z) : res datetime :=
  let month0 := (month dt - 1 + months)%Z in
  let year := (PyDatetime.year dt + month0 / 12)%Z in
  let month := (month0 mod 12 + 1)%Z in
  let day :=
    Z.min (PyDatetime.day dt)
      (nth (Z.to_nat (month - 1))
         [31;
          if (year mod 4 =? 0) && (negb (year mod 100 =? 0) || (year mod 400 =? 0))
          then 29 else 28;
          31; 30; 31; 30; 31; 31; 30; 31; 30; 31]%Z 0%Z) in
  replace_ymd dt year month day.

Definition str_endswith_Z (v : value) : res bool :=
  match v with VStr s => Ret (endswith_Z s) | _ => Raise AttributeError end.

Definition as_str (v : value) : string :=
  match v with VStr s => s | _ => "" end.

(** The result is [None] in Python when nothing could be computed. *)
Definition calculate_next_occurrence (task_data : dict) : M (option string) :=
  try_except
    (recurrence_pattern <-
       lift (str_lower (dict_get_default "recurrence_pattern" (VStr "") task_data)) ;;
     t <- datetime_now ;;
     let completed_at := dict_get_default "completed_at" (VStr (isoformat t)) task_data in
     z <- lift (str_endswith_Z completed_at) ;;
     let completed_at :=
       if z : bool then drop_last (as_str completed_at) ++ "+00:00"
       else as_str completed_at in
     completed_datetime <- lift (fromisoformat completed_at) ;;
     if String.eqb recurrence_pattern "daily" then
       next_date <- lift (add_days 1 completed_datetime) ;; ret (Some (isoformat next_date))
     else if String.eqb recurrence_pattern "weekly" then
       next_date <- lift (add_days 7 completed_datetime) ;; ret (Some (isoformat next_date))
     else if String.eqb recurrence_pattern "monthly" then
       next_date <- lift (add_months completed_datetime 1) ;; ret (Some (isoformat next_date))
     else if String.eqb recurrence_pattern "yearly" then
       next_date <- lift (add_months completed_datetime 12) ;; ret (Some (isoformat next_date))
     else ret None)
    (fun _ => ret None).

(** [d[k]] *)
Definition subscript (k : string) (d : dict) : res value :=
  match dict_get k d with Some v => Ret v | None => Raise KeyError end.

(** [c -= 1] *)
Definition decrement (v : value) : res value :=
  match v with
  | VInt z => Ret (VInt (z - 1))
  | VBool b => Ret (VInt ((if b then 1 else 0) - 1))
  | _ => Raise TypeError
  end.

(** The body that [create_recurring_task] prepares for the backend. *)
Definition new_task_of (original_task : dict) (next_occurrence : string) : res dict :=
  match subscript "user_id" original_task with
  | Raise e => Raise e
  | Ret user_id =>
  match subscript "title" original_task with
  | Raise e => Raise e
  | Ret title =>
  match subscript "description" original_task with
  | Raise e => Raise e
  | Ret description =>
      let new_task :=
        [("user_id", user_id);
         ("title", title);
         ("description", description);
         ("due_date", VStr next_occurrence);
         ("priority", dict_get_default "priority" (VStr "medium") original_task);
         ("tags", dict_get_default "tags" (VList []) original_task);
         ("recurrence_pattern", dict_get_none "recurrence_pattern" original_task);
         ("recurrence_end_date", dict_get_none "recurrence_end_date" original_task);
         ("recurrence_count", dict_get_default "recurrence_count" VNone original_task)] in
      match dict_get_none "recurrence_count" new_task with
      | VNone => Ret new_task
      | c =>
          match decrement c with
          | Ret c' => Ret (dict_set "recurrence_count" c' new_task)
          | Raise e => Raise e
          end
      end
  end end end.

Definition create_recurring_task (original_task : dict) (next_occurrence : string)
  : M (option dict) :=
  try_except
    (new_task <- lift (new_task_of original_task next_occurrence) ;;
     new_task_result <- invoke_create_task new_task ;;
     ret (Some new_task_result))
    (fun _ => ret None).

Definition publish_recurrence_event
    (user_id original_task_id new_task_id : value) (pattern next_occurrence : string)
  : M unit :=
  try_except
    (t <- datetime_now ;;
     let event_data :=
       [("user_id", user_id);
        ("original_task_id", original_task_id);
        ("new_task_id", new_task_id);
        ("recurrence_pattern", VStr pattern);
        ("next_occurrence", VStr next_occurrence);
        ("timestamp", VStr (isoformat t));
        ("event_type", VStr "task_recurred")] in
     publish_event TASK_RECURRENCE_TOPIC event_data)
    (fun _ => ret tt).

Definition process_completed_task (task_data : dict) : M bool :=
  try_except
    (let task_id := dict_get_none "id" task_data in
     let user_id := dict_get_none "user_id" task_data in
     let recurrence_pattern := dict_get_none "recurrence_pattern" task_data in
     t <- datetime_now ;;
     let pid := processing_id user_id task_id t in
     seen <- has_processed_recurrence pid ;;
     if seen : bool then ret true
     else
       mark_recurrence_processing_started pid ;;;
       if negb (truthy recurrence_pattern) then
         mark_recurrence_processing_completed pid ;;; ret true
       else
         lowered <- lift (str_lower recurrence_pattern) ;;
         match RecurrencePattern_of lowered with
         | Raise ValueError =>
             mark_recurrence_processing_completed pid ;;; ret false
         | Raise e => raise e
         | Ret pattern =>
             stop <- should_stop_recurrence task_data ;;
             if stop : bool then
               mark_recurrence_processing_completed pid ;;; ret true
             else
               next_occurrence <- calculate_next_occurrence task_data ;;
               match next_occurrence with
               | None => mark_recurrence_processing_completed pid ;;; ret false
               | Some next_occurrence =>
                   new_task_data <- create_recurring_task task_data next_occurrence ;;
                   match truthy_dict new_task_data with
                   | None => mark_recurrence_processing_completed pid ;;; ret false
                   | Some new_task_data =>
                       new_id <- lift (subscript "id" new_task_data) ;;
                       publish_recurrence_event user_id task_id new_id
                         (pattern_value pattern) next_occurrence ;;;
                       mark_recurrence_processing_completed pid ;;;
                       ret true
                   end
               end
         end)
    (fun _ => ret false).

End RecurrenceEngine.

(** ** Reminder state ([notification_service/reminder_state.py])

    The module-level functions of the file forward to the methods of the one
    [ReminderStateManager] instance; the methods are embedded under the names
    both share. *)

Module ReminderState.

Definition user_index_key (user_id : value) : string :=
  "user_reminders:" ++ py_str user_id.

Definition task_index_key (user_id task_id : value) : string :=
  "task_reminders:" ++ py_str user_id ++ ":" ++ py_str task_id.

(** One half of [_add_to_user_task_index]: read the list, append the id when
    it is not there, write the list back. *)
Definition index_append (key reminder_id : string) : M unit :=
  response <- get_state key ;;
  match response with
  | None => save_state key (PList [reminder_id])
  | Some (PList ids) =>
      if existsb (String.eqb reminder_id) ids then ret tt
      else save_state key (PList (ids ++ [reminder_id]))
  | Some (PDict d) =>
      if dict_has reminder_id d then ret tt else raise AttributeError
  end.

Definition _add_to_user_task_index (user_id task_id : value) (reminder_id : string)
  : M unit :=
  try_except
    (index_append (user_index_key user_id) reminder_id ;;;
     index_append (task_index_key user_id task_id) reminder_id)
    (fun _ => ret tt).

(** [ids.remove(x)]: the first occurrence goes. *)
Fixpoint list_remove (x : string) (ids : list string) : list string :=
  match ids with
  | [] => []
  | y :: ids' => if String.eqb x y then ids' else y :: list_remove x ids'
  end.

Definition index_remove (key reminder_id : string) : M unit :=
  response <- get_state key ;;
  match response with
  | None => ret tt
  | Some (PList ids) =>
      if existsb (String.eqb reminder_id) ids
      then save_state key (PList (list_remove reminder_id ids))
      else ret tt
  | Some (PDict d) =>
      if dict_has reminder_id d then raise AttributeError else ret tt
  end.

Definition _remove_from_user_task_index (user_id task_id : value) (reminder_id : string)
  : M unit :=
  try_except
    (index_remove (user_index_key user_id) reminder_id ;;;
     index_remove (task_index_key user_id task_id) reminder_id)
    (fun _ => ret tt).

Definition store_reminder (reminder_id : string) (reminder_data : dict) : M bool :=
  try_except
    (t <- datetime_now ;;
     let reminder_data := dict_set "updated_at" (VStr (isoformat t)) reminder_data in
     save_state reminder_id (PDict reminder_data) ;;;
     user_id <- lift (RecurrenceEngine.subscript "user_id" reminder_data) ;;
     task_id <- lift (RecurrenceEngine.subscript "task_id" reminder_data) ;;
     _add_to_user_task_index user_id task_id reminder_id ;;;
     ret true)
    (fun _ => ret false).

(** [None] stands for Python's [None]: nothing stored, or the read failed. *)
Definition get_reminder (reminder_id : string) : M (option dict) :=
  try_except
    (response <- get_state reminder_id ;;
     match response with
     | Some (PDict reminder_data) => ret (Some reminder_data)
     | Some (PList _) => raise AttributeError
     | None => ret None
     end)
    (fun _ => ret None).

Definition update_reminder (reminder_id : string) (updates : dict) : M bool :=
  try_except
    (current_data <- get_reminder reminder_id ;;
     match truthy_dict current_data with
     | None => ret false
     | Some current_data =>
         let current_data := dict_update updates current_data in
         t <- datetime_now ;;
         let current_data := dict_set "updated_at" (VStr (isoformat t)) current_data in
         save_state reminder_id (PDict current_data) ;;;
         ret true
     end)
    (fun _ => ret false).

Definition delete_reminder (reminder_id : string) : M bool :=
  try_except
    (reminder <- get_reminder reminder_id ;;
     match truthy_dict reminder with
     | Some reminder =>
         user_id <- lift (RecurrenceEngine.subscript "user_id" reminder) ;;
         task_id <- lift (RecurrenceEngine.subscript "task_id" reminder) ;;
         _remove_from_user_task_index user_id task_id reminder_id
     | None => ret tt
     end ;;;
     delete_state reminder_id ;;;
     ret true)
    (fun _ => ret false).

(** The loop of [get_user_reminders] and [get_task_reminders]. *)
Fixpoint fetch_reminders (reminder_ids : list string) : M (list dict) :=
  match reminder_ids with
  | [] => ret []
  | rid :: rest =>
      reminder <- get_reminder rid ;;
      reminders <- fetch_reminders rest ;;
      ret (match truthy_dict reminder with
           | Some r => r :: reminders
           | None => reminders
           end)
  end.

(** Iterating over a decoded index: a list gives its items, a dictionary
    its keys. *)
Definition iter_payload (p : payload) : list string :=
  match p with PList ids => ids | PDict d => map fst d end.

Definition get_user_reminders (user_id : value) : M (list dict) :=
  try_except
    (response <- get_state (user_index_key user_id) ;;
     match response with
     | Some p => fetch_reminders (iter_payload p)
     | None => ret []
     end)
    (fun _ => ret []).

Definition get_task_reminders (user_id task_id : value) : M (list dict) :=
  try_except
    (response <- get_state (task_index_key user_id task_id) ;;
     match response with
     | Some p => fetch_reminders (iter_payload p)
     | None => ret []
     end)
    (fun _ => ret []).

Definition mark_reminder_as_notified (reminder_id : string) : M bool :=
  update_reminder reminder_id [("notified", VBool true)].

Definition is_reminder_notified (reminder_id : string) : M value :=
  reminder <- get_reminder reminder_id ;;
  ret (match truthy_dict reminder with
       | Some r => dict_get_default "notified" (VBool false) r
       | None => VBool false
       end).

Definition cancel_reminder (reminder_id : string) : M bool :=
  update_reminder reminder_id [("cancelled", VBool true)].

Definition is_reminder_cancelled (reminder_id : string) : M value :=
  reminder <- get_reminder reminder_id ;;
  ret (match truthy_dict reminder with
       | Some r => dict_get_default "cancelled" (VBool false) r
       | None => VBool false
       end).

(** [reminder.get('id', '') or list(reminder.keys())[0] if reminder else ''] *)
Definition guessed_id (reminder : dict) : value :=
  match reminder with
  | [] => VStr ""
  | (first_key, _) :: _ =>
      let id := dict_get_default "id" (VStr "") reminder in
      if truthy id then id else VStr first_key
  end.

(** [reminder['id'] if 'id' in reminder else reminder_id] *)
Definition cancel_target (reminder : dict) : value :=
  match dict_get "id" reminder with
  | Some id => id
  | None => guessed_id reminder
  end.

(** [cancel_reminder] on an arbitrary object: a key that is not a string is
    refused by the client before any call, inside the [try] of
    [get_reminder], and the update reports [False]. *)
Definition cancel_reminder_value (target : value) : M bool :=
  match target with
  | VStr reminder_id => cancel_reminder reminder_id
  | _ => ret false
  end.

(** The loop of [cancel_task_reminders]; the result is [cancelled_count]. *)
Fixpoint cancel_each (task_reminders : list dict) : M nat :=
  match task_reminders with
  | [] => ret O
  | reminder :: rest =>
      done <- match reminder with
              | [] => ret false
              | _ => cancel_reminder_value (cancel_target reminder)
              end ;;
      cancelled_count <- cancel_each rest ;;
      ret (if done : bool then S cancelled_count else cancelled_count)
  end.

Definition cancel_task_reminders (user_id task_id : value) : M bool :=
  try_except
    (task_reminders <- get_task_reminders user_id task_id ;;
     cancel_each task_reminders ;;;
     ret true)
    (fun _ => ret false).

End ReminderState.

(** ** Notification service ([notification_service/main.py]) *)

Module NotificationService.

Definition known_channel (channel : string) : bool :=
  existsb (String.eqb channel) ["email"; "push"; "sms"; "log"].

Definition channel_status (channel : string) : string :=
  if String.eqb channel "email" then "email_sent"
  else if String.eqb channel "push" then "push_sent"
  else if String.eqb channel "sms" then "sms_sent"
  else "logged".

(** [_send_log], [_send_email], [_send_push], [_send_sms]: each writes the
    notification out and answers with its status. *)
Definition channel_send (channel : string) (user_id : value) (message : string)
  : M string :=
  fun w => (Ret (channel_status channel), add_delivered channel (py_str user_id) message w).

Fixpoint dispatch (channels : list string) (user_id : value) (message : string)
  : M (list (string * string)) :=
  match channels with
  | [] => ret []
  | channel :: rest =>
      status <-
        (if known_channel channel then
           try_except (channel_send channel user_id message) (fun _ => ret "failed")
         else ret "unknown_channel") ;;
      results <- dispatch rest user_id message ;;
      ret ((channel, status) :: results)
  end.

(** [NotificationDelivery.send_notification] behind the module function of
    the same name; the result lists the outcome of each channel. *)
Definition send_notification (user_id task_title due_date : value)
    (channels : option (list string)) : M (list (string * string)) :=
  let channels := match channels with Some c => c | None => ["log"] end in
  let notification_message :=
    "Reminder: Task '" ++ py_str task_title ++ "' is due on " ++ py_str due_date in
  dispatch channels user_id notification_message.

(** The log line on which [reminder_handler] ends. *)
Inductive handled :=
| MissingFields     (* "Missing required fields in reminder event" *)
| AlreadyProcessed  (* "Reminder ... already processed, skipping notification" *)
| Processed         (* "Processed reminder for task ..." *)
| Errored.          (* "Error processing reminder event" *)

Definition reminder_id_of (user_id task_id : value) (t : datetime) : string :=
  "reminder_" ++ py_str user_id ++ "_" ++ py_str task_id ++ "_" ++ strftime_seconds t.

Definition reminder_handler (event_data : dict) : M handled :=
  try_except
    (let user_id := dict_get_none "user_id" event_data in
     let task_id := dict_get_none "task_id" event_data in
     let task_title := dict_get_none "task_title" event_data in
     let due_date := dict_get_none "due_date" event_data in
     if negb (forallb truthy [user_id; task_id; task_title; due_date]) then
       ret MissingFields
     else
       t <- datetime_now ;;
       let reminder_id := reminder_id_of user_id task_id t in
       t1 <- datetime_now ;;
       t2 <- datetime_now ;;
       let reminder_data :=
         [("user_id", user_id);
          ("task_id", task_id);
          ("task_title", task_title);
          ("due_date", due_date);
          ("notified", VBool false);
          ("event_type", dict_get_none "event_type" event_data);
          ("timestamp", dict_get_default "timestamp" (VStr (isoformat t1)) event_data);
          ("created_at", VStr (isoformat t2))] in
       ReminderState.store_reminder reminder_id reminder_data ;;;
       is_notified <- ReminderState.is_reminder_notified reminder_id ;;
       if truthy is_notified then ret AlreadyProcessed
       else
         send_notification user_id task_title due_date None ;;;
         ReminderState.mark_reminder_as_notified reminder_id ;;;
         ret Processed)
    (fun _ => ret Errored).

End NotificationService.

(** ** Task lifecycle handler ([notification_service/task_lifecycle_handler.py])

    The file imports [cancel_task_reminders] from [reminder_state] and then
    defines a function of the same name; the handlers, which look the name up
    when they run, call the latter.  [asyncio.create_task] schedules the
    coroutine, whose whole effect is the one given here. *)

Module TaskLifecycleHandler.

(** The body only logs: "For now, we'll just log that cancellation should
    happen". *)
Definition cancel_task_reminders (user_id task_id : value) : M bool :=
  try_except (ret true) (fun _ => ret false).

Definition task_delete_handler (event_data : dict) : M unit :=
  try_except
    (let user_id := dict_get_none "user_id" event_data in
     let task_id := dict_get_none "task_id" event_data in
     if negb (forallb truthy [user_id; task_id]) then ret tt
     else cancel_task_reminders user_id task_id ;;; ret tt)
    (fun _ => ret tt).

(** The update handler cancels when the two due dates of the event differ;
    it schedules nothing new ("For now, we just log that this would
    happen"). *)
Definition task_update_handler (event_data : dict) : M unit :=
  try_except
    (let user_id := dict_get_none "user_id" event_data in
     let task_id := dict_get_none "task_id" event_data in
     let old_due_date := dict_get_none "old_due_date" event_data in
     let new_due_date := dict_get_none "new_due_date" event_data in
     if negb (forallb truthy [user_id; task_id]) then ret tt
     else
       if negb (py_eq old_due_date new_due_date)
       then cancel_task_reminders user_id task_id ;;; ret tt
       else ret tt)
    (fun _ => ret tt).

End TaskLifecycleHandler.

(** ** Reminder scheduler ([notification_service/reminder_scheduler.py]) *)

Module ReminderScheduler.

Definition TASK_REMINDERS_TOPIC := "task-reminders".

(** The loop of [check_upcoming_tasks]: one reminder event per due task. *)
Fixpoint publish_reminders (due_tasks : list dict) : M unit :=
  match due_tasks with
  | [] => ret tt
  | task :: rest =>
      t <- datetime_now ;;
      let reminder_event :=
        [("user_id", dict_get_none "user_id" task);
         ("task_id", dict_get_none "id" task);
         ("task_title", dict_get_none "title" task);
         ("due_date", dict_get_none "due_date" task);
         ("event_type", VStr "reminder_triggered");
         ("timestamp", VStr (isoformat t))] in
      publish_event TASK_REMINDERS_TOPIC reminder_event ;;;
      publish_reminders rest
  end.

(** One scan.  [answer] is what the backend returns for [get_due_tasks] once
    decoded. *)
Definition check_upcoming_tasks (answer : res (list dict)) : M unit :=
  try_except
    (client_call ;;;
     due_tasks <- lift answer ;;
     publish_reminders due_tasks)
    (fun _ => ret tt).

(** The state of one scheduler process: the module global
    [checking_reminders], whether an event loop is running where the binding
    is called, and the scans that [asyncio.create_task] has scheduled and
    that have not finished yet. *)
Record process := mk_process {
  checking_reminders : bool;
  loop_running : bool;
  in_flight : nat
}.

Definition set_checking (b : bool) (p : process) : process :=
  mk_process b (loop_running p) (in_flight p).

(** [asyncio.create_task(check_upcoming_tasks())]: the coroutine is put on
    the loop and the call returns at once; without a running loop it is a
    RuntimeError. *)
Definition create_task (p : process) : res unit * process :=
  if loop_running p
  then (Ret tt, mk_process (checking_reminders p) (loop_running p) (S (in_flight p)))
  else (Raise RuntimeError, p).

(** The log line on which [reminder_check] ends. *)
Inductive checked :=
| Skipped    (* "Previous reminder check still running, skipping this execution" *)
| Started    (* the scan was scheduled *)
| Refused.   (* "Error in reminder check" *)

Definition reminder_check (p : process) : checked * process :=
  if checking_reminders p then (Skipped, p)
  else
    let p := set_checking true p in
    let '(r, p) :=
      match create_task p with
      | (Ret _, p') => (Started, p')
      | (Raise _, p') => (Refused, p')
      end in
    (* finally *)
    (r, set_checking false p).

(** What can happen to the process: the cron binding fires, or the event
    loop runs one scheduled scan to its end. *)
Inductive event := Trigger | ScanRuns.

Definition step (answer : res (list dict)) (e : event) (s : process * world)
  : process * world :=
  let '(p, w) := s in
  match e with
  | Trigger => (snd (reminder_check p), w)
  | ScanRuns =>
      match in_flight p with
      | O => (p, w)
      | S n =>
          (mk_process (checking_reminders p) (loop_running p) n,
           snd (check_upcoming_tasks answer w))
      end
  end.

Definition run (answer : res (list dict)) (es : list event) (s : process * world)
  : process * world :=
  fold_left (fun s e => step answer e s) es s.

End ReminderScheduler.

(** ** WebSocket service ([websocket_service/main.py])

    A connection object is known by its identity, a number. *)

Module WebSocketService.

Record WebSocketManager := mk_manager {
  active_connections : gmap string (gset nat);
  user_connection_map : gmap nat string
}.

Definition empty_manager : WebSocketManager := mk_manager ∅ ∅.

Definition connect (websocket : nat) (user_id : string) (m : WebSocketManager)
  : WebSocketManager :=
  let active :=
    match active_connections m !! user_id with
    | Some _ => active_connections m
    | None => <[user_id := ∅]> (active_connections m)
    end in
  let connections := default ∅ (active !! user_id) in
  mk_manager (<[user_id := connections ∪ {[websocket]}]> active)
             (<[websocket := user_id]> (user_connection_map m)).

Definition disconnect (websocket : nat) (m : WebSocketManager) : WebSocketManager :=
  match user_connection_map m !! websocket with
  | Some user_id =>
      let active :=
        match active_connections m !! user_id with
        | Some connections =>
            let connections := connections ∖ {[websocket]} in
            if decide (size connections = 0)
            then delete user_id (active_connections m)
            else <[user_id := connections]> (active_connections m)
        | None => active_connections m
        end in
      mk_manager active (delete websocket (user_connection_map m))
  | None => m
  end.

(** The loop of [broadcast_to_user] over the copied set: [wire c] is what
    [connection.send] does on connection [c].  The result lists the
    connections that took the message and [connections_to_remove]. *)
Fixpoint send_each (wire : nat -> res unit) (connections : list nat)
  : list nat * list nat :=
  match connections with
  | [] => ([], [])
  | connection :: rest =>
      let '(received, connections_to_remove) := send_each wire rest in
      match wire connection with
      | Ret _ => (connection :: received, connections_to_remove)
      | Raise ConnectionClosed => (received, connection :: connections_to_remove)
      | Raise _ => (received, connection :: connections_to_remove)
      end
  end.

Definition broadcast_to_user (wire : nat -> res unit) (user_id : string)
    (message : dict) (m : WebSocketManager)
  : WebSocketManager * list (nat * dict) :=
  match active_connections m !! user_id with
  | Some connections =>
      let '(received, connections_to_remove) := send_each wire (elements connections) in
      (fold_left (fun m connection => disconnect connection m) connections_to_remove m,
       map (fun c => (c, message)) received)
  | None => (m, [])
  end.

End WebSocketService.

(** ** Vocabulary of the statements *)

(** The leap rule in the words of the specification: divisible by 4, except
    centuries not divisible by 400. *)
Definition spec_leap (y : Z) : bool :=
  ((y mod 4 =? 0) && negb ((y mod 100 =? 0) && negb (y mod 400 =? 0)))%Z.

(** The last valid day of a month, by the calendar rhyme. *)
Definition spec_last_day (y m : Z) : Z :=
  if (m =? 2)%Z then (if spec_leap y then 29 else 28)%Z
  else if ((m =? 4) || (m =? 6) || (m =? 9) || (m =? 11))%Z then 30%Z
  else 31%Z.

(** A date of the proleptic calendar, with no upper bound on the year. *)
Definition on_calendar (dt : datetime) : Prop :=
  (1 <= year dt /\ 1 <= month dt <= 12 /\
   1 <= day dt <= days_in_month (year dt) (month dt))%Z.

(** Same time of day and same offset. *)
Definition same_clock (a b : datetime) : Prop :=
  hour a = hour b /\ minute a = minute b /\ second a = second b /\
  microsecond a = microsecond b /\ tzinfo a = tzinfo b.

(** [r] is in the year of [dt], or in the first [k] days of the next. *)
Definition early_next_year (k : Z) (dt r : datetime) : Prop :=
  (year r = year dt \/ (year r = year dt + 1 /\ month r = 1 /\ day r <= k))%Z.

(** Months counted from the start of the calendar. *)
Definition month_index (dt : datetime) : Z := (year dt * 12 + (month dt - 1))%Z.

(** The text that [calculate_next_occurrence] hands to the parser. *)
Definition completion_text (s : string) : string :=
  if endswith_Z s then drop_last s ++ "+00:00" else s.

(** No call on the Dapr client fails. *)
Definition reliable (w : world) : Prop := faults w = (fun _ => false).

(** [new_task] carries field [k] of [original] unchanged. *)
Definition carries (k : string) (original new_task : dict) : Prop :=
  forall v, dict_get k original = Some v -> dict_get k new_task = Some v.

(** The end instant of [task_data] is set and lies at or before the clock
    reading [t], taken in a zone with UTC offset [off]. *)
Definition end_reached (task_data : dict) (t : datetime) (off : Z) : Prop :=
  exists s end_date,
    dict_get "recurrence_end_date" task_data = Some (VStr s) /\ s <> "" /\
    fromisoformat (replace_Z s) = Ret end_date /\
    match tzinfo end_date with
    | None => (naive_micros end_date <= naive_micros t)%Z
    | Some o => (utc_micros end_date o <= utc_micros t off)%Z
    end.

(** The remaining-occurrences counter of [task_data] is at or below zero
    (and the end instant, when there is one, is well formed). *)
Definition count_exhausted (task_data : dict) : Prop :=
  exists c,
    dict_get "recurrence_count" task_data = Some (VInt c) /\ (c <= 0)%Z /\
    (truthy (dict_get_none "recurrence_end_date" task_data) = false \/
     exists s end_date,
       dict_get "recurrence_end_date" task_data = Some (VStr s) /\
       fromisoformat (replace_Z s) = Ret end_date).

(** The processing identity that [process_completed_task] derives for
    [task_data] when it starts in world [w]. *)
Definition completion_identity (task_data : dict) (w : world) : string :=
  RecurrenceEngine.processing_id
    (dict_get_none "user_id" task_data) (dict_get_none "id" task_data)
    (clock w (reads w)).

(** [process_completed_task] answers [result], leaves a completed marker and
    no started marker for the processing identity, and neither creates a
    task nor publishes an event. *)
Definition closes_without_task (task_data : dict) (w : world) (result : bool) : Prop :=
  let r := RecurrenceEngine.process_completed_task task_data w in
  let pid := completion_identity task_data w in
  fst r = Ret result /\
  (exists t, store (snd r) !! RecurrenceEngine.processed_key pid
             = Some (RecurrenceEngine.marker "completed" t)) /\
  store (snd r) !! RecurrenceEngine.started_key pid = None /\
  tasks (snd r) = tasks w /\
  published (snd r) = published w.

(** A world to run examples in: an empty store, no failing call, a clock
    that advances by one microsecond per reading, and a backend that accepts
    every task and numbers it 77. *)
Definition demo_world : world :=
  mk_world ∅ (fun _ => false) 0
           (fun n => mk_datetime 2024 1 31 10 20 30 (Z.of_nat n) None) 0 0
           (fun body => Ret (("id", VInt 77) :: body)) [] [] [].

(** A completion event of a weekly task with [count] occurrences left. *)
Definition demo_task (count : Z) : dict :=
  [("id", VInt 12345); ("user_id", VStr "u1"); ("title", VStr "Water the plants");
   ("description", VStr "All of them"); ("priority", VStr "high");
   ("recurrence_pattern", VStr "weekly"); ("recurrence_count", VInt count);
   ("completed_at", VStr "2024-01-31T09:00:00Z")].

(** Completion events without and with a recurrence pattern. *)
Definition task_without_pattern : dict :=
  [("id", VInt 7); ("user_id", VStr "u1"); ("title", VStr "Once");
   ("description", VStr ""); ("completed_at", VStr "2024-01-31T09:00:00Z")].

Definition task_with_pattern (pattern : string) (extra : dict) : dict :=
  ([("id", VInt 7); ("user_id", VStr "u1"); ("title", VStr "Often");
    ("description", VStr ""); ("recurrence_pattern", VStr pattern);
    ("completed_at", VStr "2024-01-31T09:00:00Z")] ++ extra)%list.

(** The text that the notification of [event_data] carries. *)
Definition reminder_text (event_data : dict) : string :=
  "Reminder: Task '" ++ py_str (dict_get_none "task_title" event_data) ++
  "' is due on " ++ py_str (dict_get_none "due_date" event_data).

(** A world with a given store and fault schedule, otherwise as
    [demo_world]. *)
Definition world_with (st : gmap string payload) (f : nat -> bool) : world :=
  mk_world st f 0 (clock demo_world) 0 0 (backend demo_world) [] [] [].

(** A stored reminder with the given flags. *)
Definition reminder_with (notified cancelled : bool) : dict :=
  [("user_id", VStr "u1"); ("task_id", VInt 5); ("task_title", VStr "Pay rent");
   ("due_date", VStr "2024-02-01T00:00:00"); ("notified", VBool notified);
   ("cancelled", VBool cancelled)].

(** A reminder-due event. *)
Definition demo_reminder_event : dict :=
  [("user_id", VStr "u1"); ("task_id", VInt 5); ("task_title", VStr "Pay rent");
   ("due_date", VStr "2024-02-01T00:00:00"); ("event_type", VStr "reminder_triggered")].

(** Connection [c] is in the connection set of [user_id]. *)
Definition registered (m : WebSocketService.WebSocketManager) (user_id : string) (c : nat)
  : Prop :=
  exists cs, WebSocketService.active_connections m !! user_id = Some cs /\ c ∈ cs.

(** The backward map knows the user of every registered connection; it is
    what [websocket_handler] maintains by connecting each connection once. *)
Definition consistent (m : WebSocketService.WebSocketManager) : Prop :=
  forall u c, registered m u c -> WebSocketService.user_connection_map m !! c = Some u.

(** Two connections of [u1]; the first one is closed. *)
Definition demo_manager : WebSocketService.WebSocketManager :=
  WebSocketService.connect 2 "u1"
    (WebSocketService.connect 1 "u1" WebSocketService.empty_manager).

Definition demo_wire (c : nat) : res unit :=
  if Nat.eqb c 1 then Raise ConnectionClosed else Ret tt.

(** A scheduler process with a running loop, nothing in flight. *)
Definition idle_process : ReminderScheduler.process :=
  ReminderScheduler.mk_process false true 0.

(** One task due soon, as the backend reports it. *)
Definition one_due_task : res (list dict) :=
  Ret [[("id", VInt 5); ("user_id", VStr "u1"); ("title", VStr "Pay rent");
        ("due_date", VStr "2024-02-01T00:00:00")]].

(** [steady K w w']: from [w] to [w'] nothing was delivered, created or
    published, and the keys in [K] hold what they held. *)
Definition steady (K : string -> Prop) (w w' : world) : Prop :=
  delivered w' = delivered w /\ tasks w' = tasks w /\ published w' = published w /\
  faults w' = faults w /\
  forall k, K k -> store w' !! k = store w !! k.

Definition Steady {A} (K : string -> Prop) (c : M A) : Prop :=
  forall w, steady K w (snd (c w)).

(** ** Further vocabulary *)

(** The end instant of [task_data] is not set, or lies after the clock
    reading [t] taken in a zone with UTC offset [off]. *)
Definition end_open (task_data : dict) (t : datetime) (off : Z) : Prop :=
  truthy (dict_get_none "recurrence_end_date" task_data) = false \/
  exists s end_date,
    dict_get "recurrence_end_date" task_data = Some (VStr s) /\ s <> "" /\
    fromisoformat (replace_Z s) = Ret end_date /\
    match tzinfo end_date with
    | None => (naive_micros t < naive_micros end_date)%Z
    | Some o => (utc_micros t off < utc_micros end_date o)%Z
    end.

(** No remaining-occurrences counter, or a positive one. *)
Definition count_open (task_data : dict) : Prop :=
  dict_get_none "recurrence_count" task_data = VNone \/
  exists c, dict_get "recurrence_count" task_data = Some (VInt c) /\ (0 < c)%Z.

(** The answer of [calculate_next_occurrence] for a pattern and a parsed
    completion instant. *)
Definition next_occurrence_of (pat : RecurrenceEngine.RecurrencePattern) (dt : datetime)
  : option string :=
  match (match pat with
         | RecurrenceEngine.DAILY => add_days 1 dt
         | RecurrenceEngine.WEEKLY => add_days 7 dt
         | RecurrenceEngine.MONTHLY => RecurrenceEngine.add_months dt 1
         | RecurrenceEngine.YEARLY => RecurrenceEngine.add_months dt 12
         end) with
  | Ret next => Some (isoformat next)
  | Raise _ => None
  end.

(** [c] delivers nothing, and the keys in [K] hold after it what they held
    before. *)
Definition Keeps {A} (K : string -> Prop) (c : M A) : Prop :=
  forall w, delivered (snd (c w)) = delivered w /\
            forall k, K k -> store (snd (c w)) !! k = store w !! k.

(** The keys under which the recurrence engine keeps its markers. *)
Definition marker_key (k : string) : Prop :=
  exists pid, k = RecurrenceEngine.processed_key pid \/ k = RecurrenceEngine.started_key pid.

(** The non-empty dictionaries stored under [ids], in the order of [ids]. *)
Definition resolve (st : gmap string payload) (ids : list string) : list dict :=
  omap (fun rid => match st !! rid with
                   | Some (PDict (kv :: d)) => Some (kv :: d)
                   | _ => None
                   end) ids.

(** The identities an index key holds, as the listings iterate over them;
    nothing stored reads as no identity. *)
Definition index_of (st : gmap string payload) (key : string) : list string :=
  match st !! key with Some p => ReminderState.iter_payload p | None => [] end.

(** An index key holds a list, or nothing yet. *)
Definition index_slot (st : gmap string payload) (key : string) : Prop :=
  st !! key = None \/ exists ids, st !! key = Some (PList ids).


(** The store once [reminder_id] has been appended to, or removed from, the
    index under [key]. *)
Definition index_added (key reminder_id : string) (st : gmap string payload)
  : gmap string payload :=
  if existsb (String.eqb reminder_id) (index_of st key) then st
  else <[key := PList (index_of st key ++ [reminder_id])]> st.

Definition index_removed (key reminder_id : string) (st : gmap string payload)
  : gmap string payload :=
  if existsb (String.eqb reminder_id) (index_of st key)
  then <[key := PList (ReminderState.list_remove reminder_id (index_of st key))]> st
  else st.

(** Reminder event [ev] announces the due task [task]. *)
Definition announces (task ev : dict) : Prop :=
  dict_get "user_id" ev = Some (dict_get_none "user_id" task) /\
  dict_get "task_id" ev = Some (dict_get_none "id" task) /\
  dict_get "task_title" ev = Some (dict_get_none "title" task) /\
  dict_get "due_date" ev = Some (dict_get_none "due_date" task) /\
  dict_get "event_type" ev = Some (VStr "reminder_triggered").

(** Two due tasks, as the backend reports them. *)
Definition two_due_tasks : list dict :=
  [[("id", VInt 5); ("user_id", VStr "u1"); ("title", VStr "Pay rent");
    ("due_date", VStr "2024-02-01T00:00:00")];
   [("id", VInt 6); ("user_id", VStr "u2"); ("title", VStr "Call home");
    ("due_date", VStr "2024-02-01T00:30:00")]].

(** No user is kept with an empty set of connections. *)
Definition tidy (m : WebSocketService.WebSocketManager) : Prop :=
  forall u cs, WebSocketService.active_connections m !! u = Some cs -> cs <> ∅.

(** The backward map knows exactly the registered connections. *)
Definition exact (m : WebSocketService.WebSocketManager) : Prop :=
  forall u c, WebSocketService.user_connection_map m !! c = Some u <-> registered m u c.

(** The managers one service process goes through: it starts empty; the
    handler of a new connection registers it (the connection object is new,
    so the manager does not know it yet); a handler ends and disconnects;
    a message is broadcast to a user over some wire. *)
Inductive reachable : WebSocketService.WebSocketManager -> Prop :=
| reach_start : reachable WebSocketService.empty_manager
| reach_connect m websocket user_id :
    reachable m ->
    WebSocketService.user_connection_map m !! websocket = None ->
    reachable (WebSocketService.connect websocket user_id m)
| reach_disconnect m websocket :
    reachable m -> reachable (WebSocketService.disconnect websocket m)
| reach_broadcast m wire user_id message :
    reachable m ->
    reachable (fst (WebSocketService.broadcast_to_user wire user_id message m)).

(** A reminder is stored under [reminder_id]; it is stored there and flagged
    as cancelled. *)
Definition present (st : gmap string payload) (reminder_id : string) : Prop :=
  exists d, st !! reminder_id = Some (PDict d) /\ d <> [].

Definition cancelled_in (st : gmap string payload) (reminder_id : string) : Prop :=
  exists d, st !! reminder_id = Some (PDict d) /\
            dict_get "cancelled" d = Some (VBool true).

(** A reminder that carries its own identity, as [reminder_with] does not. *)
Definition identified_reminder (reminder_id : string) : dict :=
  ("id", VStr reminder_id) :: reminder_with false false.
(** * Properties *)

(** ** Sanity checks of the library model *)

Example py_str_int_zero : py_str_int 0 = "0".
Proof. reflexivity. Qed.

Example py_str_int_negative : py_str_int (-15) = "-15".
Proof. reflexivity. Qed.

Example fromisoformat_full :
  fromisoformat "2024-01-31T10:20:30.000123+05:30" =
  Ret (mk_datetime 2024 1 31 10 20 30 123 (Some 330%Z)).
Proof. vm_compute. reflexivity. Qed.

Example fromisoformat_not_a_date : fromisoformat "2023-02-29" = Raise ValueError.
Proof. vm_compute. reflexivity. Qed.

Example isoformat_full :
  isoformat (mk_datetime 2024 1 31 10 20 30 123 (Some 330%Z)) =
  "2024-01-31T10:20:30.000123+05:30".
Proof. vm_compute. reflexivity. Qed.

Example strftime_micros_example :
  strftime_micros (mk_datetime 2024 1 31 10 20 30 123 None) = "20240131102030000123".
Proof. vm_compute. reflexivity. Qed.

Example toordinal_example : toordinal (mk_datetime 2024 3 1 0 0 0 0 None) = 738946%Z.
Proof. vm_compute. reflexivity. Qed.

Example lower_example : lower "MonThly" = "monthly".
Proof. reflexivity. Qed.

(** ** Running a computation by hand *)

Ltac unfold_monad :=
  cbv beta iota zeta delta [bind ret raise lift try_except].

(** Run a computation on a world given field by field; what is left are the
    tests on data. *)
Ltac run_world :=
  cbv beta iota zeta delta
    [bind ret raise lift try_except client_call get_state save_state delete_state
     invoke_create_task publish_event datetime_now now_reached
     set_store set_calls set_reads add_task add_published add_delivered
     store faults calls clock reads local_offset backend tasks published delivered
     fst snd].

(** ** The calendar *)

Section Calendar.
Local Open Scope Z_scope.

Lemma month_cases m : 1 <= m <= 12 ->
  m = 1 \/ m = 2 \/ m = 3 \/ m = 4 \/ m = 5 \/ m = 6 \/
  m = 7 \/ m = 8 \/ m = 9 \/ m = 10 \/ m = 11 \/ m = 12.
Proof. lia. Qed.

Ltac each_month m Hm :=
  destruct (month_cases m Hm)
    as [->|[->|[->|[->|[->|[->|[->|[->|[->|[->|[->| ->]]]]]]]]]]].

Lemma is_leap_spec y : is_leap y = spec_leap y.
Proof.
  unfold is_leap, spec_leap.
  destruct (y mod 4 =? 0), (y mod 100 =? 0), (y mod 400 =? 0); reflexivity.
Qed.

Lemma days_in_month_spec y m : 1 <= m <= 12 -> days_in_month y m = spec_last_day y m.
Proof.
  intros Hm. unfold spec_last_day. rewrite <- is_leap_spec.
  each_month m Hm; reflexivity.
Qed.

Lemma days_in_month_bounds y m : 1 <= m <= 12 -> 28 <= days_in_month y m <= 31.
Proof.
  intros Hm.
  each_month m Hm; unfold days_in_month; simpl; try lia; destruct (is_leap y); lia.
Qed.

Lemma days_before_month_succ y m : 1 <= m <= 11 ->
  days_before_month y (m + 1) = days_before_month y m + days_in_month y m.
Proof.
  intros Hm.
  assert (H : 1 <= m <= 12) by lia.
  each_month m H; try lia;
    unfold days_before_month, days_in_month; simpl; destruct (is_leap y); lia.
Qed.

Lemma days_before_year_succ y : 1 <= y ->
  days_before_year (y + 1) = days_before_year y + (if is_leap y then 366 else 365).
Proof.
  intros Hy. unfold days_before_year, is_leap.
  replace (y + 1 - 1) with y by lia.
  destruct (Z.eqb_spec (y mod 4) 0), (Z.eqb_spec (y mod 100) 0),
           (Z.eqb_spec (y mod 400) 0);
    simpl; Z.div_mod_to_equations; lia.
Qed.

Lemma valid_date_iff y m d :
  valid_date y m d = true <->
  (1 <= y <= 9999 /\ 1 <= m <= 12 /\ 1 <= d <= days_in_month y m).
Proof.
  unfold valid_date, MINYEAR, MAXYEAR. rewrite !andb_true_iff, !Z.leb_le. tauto.
Qed.

Lemma valid_on_calendar dt : valid dt = true -> on_calendar dt /\ year dt <= 9999.
Proof.
  unfold valid. rewrite !andb_true_iff. intros [[H _] _].
  apply valid_date_iff in H. unfold on_calendar. lia.
Qed.

Lemma valid_same_clock a b :
  valid a = true -> same_clock b a -> on_calendar b -> year b <= 9999 ->
  valid b = true.
Proof.
  unfold valid. rewrite !andb_true_iff.
  intros [[_ Ht] Hz] (-> & -> & -> & -> & ->) Hc Hy.
  repeat split; try assumption. apply valid_date_iff. unfold on_calendar in Hc. lia.
Qed.

Lemma fromisoformat_valid s dt : fromisoformat s = Ret dt -> valid dt = true.
Proof.
  unfold fromisoformat, checked. intros H.
  repeat match type of H with
         | (match ?x with _ => _ end) = _ => destruct x eqn:?
         | (if ?x then _ else _) = _ => destruct x eqn:?
         | (let (_, _) := ?x in _) = _ => destruct x eqn:?
         end; try discriminate; injection H as <-; assumption.
Qed.

Lemma next_day_clock dt : same_clock (next_day dt) dt.
Proof.
  unfold next_day, same_clock.
  destruct (day dt <? _); [|destruct (month dt <? 12)]; simpl; tauto.
Qed.

(** The three ways a day ends: inside a month, at the end of a month, at the
    end of a year. *)
Lemma next_day_cases dt :
  on_calendar dt ->
  let n := next_day dt in
  (day dt < days_in_month (year dt) (month dt) /\
   year n = year dt /\ month n = month dt /\ day n = day dt + 1) \/
  (day dt = days_in_month (year dt) (month dt) /\ month dt < 12 /\
   year n = year dt /\ month n = month dt + 1 /\ day n = 1) \/
  (day dt = 31 /\ month dt = 12 /\
   year n = year dt + 1 /\ month n = 1 /\ day n = 1).
Proof.
  intros (Hy & Hm & Hd) n. subst n. unfold next_day.
  destruct (Z.ltb_spec (day dt) (days_in_month (year dt) (month dt)));
    simpl; [left; lia|].
  destruct (Z.ltb_spec (month dt) 12); simpl; [right; left; lia|].
  right; right. assert (Hm12 : month dt = 12) by lia.
  rewrite Hm12 in *. unfold days_in_month in *. simpl in *. lia.
Qed.

(** [next_day] is the successor on ordinals, which is what adding
    [timedelta(days=1)] means. *)
Lemma next_day_ordinal dt :
  on_calendar dt -> toordinal (next_day dt) = toordinal dt + 1.
Proof.
  intros Hc. pose proof Hc as (Hy & Hm & Hd).
  destruct (next_day_cases dt Hc)
    as [(_ & E1 & E2 & E3)|[(Hl & Hm' & E1 & E2 & E3)|(Hl & Hm' & E1 & E2 & E3)]];
    unfold toordinal; rewrite E1, E2, E3.
  - lia.
  - rewrite days_before_month_succ by lia. lia.
  - rewrite days_before_year_succ by lia. rewrite Hm'.
    unfold days_before_month, days_in_month. simpl.
    destruct (is_leap (year dt)); lia.
Qed.

Lemma next_day_on_calendar dt : on_calendar dt -> on_calendar (next_day dt).
Proof.
  intros Hc. pose proof Hc as (Hy & Hm & Hd).
  destruct (next_day_cases dt Hc)
    as [(Hl & E1 & E2 & E3)|[(Hl & Hm' & E1 & E2 & E3)|(Hl & Hm' & E1 & E2 & E3)]];
    unfold on_calendar; rewrite E1, E2, E3.
  - lia.
  - pose proof (days_in_month_bounds (year dt) (month dt + 1)). lia.
  - unfold days_in_month. simpl. lia.
Qed.

Lemma iter_next_day (n : nat) dt :
  on_calendar dt -> (n <= 28)%nat ->
  let r := Nat.iter n next_day dt in
  on_calendar r /\ same_clock r dt /\ toordinal r = toordinal dt + Z.of_nat n /\
  early_next_year (Z.of_nat n) dt r.
Proof.
  intros Hv. induction n as [|n IH]; intros Hn r.
  - subst r. simpl. unfold same_clock, early_next_year.
    repeat split; try apply Hv; lia.
  - subst r. simpl Nat.iter.
    destruct IH as (Hvr & Hc & Ho & He); [lia|].
    set (r := Nat.iter n next_day dt) in *.
    pose proof (next_day_clock r) as Hc'.
    pose proof (next_day_ordinal r Hvr) as Ho'.
    split; [now apply next_day_on_calendar|].
    split; [unfold same_clock in *; intuition congruence|].
    split; [lia|].
    unfold early_next_year in *.
    pose proof (days_in_month_bounds (year r) (month r) (proj1 (proj2 Hvr))) as Hb.
    destruct (next_day_cases r Hvr)
      as [(Hl & E1 & E2 & E3)|[(Hl & Hm' & E1 & E2 & E3)|(Hl & Hm' & E1 & E2 & E3)]];
      rewrite E1, E2, E3; lia.
Qed.

Lemma add_days_ok (n : nat) dt :
  valid dt = true -> year dt < 9999 -> (n <= 28)%nat ->
  exists r, add_days n dt = Ret r /\ valid r = true /\ same_clock r dt /\
            toordinal r = toordinal dt + Z.of_nat n.
Proof.
  intros Hv Hy Hn. destruct (valid_on_calendar dt Hv) as (Hc & _).
  destruct (iter_next_day n dt Hc Hn) as (Hr & Hs & Ho & He).
  assert (Hyr : year (Nat.iter n next_day dt) <= 9999) by (destruct He; lia).
  exists (Nat.iter n next_day dt). unfold add_days, MAXYEAR.
  destruct (Z.leb_spec (year (Nat.iter n next_day dt)) 9999); [|lia].
  repeat split; try apply Hs; try assumption.
  eapply valid_same_clock; eauto.
Qed.

Lemma add_months_ok dt months :
  valid dt = true -> 0 <= months ->
  year dt + (month dt - 1 + months) / 12 <= 9999 ->
  exists r, RecurrenceEngine.add_months dt months = Ret r /\
            valid r = true /\ same_clock r dt /\
            month_index r = month_index dt + months /\
            day r = Z.min (day dt) (spec_last_day (year r) (month r)).
Proof.
  intros Hv Hm Hy. destruct (valid_on_calendar dt Hv) as ((Hy1 & Hm1 & Hd1) & Hy2).
  unfold RecurrenceEngine.add_months.
  set (m0 := month dt - 1 + months) in *.
  set (y' := year dt + m0 / 12).
  set (m' := m0 mod 12 + 1).
  change (nth (Z.to_nat (m' - 1)) _ 0) with (days_in_month y' m').
  assert (Hm' : 1 <= m' <= 12) by (subst m'; pose proof (Z.mod_pos_bound m0 12); lia).
  assert (Hy' : 1 <= y' <= 9999) by (subst y'; pose proof (Z.div_pos m0 12); lia).
  pose proof (days_in_month_bounds y' m' Hm') as Hb.
  unfold replace_ymd.
  assert (Hok : valid_date y' m' (Z.min (day dt) (days_in_month y' m')) = true)
    by (apply valid_date_iff; lia).
  rewrite Hok. eexists. split; [reflexivity|].
  split; [|split; [|split]].
  - eapply valid_same_clock; [exact Hv| | |];
      unfold same_clock, on_calendar; simpl; try tauto; lia.
  - unfold same_clock; simpl; tauto.
  - unfold month_index; simpl. subst y' m'. pose proof (Z.div_mod m0 12). lia.
  - simpl. now rewrite days_in_month_spec.
Qed.

End Calendar.

(** ** The next occurrence *)

Section NextOccurrence.
Import RecurrenceEngine.
Local Open Scope Z_scope.

Lemma pattern_of_value s pat : RecurrencePattern_of s = Ret pat -> s = pattern_value pat.
Proof.
  unfold RecurrencePattern_of.
  destruct (String.eqb_spec s "daily"); [intros [= <-]; assumption|].
  destruct (String.eqb_spec s "weekly"); [intros [= <-]; assumption|].
  destruct (String.eqb_spec s "monthly"); [intros [= <-]; assumption|].
  destruct (String.eqb_spec s "yearly"); [intros [= <-]; assumption|].
  discriminate.
Qed.

(** What [calculate_next_occurrence] answers once its inputs are read: the
    date arithmetic of the pattern, or [None] when that raises. *)
Lemma calculate_next_occurrence_run task_data p s dt pat w :
  dict_get "recurrence_pattern" task_data = Some (VStr p) ->
  dict_get "completed_at" task_data = Some (VStr s) ->
  fromisoformat (completion_text s) = Ret dt ->
  RecurrencePattern_of (lower p) = Ret pat ->
  calculate_next_occurrence task_data w =
  (match (match pat with
          | DAILY => add_days 1 dt
          | WEEKLY => add_days 7 dt
          | MONTHLY => add_months dt 1
          | YEARLY => add_months dt 12
          end) with
   | Ret next => Ret (Some (isoformat next))
   | Raise _ => Ret None
   end, set_reads (S (reads w)) w).
Proof.
  intros Hp Hs Hdt Hpat. apply pattern_of_value in Hpat.
  unfold calculate_next_occurrence, try_except, bind, lift, datetime_now, ret, dict_get_default.
  rewrite Hp, Hs. cbn [str_lower str_endswith_Z as_str].
  fold (completion_text s). rewrite Hdt, Hpat.
  destruct pat; cbn [pattern_value String.eqb Ascii.eqb Bool.eqb];
    match goal with
    | |- context [match ?x with Ret _ => _ | Raise _ => _ end] => destruct x
    end; reflexivity.
Qed.

(** C5.  For a completed task whose pattern is one of the four and whose
    completion instant parses to a date before the last year of the calendar,
    [calculate_next_occurrence] answers the ISO text of an instant with the
    same time of day that lies one day later (daily), seven days later
    (weekly), one calendar month later (monthly) or twelve calendar months
    later (yearly), the day of the month being clamped to the last day of
    the month reached under the Gregorian leap rule.  In particular 31
    January gives 28 February, or 29 February in a leap year, under the
    monthly pattern, and 29 February gives 28 February of the next year
    under the yearly pattern. *)
Theorem next_occurrence_by_pattern task_data p s dt pat w :
  dict_get "recurrence_pattern" task_data = Some (VStr p) ->
  RecurrencePattern_of (lower p) = Ret pat ->
  dict_get "completed_at" task_data = Some (VStr s) ->
  fromisoformat (completion_text s) = Ret dt ->
  year dt < MAXYEAR ->
  exists next,
    fst (calculate_next_occurrence task_data w) = Ret (Some (isoformat next)) /\
    valid next = true /\ same_clock next dt /\
    match pat with
    | DAILY => toordinal next = toordinal dt + 1
    | WEEKLY => toordinal next = toordinal dt + 7
    | MONTHLY =>
        month_index next = month_index dt + 1 /\
        day next = Z.min (day dt) (spec_last_day (year next) (month next))
    | YEARLY =>
        month_index next = month_index dt + 12 /\
        day next = Z.min (day dt) (spec_last_day (year next) (month next))
    end /\
    (pat = MONTHLY -> month dt = 1 -> day dt = 31 ->
     year next = year dt /\ month next = 2 /\
     day next = if spec_leap (year dt) then 29 else 28) /\
    (pat = YEARLY -> month dt = 2 -> day dt = 29 ->
     year next = year dt + 1 /\ month next = 2 /\ day next = 28).
Proof.
  intros Hp Hpat Hs Hdt Hy. unfold MAXYEAR in Hy.
  pose proof (fromisoformat_valid _ _ Hdt) as Hv.
  destruct (valid_on_calendar dt Hv) as ((Hy1 & Hm1 & Hd1) & _).
  rewrite (calculate_next_occurrence_run _ _ _ _ _ w Hp Hs Hdt Hpat). cbn [fst].
  destruct pat.
  - destruct (add_days_ok 1 dt Hv Hy) as (r & -> & Hvr & Hc & Ho); [lia|].
    exists r. refine (conj eq_refl (conj Hvr (conj Hc (conj Ho (conj _ _)))));
      discriminate.
  - destruct (add_days_ok 7 dt Hv Hy) as (r & -> & Hvr & Hc & Ho); [lia|].
    exists r. refine (conj eq_refl (conj Hvr (conj Hc (conj Ho (conj _ _)))));
      discriminate.
  - destruct (add_months_ok dt 1 Hv) as (r & -> & Hvr & Hc & Hi & Hd); [lia| |].
    { assert ((month dt - 1 + 1) / 12 <= 1) by (Z.div_mod_to_equations; lia). lia. }
    destruct (valid_on_calendar r Hvr) as ((_ & Hmr & _) & _).
    exists r.
    refine (conj eq_refl (conj Hvr (conj Hc (conj (conj Hi Hd) (conj _ _)))));
      [|discriminate].
    intros _ Hjan H31. unfold month_index in Hi.
    assert (Hyr : year r = year dt) by lia.
    assert (Hm2 : month r = 2) by lia.
    rewrite Hd, Hyr, Hm2. unfold spec_last_day. simpl.
    destruct (spec_leap (year dt)); lia.
  - destruct (add_months_ok dt 12 Hv) as (r & -> & Hvr & Hc & Hi & Hd); [lia| |].
    { assert ((month dt - 1 + 12) / 12 <= 1) by (Z.div_mod_to_equations; lia). lia. }
    destruct (valid_on_calendar r Hvr) as ((_ & Hmr & _) & _).
    exists r.
    refine (conj eq_refl (conj Hvr (conj Hc (conj (conj Hi Hd) (conj _ _)))));
      [discriminate|].
    intros _ Hfeb H29. unfold month_index in Hi.
    assert (Hyr : year r = year dt + 1) by lia.
    assert (Hm2 : month r = 2) by lia.
    rewrite Hd, Hyr, Hm2. unfold spec_last_day. simpl.
    (* a year with a 29 February is a leap year, and the next one is not *)
    assert (Hleap : spec_leap (year dt) = true).
    { rewrite <- is_leap_spec. rewrite Hfeb in Hd1. unfold days_in_month in Hd1.
      simpl in Hd1. destruct (is_leap (year dt)); [reflexivity|lia]. }
    assert (Hnext : spec_leap (year dt + 1) = false).
    { unfold spec_leap in *. apply andb_true_iff in Hleap as [H4 _].
      apply Z.eqb_eq in H4.
      destruct (Z.eqb_spec ((year dt + 1) mod 4) 0) as [E|E]; [|reflexivity].
      exfalso. Z.div_mod_to_equations. lia. }
    rewrite Hnext. lia.
Qed.

(** The three runs the specification names, on the code. *)
Lemma next_occurrence_by_pattern_witness :
  exists next,
    fst (calculate_next_occurrence
           [("recurrence_pattern", VStr "Monthly"); ("completed_at", VStr "2023-01-31T09:00:00Z")]
           (mk_world ∅ (fun _ => false) 0 (fun _ => mk_datetime 2023 2 1 0 0 0 0 None) 0 0
                     (fun _ => Raise DaprError) [] [] []))
    = Ret (Some (isoformat next)) /\
    valid next = true /\ same_clock next (mk_datetime 2023 1 31 9 0 0 0 (Some 0)) /\
    (month_index next = month_index (mk_datetime 2023 1 31 9 0 0 0 (Some 0)) + 1 /\
     day next = Z.min 31 (spec_last_day (year next) (month next))) /\
    (MONTHLY = MONTHLY -> 1 = 1 -> 31 = 31 ->
     year next = 2023 /\ month next = 2 /\ day next = 28) /\
    (MONTHLY = YEARLY -> 1 = 2 -> 31 = 29 ->
     year next = 2023 + 1 /\ month next = 2 /\ day next = 28).
Proof.
  apply (next_occurrence_by_pattern
           [("recurrence_pattern", VStr "Monthly"); ("completed_at", VStr "2023-01-31T09:00:00Z")]
           "Monthly" "2023-01-31T09:00:00Z" (mk_datetime 2023 1 31 9 0 0 0 (Some 0)) MONTHLY);
    vm_compute; reflexivity.
Defined.

Example monthly_from_january_31 :
  add_months (mk_datetime 2023 1 31 9 0 0 0 None) 1 = Ret (mk_datetime 2023 2 28 9 0 0 0 None) /\
  add_months (mk_datetime 2024 1 31 9 0 0 0 None) 1 = Ret (mk_datetime 2024 2 29 9 0 0 0 None) /\
  add_months (mk_datetime 2024 2 29 9 0 0 0 None) 12 = Ret (mk_datetime 2025 2 28 9 0 0 0 None) /\
  add_months (mk_datetime 2023 12 15 9 0 0 0 None) 1 = Ret (mk_datetime 2024 1 15 9 0 0 0 None) /\
  add_days 1 (mk_datetime 2023 12 31 9 0 0 0 None) = Ret (mk_datetime 2024 1 1 9 0 0 0 None) /\
  add_days 7 (mk_datetime 2024 2 26 9 0 0 0 None) = Ret (mk_datetime 2024 3 4 9 0 0 0 None).
Proof. vm_compute. repeat split. Qed.

(** At the very end of the calendar there is no next occurrence. *)
Example no_occurrence_after_the_last_day :
  add_days 1 (mk_datetime 9999 12 31 0 0 0 0 None) = Raise OverflowError /\
  add_months (mk_datetime 9999 12 1 0 0 0 0 None) 1 = Raise ValueError.
Proof. vm_compute. split; reflexivity. Qed.

End NextOccurrence.

(** ** The task that recurs *)

Section NewTask.
Import RecurrenceEngine.

Lemma subscript_get k d v : subscript k d = Ret v -> dict_get k d = Some v.
Proof. unfold subscript. destruct (dict_get k d); [intros [= ->]; reflexivity|discriminate]. Qed.

(** The body handed to the backend, field by field. *)
Lemma new_task_of_fields original next new_task :
  new_task_of original next = Ret new_task ->
  carries "user_id" original new_task /\
  carries "title" original new_task /\
  carries "description" original new_task /\
  carries "priority" original new_task /\
  carries "tags" original new_task /\
  carries "recurrence_pattern" original new_task /\
  carries "recurrence_end_date" original new_task /\
  dict_get "due_date" new_task = Some (VStr next) /\
  (forall c, dict_get "recurrence_count" original = Some (VInt c) ->
             dict_get "recurrence_count" new_task = Some (VInt (c - 1))) /\
  (dict_get_none "recurrence_count" original = VNone ->
   dict_get "recurrence_count" new_task = Some VNone) /\
  (dict_get "priority" original = None ->
   dict_get "priority" new_task = Some (VStr "medium")) /\
  (dict_get "tags" original = None -> dict_get "tags" new_task = Some (VList [])).
Proof.
  unfold new_task_of, carries, dict_get_none, dict_get_default.
  destruct (subscript "user_id" original) as [u|] eqn:Hu; [|discriminate].
  destruct (subscript "title" original) as [t|] eqn:Ht; [|discriminate].
  destruct (subscript "description" original) as [d|] eqn:Hd; [|discriminate].
  apply subscript_get in Hu, Ht, Hd. cbn [dict_get String.eqb Ascii.eqb Bool.eqb].
  destruct (dict_get "recurrence_count" original) as [c|] eqn:Hc.
  - destruct c as [|b|z|s|l]; cbn [decrement dict_set String.eqb Ascii.eqb Bool.eqb];
      intros [= <-]; cbn [dict_get String.eqb Ascii.eqb Bool.eqb];
      rewrite ?Hu, ?Ht, ?Hd;
      repeat split; try congruence; intros; repeat case_match; congruence.
  - intros [= <-]; cbn [dict_get String.eqb Ascii.eqb Bool.eqb];
      rewrite ?Hu, ?Ht, ?Hd;
      repeat split; try congruence; intros; repeat case_match; congruence.
Qed.

(** C7.  When [create_recurring_task] obtains a task from the backend, the
    body it sent carries the title, description, priority, tags, recurrence
    pattern and recurrence end date of the original task, its due date is
    the next occurrence, and a remaining-occurrences counter of the original
    is there with one less. *)
Theorem recurring_task_fields original next_occurrence w r :
  fst (create_recurring_task original next_occurrence w) = Ret (Some r) ->
  exists new_task,
    tasks (snd (create_recurring_task original next_occurrence w)) = (tasks w ++ [new_task])%list /\
    carries "title" original new_task /\
    carries "description" original new_task /\
    carries "priority" original new_task /\
    carries "tags" original new_task /\
    carries "recurrence_pattern" original new_task /\
    carries "recurrence_end_date" original new_task /\
    dict_get "due_date" new_task = Some (VStr next_occurrence) /\
    (forall c, dict_get "recurrence_count" original = Some (VInt c) ->
               dict_get "recurrence_count" new_task = Some (VInt (c - 1))).
Proof.
  unfold create_recurring_task, invoke_create_task, client_call. unfold_monad.
  destruct (new_task_of original next_occurrence) as [new_task|] eqn:Hnew;
    [|discriminate].
  destruct (faults w (calls w)); [discriminate|].
  cbn [backend set_calls].
  destruct (backend w new_task) as [answer|] eqn:Hb; [|discriminate].
  intros _. exists new_task. cbn [snd tasks add_task].
  destruct (new_task_of_fields _ _ _ Hnew)
    as (_ & Ht & Hd & Hp & Hg & Hr & He & Hdue & Hc & _).
  tauto.
Qed.

Lemma recurring_task_fields_witness :
  exists new_task,
    tasks (snd (create_recurring_task (demo_task 1) "2024-02-07T09:00:00+00:00" demo_world))
    = (tasks demo_world ++ [new_task])%list /\
    carries "title" (demo_task 1) new_task /\
    carries "description" (demo_task 1) new_task /\
    carries "priority" (demo_task 1) new_task /\
    carries "tags" (demo_task 1) new_task /\
    carries "recurrence_pattern" (demo_task 1) new_task /\
    carries "recurrence_end_date" (demo_task 1) new_task /\
    dict_get "due_date" new_task = Some (VStr "2024-02-07T09:00:00+00:00") /\
    (forall c, dict_get "recurrence_count" (demo_task 1) = Some (VInt c) ->
               dict_get "recurrence_count" new_task = Some (VInt (c - 1))).
Proof.
  eapply (recurring_task_fields (demo_task 1) "2024-02-07T09:00:00+00:00" demo_world).
  vm_compute. reflexivity.
Defined.

(** Termination by count: a task completed with one occurrence left recurs
    with none left, and completing that one creates nothing more. *)
Example termination_by_count :
  let first := process_completed_task (demo_task 1) demo_world in
  let second := process_completed_task (demo_task 0) (snd first) in
  fst first = Ret true /\
  map (dict_get "recurrence_count") (tasks (snd first)) = [Some (VInt 0)] /\
  map (dict_get "due_date") (tasks (snd first)) = [Some (VStr "2024-02-07T09:00:00+00:00")] /\
  fst second = Ret true /\
  tasks (snd second) = tasks (snd first).
Proof. vm_compute. repeat split. Qed.

End NewTask.

(** ** Processing markers *)

Section Markers.
Import RecurrenceEngine.

Lemma started_not_processed pid : started_key pid <> processed_key pid.
Proof. unfold started_key, processed_key. simpl. discriminate. Qed.

Ltac closed_with_marker :=
  split; [reflexivity|];
  split; [eexists; rewrite lookup_delete_ne by apply started_not_processed;
          apply lookup_insert_eq|];
  split; [apply lookup_delete_eq|];
  split; reflexivity.

Ltac unfold_processing :=
  unfold process_completed_task, has_processed_recurrence,
    mark_recurrence_processing_started, mark_recurrence_processing_completed.

(** When the recurrence has ended, [should_stop_recurrence] says so, and it
    touches nothing but the clock. *)
Lemma should_stop_true task_data st c clk r off be ts ps ds :
  end_reached task_data (clk r) off \/ count_exhausted task_data ->
  exists r',
    should_stop_recurrence task_data (mk_world st (fun _ => false) c clk r off be ts ps ds)
    = (Ret true, mk_world st (fun _ => false) c clk r' off be ts ps ds).
Proof.
  intros [(s & e & Hs & Hne & He & Hle)|(n & Hc & Hn & Hend)];
    unfold should_stop_recurrence, dict_get_none, dict_get_default in *.
  - rewrite Hs. cbn [truthy str_replace_Z].
    apply String.eqb_neq in Hne. rewrite Hne. cbn [negb].
    run_world. rewrite He. run_world.
    destruct (tzinfo e); apply Z.leb_le in Hle; rewrite Hle; eexists; reflexivity.
  - rewrite Hc. apply Z.leb_le in Hn. destruct Hend as [Hf|(s & e & Hs & He)].
    + rewrite Hf. run_world. cbn [le_zero]. rewrite Hn. eexists; reflexivity.
    + rewrite Hs. cbn [truthy str_replace_Z].
      destruct (negb (s =? "")).
      * run_world. rewrite He. run_world.
        destruct (tzinfo e);
          match goal with |- context [if ?b then _ else _] => destruct b end;
          cbn [le_zero]; rewrite ?Hn; eexists; reflexivity.
      * run_world. cbn [le_zero]. rewrite Hn. eexists; reflexivity.
Qed.



(** A malformed end instant hides an exhausted counter: the check raises
    and is read as "go on". *)
Example malformed_end_date_goes_on :
  let task := task_with_pattern "daily"
                [("recurrence_end_date", VStr "tomorrow"); ("recurrence_count", VInt 0)] in
  fst (should_stop_recurrence task demo_world) = Ret false /\
  length (tasks (snd (process_completed_task task demo_world))) = 1%nat.
Proof. vm_compute. split; reflexivity. Qed.

(** *** Identities and redelivery *)

Lemma append_inj_l (p a b : string) : p ++ a = p ++ b -> a = b.
Proof. induction p as [|c p IH]; simpl; [tauto|]. intros [= H]. auto. Qed.

(** The identity follows the clock of the engine, not the completion: two
    readings that print differently give two identities, whatever the
    event. *)
Lemma processing_id_follows_clock user_id task_id t1 t2 :
  strftime_micros t1 <> strftime_micros t2 ->
  processing_id user_id task_id t1 <> processing_id user_id task_id t2.
Proof.
  intros Hne Heq. apply Hne. unfold processing_id in Heq.
  repeat apply append_inj_l in Heq. exact Heq.
Qed.

(** C1.  The same completion event delivered twice, the second delivery
    being handled one clock reading later: the two deliveries derive two
    processing identities, the completed marker of the first is not found by
    the second, and two tasks and two audit events come out. *)
Theorem redelivery_recurs_again :
  let first := process_completed_task (demo_task 3) demo_world in
  let second := process_completed_task (demo_task 3) (snd first) in
  completion_identity (demo_task 3) demo_world
    = "recurrence_u1_12345_20240131102030000000" /\
  completion_identity (demo_task 3) (snd first)
    = "recurrence_u1_12345_20240131102030000005" /\
  fst first = Ret true /\ fst second = Ret true /\
  length (tasks (snd first)) = 1%nat /\ length (published (snd first)) = 1%nat /\
  length (tasks (snd second)) = 2%nat /\ length (published (snd second)) = 2%nat.
Proof. vm_compute. repeat split. Qed.

End Markers.

(** ** Dictionaries *)

Lemma dict_get_set k k' v d :
  dict_get k (dict_set k' v d) = if String.eqb k k' then Some v else dict_get k d.
Proof.
  induction d as [|[k0 v0] d IH]; simpl.
  - destruct (String.eqb_spec k k'); reflexivity.
  - destruct (String.eqb_spec k' k0) as [->|Hne]; simpl.
    + destruct (String.eqb_spec k k0); reflexivity.
    + rewrite IH. destruct (String.eqb_spec k k0) as [->|]; [|reflexivity].
      destruct (String.eqb_spec k0 k'); [congruence|reflexivity].
Qed.

Lemma dict_get_set_other k k' v d : k <> k' -> dict_get k (dict_set k' v d) = dict_get k d.
Proof. intros H. rewrite dict_get_set. apply String.eqb_neq in H. now rewrite H. Qed.

(** ** What a computation leaves alone *)

Section Steady.
Context (K : string -> Prop).

Lemma steady_refl w : steady K w w.
Proof. unfold steady. tauto. Qed.

Lemma steady_trans w1 w2 w3 : steady K w1 w2 -> steady K w2 w3 -> steady K w1 w3.
Proof.
  unfold steady. intros (-> & -> & -> & -> & H1) (-> & -> & -> & -> & H2).
  repeat split. intros k Hk. rewrite H2, H1; auto.
Qed.

Lemma Steady_ret {A} (a : A) : Steady K (ret a).
Proof. intros w. apply steady_refl. Qed.

Lemma Steady_raise {A} e : Steady K (@raise A e).
Proof. intros w. apply steady_refl. Qed.

Lemma Steady_lift {A} (r : res A) : Steady K (lift r).
Proof. intros w. apply steady_refl. Qed.

Lemma Steady_bind {A B} (c : M A) (k : A -> M B) :
  Steady K c -> (forall a, Steady K (k a)) -> Steady K (bind c k).
Proof.
  intros Hc Hk w. unfold bind. specialize (Hc w).
  destruct (c w) as [[a|e] w']; simpl in *; [|assumption].
  eapply steady_trans; [eassumption|apply Hk].
Qed.

Lemma Steady_try_except {A} (c : M A) (h : exn -> M A) :
  Steady K c -> (forall e, Steady K (h e)) -> Steady K (try_except c h).
Proof.
  intros Hc Hh w. unfold try_except. specialize (Hc w).
  destruct (c w) as [[a|e] w']; simpl in *; [assumption|].
  eapply steady_trans; [eassumption|apply Hh].
Qed.

Lemma Steady_client_call : Steady K client_call.
Proof.
  intros w. unfold client_call, steady.
  destruct (faults w (calls w)); simpl; tauto.
Qed.

Lemma Steady_now : Steady K datetime_now.
Proof. intros w. unfold steady. simpl. tauto. Qed.

Lemma Steady_get_state key : Steady K (get_state key).
Proof.
  unfold get_state. apply Steady_bind; [apply Steady_client_call|].
  intros _ w. apply steady_refl.
Qed.

Lemma Steady_save_state key v : ~ K key -> Steady K (save_state key v).
Proof.
  intros Hk. unfold save_state. apply Steady_bind; [apply Steady_client_call|].
  intros _ w. unfold steady. simpl. repeat split.
  intros k Hin. apply lookup_insert_ne. congruence.
Qed.

Lemma Steady_delete_state key : ~ K key -> Steady K (delete_state key).
Proof.
  intros Hk. unfold delete_state. apply Steady_bind; [apply Steady_client_call|].
  intros _ w. unfold steady. simpl. repeat split.
  intros k Hin. apply lookup_delete_ne. congruence.
Qed.

End Steady.

Create HintDb steady.

#[export] Hint Resolve Steady_ret Steady_raise Steady_lift Steady_client_call
  Steady_now Steady_get_state Steady_save_state Steady_delete_state : steady.

(** Take a computation apart along its binds, handlers and tests. *)
Ltac steady :=
  repeat first
    [ solve [auto with steady]
    | apply Steady_try_except; [|intros ?]
    | apply Steady_bind; [|intros ?]
    | match goal with
      | |- Steady _ (match ?x with _ => _ end) => destruct x
      | |- Steady _ (if ?x then _ else _) => destruct x
      end ].

(** ** Reminders *)

Section Reminders.
Import ReminderState NotificationService.

Lemma try_except_returns {A} (c : M A) (a0 : A) w :
  exists a, fst (try_except c (fun _ => ret a0) w) = Ret a.
Proof. unfold try_except. destruct (c w) as [[a|e] w']; eexists; reflexivity. Qed.

Lemma Steady_index_append K key rid : ~ K key -> Steady K (index_append key rid).
Proof. intros Hk. unfold index_append. steady. Qed.

Lemma Steady_add_to_index K user_id task_id rid :
  ~ K (user_index_key user_id) -> ~ K (task_index_key user_id task_id) ->
  Steady K (_add_to_user_task_index user_id task_id rid).
Proof.
  intros H1 H2. unfold _add_to_user_task_index.
  apply Steady_try_except; [|intros; apply Steady_ret].
  apply Steady_bind; [|intros]; now apply Steady_index_append.
Qed.

Lemma Steady_get_reminder K rid : Steady K (get_reminder rid).
Proof. unfold get_reminder. steady. Qed.

Lemma Steady_update_reminder K rid updates :
  ~ K rid -> Steady K (update_reminder rid updates).
Proof.
  intros Hk. unfold update_reminder.
  apply Steady_try_except; [|intros; apply Steady_ret].
  apply Steady_bind; [apply Steady_get_reminder|intros current].
  destruct (truthy_dict current); steady.
Qed.

Lemma Steady_is_reminder_notified K rid : Steady K (is_reminder_notified rid).
Proof.
  unfold is_reminder_notified. apply Steady_bind; [apply Steady_get_reminder|].
  intros; apply Steady_ret.
Qed.

Lemma add_to_index_returns user_id task_id rid w :
  fst (_add_to_user_task_index user_id task_id rid w) = Ret tt.
Proof.
  destruct (try_except_returns
              (bind (index_append (user_index_key user_id) rid)
                    (fun _ => index_append (task_index_key user_id task_id) rid)) tt w)
    as ([] & H).
  exact H.
Qed.

Lemma update_reminder_returns rid updates w :
  exists b, fst (update_reminder rid updates w) = Ret b.
Proof. apply try_except_returns. Qed.

(** Identities and index keys never meet. *)
Lemma reminder_id_not_user_index u t tm u' : reminder_id_of u t tm <> user_index_key u'.
Proof. unfold reminder_id_of, user_index_key. simpl. discriminate. Qed.

Lemma reminder_id_not_task_index u t tm u' t' :
  reminder_id_of u t tm <> task_index_key u' t'.
Proof. unfold reminder_id_of, task_index_key. simpl. discriminate. Qed.

(** When its first call goes through, [store_reminder] leaves the reminder
    under its identity, whatever happens to the indexes. *)
Lemma store_reminder_stores rid data u t w :
  dict_get "user_id" data = Some u -> dict_get "task_id" data = Some t ->
  rid <> user_index_key u -> rid <> task_index_key u t ->
  faults w (calls w) = false ->
  let stored := dict_set "updated_at" (VStr (isoformat (clock w (reads w)))) data in
  let r := store_reminder rid data w in
  fst r = Ret true /\
  store (snd r) !! rid = Some (PDict stored) /\
  steady (fun _ => False) w (snd r).
Proof.
  intros Hu Ht Hk1 Hk2 Hok stored r. subst r.
  unfold store_reminder, save_state, client_call, datetime_now. unfold_monad.
  cbn [calls faults set_reads]. rewrite Hok.
  unfold RecurrenceEngine.subscript.
  rewrite !dict_get_set_other by discriminate. rewrite Hu, Ht.
  match goal with
  | |- context [_add_to_user_task_index u t rid ?w0] =>
      pose proof (add_to_index_returns u t rid w0) as Hret;
      pose proof (Steady_add_to_index (fun k => k = rid) u t rid
                    ltac:(congruence) ltac:(congruence) w0) as (Hd & Ht' & Hp & Hf & Hs);
      destruct (_add_to_user_task_index u t rid w0) as [res w1]
  end.
  simpl in Hret. subst res. cbn [fst snd] in *.
  split; [reflexivity|]. split.
  - rewrite Hs by reflexivity. apply lookup_insert_eq.
  - unfold steady. rewrite Hd, Ht', Hp, Hf. simpl. tauto.
Qed.

Lemma is_reminder_notified_fresh rid d w :
  store w !! rid = Some (PDict d) ->
  dict_get_default "notified" (VBool false) d = VBool false ->
  fst (is_reminder_notified rid w) = Ret (VBool false).
Proof.
  intros Hs Hn. unfold is_reminder_notified, get_reminder, get_state, client_call.
  unfold_monad. destruct (faults w (calls w)); [reflexivity|].
  cbn [store set_calls fst]. rewrite Hs.
  destruct d; [reflexivity|]. cbn [truthy_dict fst]. now rewrite Hn.
Qed.



(** A redelivery within the same second meets the reminder of the first
    delivery, already notified, overwrites it and notifies again. *)
Example redelivery_notifies_again :
  let first := reminder_handler demo_reminder_event demo_world in
  let second := reminder_handler demo_reminder_event (snd first) in
  fst (is_reminder_notified "reminder_u1_5_20240131102030" (snd first)) = Ret (VBool true) /\
  fst second = Ret Processed /\
  length (delivered (snd first)) = 1%nat /\ length (delivered (snd second)) = 2%nat.
Proof. vm_compute. repeat split. Qed.

(** Only when that write fails can the check meet an older reminder. *)
Example suppression_after_a_failed_write :
  let first := reminder_handler demo_reminder_event demo_world in
  let w := world_with (store (snd first)) (fun n => Nat.eqb n 0) in
  fst (reminder_handler demo_reminder_event w) = Ret AlreadyProcessed.
Proof. vm_compute. reflexivity. Qed.

(** *** A failed read *)

(** C9, as the code has it.  [get_reminder] answers [None] when the read
    fails exactly as it does when nothing is stored, and then
    [is_reminder_notified] and [is_reminder_cancelled] answer [False]. *)
Theorem failed_read_is_none rid w :
  faults w (calls w) = true \/ store w !! rid = None ->
  fst (get_reminder rid w) = Ret None /\
  fst (is_reminder_notified rid w) = Ret (VBool false) /\
  fst (is_reminder_cancelled rid w) = Ret (VBool false).
Proof.
  intros H.
  unfold is_reminder_notified, is_reminder_cancelled, get_reminder, get_state, client_call.
  unfold_monad.
  destruct (faults w (calls w)) eqn:Hf; [repeat split|].
  destruct H as [H|H]; [discriminate|].
  cbn [store set_calls fst]. rewrite H. repeat split.
Qed.

Lemma failed_read_is_none_witness :
  fst (get_reminder "r1" (world_with {["r1" := PDict (reminder_with true true)]}
                            (fun _ => true))) = Ret None /\
  fst (is_reminder_notified "r1" (world_with {["r1" := PDict (reminder_with true true)]}
                                    (fun _ => true))) = Ret (VBool false) /\
  fst (is_reminder_cancelled "r1" (world_with {["r1" := PDict (reminder_with true true)]}
                                     (fun _ => true))) = Ret (VBool false).
Proof.
  apply (failed_read_is_none "r1"
           (world_with {["r1" := PDict (reminder_with true true)]} (fun _ => true))).
  left. reflexivity.
Defined.

(** A reminder that is stored, notified and cancelled, read while the store
    is down, and a reminder that was never stored: the manager gives the
    same three answers, though a working read tells them apart. *)
Lemma failed_read_reads_as_absent :
  let stored := {["r1" := PDict (reminder_with true true)]} in
  let down := world_with stored (fun _ => true) in
  let up := world_with stored (fun _ => false) in
  let never := world_with ∅ (fun _ => false) in
  fst (get_reminder "r1" down) = fst (get_reminder "r1" never) /\
  fst (get_reminder "r1" up) = Ret (Some (reminder_with true true)) /\
  fst (is_reminder_notified "r1" down) = Ret (VBool false) /\
  fst (is_reminder_notified "r1" up) = Ret (VBool true) /\
  fst (is_reminder_cancelled "r1" down) = Ret (VBool false) /\
  fst (is_reminder_cancelled "r1" up) = Ret (VBool true).
Proof. vm_compute. repeat split. Qed.

End Reminders.

(** ** The notify and cancel transitions *)

Section Transitions.
Import ReminderState NotificationService.

(** [update_reminder] with one field, on a reliable store. *)
Lemma update_reminder_sets rid d key v w :
  reliable w -> store w !! rid = Some (PDict d) -> d <> [] ->
  let r := update_reminder rid [(key, v)] w in
  fst r = Ret true /\
  store (snd r) !! rid
    = Some (PDict (dict_set "updated_at" (VStr (isoformat (clock w (reads w))))
                     (dict_set key v d))).
Proof.
  intros Hrel Hs Hne.
  destruct w as [st f c clk rd off be ts ps ds].
  unfold reliable in Hrel. cbn in Hrel, Hs. subst f.
  unfold update_reminder, get_reminder. run_world. rewrite Hs.
  run_world. destruct d as [|kv d']; [congruence|]. cbn [truthy_dict]. run_world.
  split; [reflexivity|]. apply lookup_insert_eq.
Qed.




(** The handler does not look at the cancelled flag either: an event that
    arrives in the second of a reminder stored as cancelled is notified. *)
Example cancelled_reminder_is_notified :
  let w := world_with {["reminder_u1_5_20240131102030" := PDict (reminder_with false true)]}
                      (fun _ => false) in
  let r := reminder_handler demo_reminder_event w in
  fst (is_reminder_cancelled "reminder_u1_5_20240131102030" w) = Ret (VBool true) /\
  fst r = Ret Processed /\ length (delivered (snd r)) = 1%nat.
Proof. vm_compute. repeat split. Qed.

(** *** Cancelling the reminders of a task *)

(** The function that the lifecycle handlers call changes nothing. *)
Lemma lifecycle_cancel_is_a_stub user_id task_id w :
  TaskLifecycleHandler.cancel_task_reminders user_id task_id w = (Ret true, w).
Proof. reflexivity. Qed.

Lemma task_delete_handler_changes_nothing event_data w :
  TaskLifecycleHandler.task_delete_handler event_data w = (Ret tt, w).
Proof.
  unfold TaskLifecycleHandler.task_delete_handler, TaskLifecycleHandler.cancel_task_reminders.
  unfold_monad. destruct (negb _); reflexivity.
Qed.

(** A reminder as [reminder_handler] stores it has no ['id'] field, so
    [cancel_task_reminders] takes its first key, ['user_id'], for the
    identity and cancels nothing. *)
Example cancel_target_of_a_stored_reminder :
  cancel_target (reminder_with false false) = VStr "user_id".
Proof. reflexivity. Qed.

(** C3.  A reminder stored by [reminder_handler] for user [u1] and task [5];
    then [cancel_task_reminders] of the state manager, and the deletion
    handler, both run to their end: the store is what it was, and
    [get_task_reminders] still lists the reminder, with no cancelled flag
    set. *)
Theorem cancel_leaves_the_reminder_live :
  let w := snd (reminder_handler demo_reminder_event demo_world) in
  let c := cancel_task_reminders (VStr "u1") (VInt 5) w in
  let d := TaskLifecycleHandler.task_delete_handler
             [("user_id", VStr "u1"); ("task_id", VInt 5)] (snd c) in
  fst c = Ret true /\
  store (snd c) = store w /\
  fst d = Ret tt /\
  store (snd d) = store w /\
  fst (is_reminder_cancelled "reminder_u1_5_20240131102030" (snd d)) = Ret (VBool false) /\
  exists reminder,
    fst (get_task_reminders (VStr "u1") (VInt 5) (snd d)) = Ret [reminder] /\
    dict_get "task_id" reminder = Some (VInt 5) /\
    dict_get "id" reminder = None /\
    dict_get "cancelled" reminder = None.
Proof.
  repeat (split; [vm_compute; reflexivity|]).
  eexists. split; [vm_compute; reflexivity|]. vm_compute. repeat split.
Qed.

End Transitions.

(** ** The periodic reminder check *)

Section Scheduler.
Import ReminderScheduler.

(** [reminder_check] never leaves the flag up: [finally] lowers it as soon
    as the scan is scheduled. *)
Lemma reminder_check_from_lowered p :
  checking_reminders p = false ->
  checking_reminders (snd (reminder_check p)) = false /\
  fst (reminder_check p) <> Skipped /\
  (loop_running p = true ->
   fst (reminder_check p) = Started /\
   in_flight (snd (reminder_check p)) = S (in_flight p)).
Proof.
  intros Hc. unfold reminder_check, create_task, set_checking. rewrite Hc. cbn.
  destruct (loop_running p); cbn; repeat split; discriminate.
Qed.

(** So the flag is down whenever the binding fires, however triggers and
    scans are interleaved. *)
Lemma flag_is_always_down answer es p w :
  checking_reminders p = false ->
  checking_reminders (fst (run answer es (p, w))) = false.
Proof.
  revert p w. induction es as [|e es IH]; intros p w Hc; [exact Hc|].
  unfold run in *. simpl. destruct e.
  - apply IH. now apply reminder_check_from_lowered.
  - destruct (in_flight p); apply IH; assumption.
Qed.

(** C8.  The binding fires twice before the loop has run the first scan:
    the second call finds the flag down, does not skip, and schedules a
    second scan beside the first; when the loop runs them, the one due task
    gets two reminder events. *)
Theorem second_check_does_not_skip :
  let first := reminder_check idle_process in
  let second := reminder_check (snd first) in
  let after := run one_due_task [Trigger; Trigger; ScanRuns; ScanRuns]
                   (idle_process, demo_world) in
  fst first = Started /\ in_flight (snd first) = 1%nat /\
  checking_reminders (snd first) = false /\
  fst second = Started /\ in_flight (snd second) = 2%nat /\
  map (fun e => dict_get "task_id" (snd e)) (published (snd after))
    = [Some (VInt 5); Some (VInt 5)].
Proof. vm_compute. repeat split. Qed.

End Scheduler.

(** ** Fan-out to live connections *)

Section FanOut.
Import WebSocketService.

Lemma in_remaining (cs : gset nat) c0 c : c ∈ cs ∖ {[c0]} <-> c ∈ cs /\ c <> c0.
Proof. rewrite elem_of_difference, elem_of_singleton. tauto. Qed.

(** *** The registry invariant *)

Lemma registered_empty u c : ~ registered empty_manager u c.
Proof. intros (cs & H & _). simpl in H. now rewrite lookup_empty in H. Qed.

Lemma consistent_empty : consistent empty_manager.
Proof. intros u c H. now apply registered_empty in H. Qed.

Lemma registered_connect c0 u0 m u c :
  registered (connect c0 u0 m) u c <-> registered m u c \/ (u = u0 /\ c = c0).
Proof.
  unfold connect, registered. cbn [active_connections].
  set (active := match active_connections m !! u0 with
                 | Some _ => active_connections m
                 | None => <[u0:=∅]> (active_connections m)
                 end).
  assert (Hother : forall u', u' <> u0 -> active !! u' = active_connections m !! u').
  { intros u' Hne. subst active. destruct (active_connections m !! u0); [reflexivity|].
    now apply lookup_insert_ne. }
  assert (Hown : default ∅ (active !! u0) = default ∅ (active_connections m !! u0)).
  { subst active. destruct (active_connections m !! u0) as [cs|] eqn:H.
    - now rewrite H.
    - now rewrite lookup_insert_eq. }
  destruct (decide (u = u0)) as [->|Hne].
  - rewrite lookup_insert_eq, Hown. split.
    + intros (cs & [= <-] & Hin). apply elem_of_union in Hin as [Hin|Hin].
      * left. destruct (active_connections m !! u0) as [cs|] eqn:H; simpl in Hin.
        -- exists cs. tauto.
        -- now apply not_elem_of_empty in Hin.
      * right. apply elem_of_singleton in Hin. tauto.
    + intros [(cs & Hcs & Hin)|(_ & ->)]; eexists; (split; [reflexivity|]).
      * apply elem_of_union. left. now rewrite Hcs.
      * apply elem_of_union. right. now apply elem_of_singleton.
  - rewrite lookup_insert_ne by congruence. rewrite (Hother u Hne). tauto.
Qed.

(** Connecting a connection that is registered nowhere keeps the registry
    consistent. *)
Lemma connect_consistent c0 u0 m :
  consistent m -> (forall u, ~ registered m u c0) -> consistent (connect c0 u0 m).
Proof.
  intros Hcons Hfresh u c Hr. apply registered_connect in Hr.
  unfold connect. cbn [user_connection_map].
  destruct Hr as [Hr|(-> & ->)].
  - rewrite lookup_insert_ne; [now apply Hcons|].
    intros <-. now apply Hfresh in Hr.
  - apply lookup_insert_eq.
Qed.

Lemma disconnect_map c0 m c :
  user_connection_map (disconnect c0 m) !! c
  = if decide (c = c0) then None else user_connection_map m !! c.
Proof.
  unfold disconnect. destruct (user_connection_map m !! c0) as [u0|] eqn:H0; simpl.
  - destruct (decide (c = c0)) as [->|Hne].
    + apply lookup_delete_eq.
    + now apply lookup_delete_ne.
  - destruct (decide (c = c0)) as [->|Hne]; [assumption|reflexivity].
Qed.

(** [disconnect] takes the connection out of its user's set, and nothing
    else. *)
Lemma disconnect_registered c0 m u c :
  consistent m ->
  registered (disconnect c0 m) u c <-> registered m u c /\ c <> c0.
Proof.
  intros Hcons. unfold disconnect.
  destruct (user_connection_map m !! c0) as [u0|] eqn:H0.
  - unfold registered at 1. cbn [active_connections].
    destruct (decide (u = u0)) as [->|Hu].
    + destruct (active_connections m !! u0) as [cs|] eqn:Hcs.
      * destruct (decide (size (cs ∖ {[c0]}) = 0)) as [Hz|Hz].
        -- rewrite lookup_delete_eq. apply size_empty_iff in Hz.
           split; [intros (cs' & Heq & _); discriminate|].
           intros ((cs' & Hcs' & Hin) & Hne). exfalso.
           rewrite Hcs in Hcs'. injection Hcs' as <-.
           apply (not_elem_of_empty (C:=gset nat) c). rewrite <- Hz.
           now apply in_remaining.
        -- rewrite lookup_insert_eq. split.
           ++ intros (cs' & Heq & Hin). injection Heq as <-.
              apply in_remaining in Hin as [Hin Hne].
              split; [|assumption]. exists cs. tauto.
           ++ intros ((cs' & Hcs' & Hin) & Hne). rewrite Hcs in Hcs'.
              injection Hcs' as <-. eexists; split; [reflexivity|].
              now apply in_remaining.
      * unfold registered. rewrite Hcs.
        split; [intros (cs' & Heq & _)|intros ((cs' & Heq & _) & _)]; discriminate.
    + assert (Hsame : match active_connections m !! u0 with
                      | Some connections =>
                          if decide (size (connections ∖ {[c0]}) = 0)
                          then delete u0 (active_connections m)
                          else <[u0:=connections ∖ {[c0]}]> (active_connections m)
                      | None => active_connections m
                      end !! u = active_connections m !! u).
      { destruct (active_connections m !! u0); [|reflexivity].
        destruct (decide _); [now apply lookup_delete_ne|now apply lookup_insert_ne]. }
      rewrite Hsame. fold (registered m u c). split; [|tauto].
      intros Hr. split; [assumption|]. intros ->.
      apply Hcons in Hr. congruence.
  - split; [|tauto]. intros Hr. split; [assumption|]. intros ->.
    apply Hcons in Hr. congruence.
Qed.

Lemma disconnect_consistent c0 m : consistent m -> consistent (disconnect c0 m).
Proof.
  intros Hcons u c Hr. apply (disconnect_registered c0 m u c Hcons) in Hr as [Hr Hne].
  rewrite disconnect_map. destruct (decide (c = c0)); [contradiction|]. now apply Hcons.
Qed.

(** The clean-up loop at the end of a broadcast. *)
Lemma disconnect_all l m :
  consistent m ->
  let m' := fold_left (fun m c => disconnect c m) l m in
  consistent m' /\
  (forall u c, registered m' u c <-> registered m u c /\ c ∉ l) /\
  (forall c, user_connection_map m' !! c
             = if decide (c ∈ l) then None else user_connection_map m !! c).
Proof.
  revert m. induction l as [|c0 l IH]; intros m Hcons; simpl.
  - split; [assumption|]. split.
    + intros u c. rewrite elem_of_nil. tauto.
    + intros c. destruct (decide (c ∈ [])) as [H|H]; [|reflexivity].
      now apply elem_of_nil in H.
  - destruct (IH (disconnect c0 m) (disconnect_consistent c0 m Hcons)) as (H1 & H2 & H3).
    split; [assumption|]. split.
    + intros u c. rewrite H2, (disconnect_registered c0 m u c Hcons), elem_of_cons. tauto.
    + intros c. rewrite H3, disconnect_map.
      destruct (decide (c ∈ l)) as [Hl|Hl], (decide (c = c0)) as [He|He],
               (decide (c ∈ c0 :: l)) as [Hc|Hc];
        try reflexivity; exfalso; rewrite elem_of_cons in Hc; tauto.
Qed.

(** *** The sending loop *)

Lemma send_each_cons wire c0 l :
  send_each wire (c0 :: l) =
  match wire c0 with
  | Ret _ => (c0 :: fst (send_each wire l), snd (send_each wire l))
  | Raise _ => (fst (send_each wire l), c0 :: snd (send_each wire l))
  end.
Proof. simpl. destruct (send_each wire l). destruct (wire c0) as [|[]]; reflexivity. Qed.

(** Every connection of the snapshot is tried; a failure on one does not
    keep the loop from the others. *)
Lemma send_each_spec wire l :
  (forall c, c ∈ fst (send_each wire l) <-> c ∈ l /\ wire c = Ret tt) /\
  (forall c, c ∈ snd (send_each wire l) <-> c ∈ l /\ wire c <> Ret tt) /\
  (NoDup l -> NoDup (fst (send_each wire l))).
Proof.
  induction l as [|c0 l (H1 & H2 & H3)].
  - simpl. split; [|split].
    + intros c. rewrite elem_of_nil. tauto.
    + intros c. rewrite elem_of_nil. tauto.
    + intros _. constructor.
  - rewrite send_each_cons. destruct (wire c0) as [[]|e] eqn:Hw; cbn [fst snd].
    + split; [|split].
      * intros c. rewrite !elem_of_cons, H1. intuition (subst; auto; congruence).
      * intros c. rewrite !elem_of_cons, H2. intuition (subst; auto; congruence).
      * intros Hnd. apply NoDup_cons in Hnd as [Hn Hnd].
        apply NoDup_cons. split; [|now apply H3]. rewrite H1. tauto.
    + split; [|split].
      * intros c. rewrite !elem_of_cons, H1. intuition (subst; congruence).
      * intros c. rewrite !elem_of_cons, H2. intuition (subst; congruence).
      * intros Hnd. apply NoDup_cons in Hnd as [Hn Hnd]. now apply H3.
Qed.

(** C10.  In a consistent registry, a broadcast to a user reaches every
    connection of that user on which sending succeeds, once each and
    whatever happens on the others; such a connection stays registered.  A
    connection on which sending raises gets nothing and is, when the
    broadcast returns, in neither the user's connection set nor the backward
    map.  The loop runs over a snapshot of the set and the registry is only
    changed afterwards; it is consistent again at the end. *)
Theorem broadcast_isolates_failures wire user_id message m c :
  consistent m ->
  registered m user_id c ->
  let r := broadcast_to_user wire user_id message m in
  consistent (fst r) /\
  (wire c = Ret tt ->
   (c, message) ∈ snd r /\ registered (fst r) user_id c /\
   user_connection_map (fst r) !! c = Some user_id) /\
  (wire c <> Ret tt ->
   ~ ((c, message) ∈ snd r) /\ ~ registered (fst r) user_id c /\
   user_connection_map (fst r) !! c = None) /\
  NoDup (snd r).
Proof.
  intros Hcons Hreg r. subst r. unfold broadcast_to_user.
  pose proof Hreg as (cs & Hcs & Hin). rewrite Hcs.
  pose proof (send_each_spec wire (elements cs)) as (H1 & H2 & H3).
  destruct (send_each wire (elements cs)) as [received to_remove]. cbn [fst snd] in *.
  destruct (disconnect_all to_remove m Hcons) as (Hc' & Hr' & Hm').
  assert (Hel : c ∈ elements cs) by now apply elem_of_elements.
  split; [assumption|]. split; [|split].
  - intros Hw. split; [|split].
    + apply list_elem_of_fmap. exists c. split; [reflexivity|]. apply H1. tauto.
    + apply Hr'. split; [assumption|]. rewrite H2. tauto.
    + rewrite Hm'. destruct (decide (c ∈ to_remove)) as [Hd|Hd].
      * apply H2 in Hd. tauto.
      * now apply Hcons.
  - intros Hw. split; [|split].
    + intros Hx. apply list_elem_of_fmap in Hx as (c' & Heq & Hx).
      injection Heq as <-. apply H1 in Hx. tauto.
    + rewrite Hr'. intros [_ Hn]. apply Hn. apply H2. tauto.
    + rewrite Hm'. destruct (decide (c ∈ to_remove)) as [Hd|Hd]; [reflexivity|].
      exfalso. apply Hd. apply H2. tauto.
  - apply NoDup_fmap_2; [intros a b [= ->]; reflexivity|].
    apply H3. apply NoDup_elements.
Qed.

Lemma demo_manager_consistent : consistent demo_manager.
Proof.
  unfold demo_manager.
  apply connect_consistent; [apply connect_consistent|].
  - apply consistent_empty.
  - intros u. apply registered_empty.
  - intros u Hr. apply registered_connect in Hr as [Hr|(_ & [=])].
    now apply registered_empty in Hr.
Qed.

Lemma broadcast_isolates_failures_witness :
  let r := broadcast_to_user demo_wire "u1" [("type", VStr "task_update")] demo_manager in
  consistent (fst r) /\
  (demo_wire 2 = Ret tt ->
   (2, [("type", VStr "task_update")]) ∈ snd r /\ registered (fst r) "u1" 2 /\
   user_connection_map (fst r) !! 2 = Some "u1") /\
  (demo_wire 2 <> Ret tt ->
   ~ ((2, [("type", VStr "task_update")]) ∈ snd r) /\ ~ registered (fst r) "u1" 2 /\
   user_connection_map (fst r) !! 2 = None) /\
  NoDup (snd r).
Proof.
  apply (broadcast_isolates_failures demo_wire "u1" [("type", VStr "task_update")]
           demo_manager 2 demo_manager_consistent).
  apply registered_connect. right. split; reflexivity.
Defined.

(** The same broadcast, run: connection 2 gets the message, connection 1 is
    gone from both maps. *)
Example broadcast_run :
  let r := broadcast_to_user demo_wire "u1" [("type", VStr "task_update")] demo_manager in
  snd r = [(2, [("type", VStr "task_update")])] /\
  elements <$> (active_connections (fst r) !! "u1") = Some [2] /\
  map_to_list (user_connection_map (fst r)) = [(2, "u1")].
Proof. vm_compute. repeat split. Qed.

(** A connection registered under two users breaks the invariant, and then
    a failed delivery leaves it behind in the set that was broadcast to. *)
Example twice_connected_is_left_behind :
  let m := connect 1 "u2" (connect 1 "u1" empty_manager) in
  let r := broadcast_to_user demo_wire "u1" [] m in
  elements <$> (active_connections (fst r) !! "u1") = Some [1].
Proof. vm_compute. reflexivity. Qed.

End FanOut.
(** * Further properties of the recurrence engine *)

Section MoreRecurrence.
Import PyDatetime RecurrenceEngine.
Local Open Scope Z_scope.

(** X1. [add_months] ([recurrence_engine/main.py], lines 243-253), for any
    number of months, negative ones included: when the year it computes,
    [dt.year + (dt.month - 1 + months) // 12], lies in 1..9999 it returns a
    valid datetime with the same clock time, [months] months away, on the
    day of [dt] clamped to the last day of the target month; otherwise
    [dt.replace] raises ValueError. *)
Theorem add_months_in_range dt months :
  valid dt = true ->
  let y := year dt + (month dt - 1 + months) / 12 in
  (1 <= y <= 9999 ->
   exists r, add_months dt months = Ret r /\
             valid r = true /\ same_clock r dt /\
             month_index r = month_index dt + months /\
             day r = Z.min (day dt) (spec_last_day (year r) (month r))) /\
  (~ (1 <= y <= 9999) -> add_months dt months = Raise ValueError).
Proof.
  intros Hv y. destruct (valid_on_calendar dt Hv) as ((Hy1 & Hm1 & Hd1) & Hy2).
  unfold add_months.
  set (m0 := month dt - 1 + months) in *.
  fold y.
  set (m' := m0 mod 12 + 1).
  change (nth (Z.to_nat (m' - 1)) _ 0) with (days_in_month y m').
  assert (Hm' : 1 <= m' <= 12) by (subst m'; pose proof (Z.mod_pos_bound m0 12); lia).
  pose proof (days_in_month_bounds y m' Hm') as Hb.
  unfold replace_ymd. split.
  - intros Hy.
    assert (Hok : valid_date y m' (Z.min (day dt) (days_in_month y m')) = true)
      by (apply valid_date_iff; lia).
    rewrite Hok. eexists. split; [reflexivity|].
    split; [|split; [|split]].
    + eapply valid_same_clock; [exact Hv| | |];
        unfold same_clock, on_calendar; simpl; try tauto; lia.
    + unfold same_clock; simpl; tauto.
    + unfold month_index; simpl. subst y m'. pose proof (Z.div_mod m0 12). lia.
    + simpl. now rewrite days_in_month_spec.
  - intros Hy.
    destruct (valid_date y m' (Z.min (day dt) (days_in_month y m'))) eqn:Hok; [|reflexivity].
    apply valid_date_iff in Hok. tauto.
Qed.

Lemma add_months_in_range_witness :
  exists r, add_months (mk_datetime 2024 3 31 8 0 0 0 None) (-13) = Ret r /\
            valid r = true /\ same_clock r (mk_datetime 2024 3 31 8 0 0 0 None) /\
            month_index r = month_index (mk_datetime 2024 3 31 8 0 0 0 None) + -13 /\
            day r = Z.min 31 (spec_last_day (year r) (month r)).
Proof.
  apply (proj1 (add_months_in_range (mk_datetime 2024 3 31 8 0 0 0 None) (-13) eq_refl)).
  vm_compute. split; discriminate.
Defined.

(** Thirteen months before 31 March 2024 is 28 February 2023; one month
    after December 9999 there is no date. *)
Example add_months_backwards :
  add_months (mk_datetime 2024 3 31 8 0 0 0 None) (-13)
  = Ret (mk_datetime 2023 2 28 8 0 0 0 None) /\
  add_months (mk_datetime 9999 12 1 8 0 0 0 None) 1 = Raise ValueError.
Proof. vm_compute. split; reflexivity. Qed.

End MoreRecurrence.

Section Outcomes.
Import PyDatetime RecurrenceEngine.

Ltac closed_with_marker :=
  split; [reflexivity|];
  split; [eexists; rewrite lookup_delete_ne by apply started_not_processed;
          apply lookup_insert_eq|];
  split; [apply lookup_delete_eq|];
  split; reflexivity.

Ltac unfold_processing :=
  unfold process_completed_task, has_processed_recurrence,
    mark_recurrence_processing_started, mark_recurrence_processing_completed.

(** While the recurrence is open, [should_stop_recurrence] answers no, and
    touches nothing but the clock. *)
Lemma should_stop_false task_data st f c clk r off be ts ps ds :
  end_open task_data (clk r) off -> count_open task_data ->
  exists r',
    should_stop_recurrence task_data (mk_world st f c clk r off be ts ps ds)
    = (Ret false, mk_world st f c clk r' off be ts ps ds).
Proof.
  intros Hend Hcount.
  assert (Hc : exists v, dict_get_none "recurrence_count" task_data = v /\
                         (v = VNone \/ exists n, v = VInt n /\ (n <=? 0)%Z = false)).
  { destruct Hcount as [->|(n & Hn & Hpos)]; [eexists; split; [reflexivity|tauto]|].
    unfold dict_get_none, dict_get_default. rewrite Hn.
    eexists; split; [reflexivity|]. right. exists n. split; [reflexivity|].
    now apply Z.leb_gt. }
  destruct Hc as (v & Hv & Hopen).
  unfold should_stop_recurrence. cbv zeta. rewrite Hv.
  destruct Hend as [Hf|(s & e & Hs & Hne & He & Hlt)].
  - rewrite Hf. run_world.
    destruct Hopen as [->|(n & -> & Hn)]; cbn [le_zero]; rewrite ?Hn;
      eexists; reflexivity.
  - unfold dict_get_none, dict_get_default. rewrite Hs.
    cbn [truthy str_replace_Z]. apply String.eqb_neq in Hne. rewrite Hne. cbn [negb].
    run_world. rewrite He. run_world.
    destruct (tzinfo e); apply Z.leb_gt in Hlt; rewrite Hlt;
      (destruct Hopen as [->|(n & -> & Hn)]; cbn [le_zero]; rewrite ?Hn;
       eexists; reflexivity).
Qed.

(** X2. A completion whose identity already has a completed marker is
    answered True after that one read: no marker is written, no task is
    created, nothing is published; only the call counter and the clock
    advance. *)
Theorem processed_completion_is_skipped task_data w m :
  faults w (calls w) = false ->
  store w !! processed_key (completion_identity task_data w) = Some m ->
  process_completed_task task_data w
  = (Ret true, set_calls (S (calls w)) (set_reads (S (reads w)) w)).
Proof.
  intros Hok Hm. destruct w as [st f c clk r off be ts ps ds].
  unfold completion_identity in Hm. cbn in Hok, Hm.
  unfold_processing. run_world. rewrite Hok. run_world. rewrite Hm. reflexivity.
Qed.

Lemma processed_completion_is_skipped_witness :
  let w := world_with (store (snd (process_completed_task task_without_pattern demo_world)))
                      (fun _ => false) in
  process_completed_task task_without_pattern w
  = (Ret true, set_calls (S (calls w)) (set_reads (S (reads w)) w)).
Proof.
  intros w.
  eapply (processed_completion_is_skipped task_without_pattern w);
    [reflexivity|vm_compute; reflexivity].
Defined.


(** The steps every open recurrence goes through: identity, markers,
    pattern, termination test. *)
Ltac run_to_next_occurrence task_data Hfresh Hp Hpat Hend Hcount :=
  unfold_processing;
  run_world; rewrite Hfresh; run_world;
  unfold dict_get_none, dict_get_default; rewrite Hp;
  cbn [truthy str_lower];
  let Hne := fresh "Hne" in
  match type of Hp with
  | _ = Some (VStr ?p) =>
      assert (Hne : p <> "") by (intros ->; discriminate);
      apply String.eqb_neq in Hne; rewrite Hne; cbn [negb]
  end;
  run_world; rewrite Hpat; run_world;
  match goal with
  | |- context [should_stop_recurrence task_data
                  (mk_world ?s ?f ?c' ?clk ?r0 ?off ?be ?ts ?ps ?ds)] =>
      let r' := fresh "r'" in
      destruct (should_stop_false task_data s f c' clk r0 off be ts ps ds Hend Hcount)
        as (r' & ->)
  end;
  run_world.

(** X3. The path of [process_completed_task] that generates: with a
    reliable client, a fresh identity, a valid pattern, open end conditions,
    a parsable completion time with a next occurrence, and a backend that
    answers with the new task's id, the result is True, exactly the prepared
    body is sent to the backend, one event goes to the recurrence topic with
    the user, both task ids, the pattern's value and the next occurrence, the
    completed marker is written and the started marker is gone. *)
Theorem recurrence_is_generated task_data w p pat s dt next body answer new_id :
  reliable w ->
  store w !! processed_key (completion_identity task_data w) = None ->
  dict_get "recurrence_pattern" task_data = Some (VStr p) ->
  RecurrencePattern_of (lower p) = Ret pat ->
  end_open task_data (clock w (2 + reads w)) (local_offset w) ->
  count_open task_data ->
  dict_get "completed_at" task_data = Some (VStr s) ->
  fromisoformat (completion_text s) = Ret dt ->
  next_occurrence_of pat dt = Some next ->
  new_task_of task_data next = Ret body ->
  backend w body = Ret answer ->
  dict_get "id" answer = Some new_id ->
  let r := process_completed_task task_data w in
  let pid := completion_identity task_data w in
  fst r = Ret true /\
  tasks (snd r) = (tasks w ++ [body])%list /\
  (exists event,
     published (snd r) = (published w ++ [(TASK_RECURRENCE_TOPIC, event)])%list /\
     dict_get "user_id" event = Some (dict_get_none "user_id" task_data) /\
     dict_get "original_task_id" event = Some (dict_get_none "id" task_data) /\
     dict_get "new_task_id" event = Some new_id /\
     dict_get "recurrence_pattern" event = Some (VStr (pattern_value pat)) /\
     dict_get "next_occurrence" event = Some (VStr next) /\
     dict_get "event_type" event = Some (VStr "task_recurred")) /\
  (exists t, store (snd r) !! processed_key pid = Some (marker "completed" t)) /\
  store (snd r) !! started_key pid = None.
Proof.
  intros Hrel Hfresh Hp Hpat Hend Hcount Hs Hdt Hnext Hbody Hback Hid r pid.
  subst r pid.
  destruct w as [st f c clk r off be ts ps ds].
  unfold reliable in Hrel. unfold completion_identity in *.
  cbn in Hrel, Hfresh, Hend, Hback. subst f.
  cbn [clock reads local_offset tasks published].
  run_to_next_occurrence task_data Hfresh Hp Hpat Hend Hcount.
  rewrite (calculate_next_occurrence_run _ _ _ _ _ _ Hp Hs Hdt Hpat).
  unfold next_occurrence_of in Hnext.
  match type of Hnext with
  | match ?x with _ => _ end = _ => destruct x as [nx|e]; [|discriminate]
  end.
  injection Hnext as <-.
  unfold create_recurring_task. run_world. rewrite Hbody. run_world.
  rewrite Hback. run_world.
  destruct answer as [|kv answer']; [discriminate|]. cbn [truthy_dict].
  unfold subscript. rewrite Hid. unfold publish_recurrence_event. run_world.
  split; [reflexivity|]. split; [reflexivity|].
  split; [eexists; split; [reflexivity|]; repeat split|].
  split; [eexists; rewrite lookup_delete_ne by apply started_not_processed;
          apply lookup_insert_eq|].
  apply lookup_delete_eq.
Qed.

Lemma recurrence_is_generated_witness :
  let task := task_with_pattern "Monthly"
                [("recurrence_end_date", VStr "2025-01-01T00:00:00Z");
                 ("recurrence_count", VInt 3)] in
  let r := process_completed_task task demo_world in
  let pid := completion_identity task demo_world in
  fst r = Ret true /\
  (exists body, new_task_of task "2024-02-29T09:00:00+00:00" = Ret body /\
                tasks (snd r) = (tasks demo_world ++ [body])%list) /\
  (exists event,
     published (snd r) = (published demo_world ++ [(TASK_RECURRENCE_TOPIC, event)])%list /\
     dict_get "new_task_id" event = Some (VInt 77) /\
     dict_get "recurrence_pattern" event = Some (VStr "monthly") /\
     dict_get "next_occurrence" event = Some (VStr "2024-02-29T09:00:00+00:00")) /\
  (exists t, store (snd r) !! processed_key pid = Some (marker "completed" t)) /\
  store (snd r) !! started_key pid = None.
Proof.
  intros task r pid.
  edestruct (recurrence_is_generated task demo_world "Monthly" MONTHLY
               "2024-01-31T09:00:00Z")
    as (H1 & H2 & (event & H3 & _ & _ & H4 & H5 & H6 & _) & H7 & H8).
  - reflexivity.
  - vm_compute. reflexivity.
  - reflexivity.
  - reflexivity.
  - right. eexists _, _. split; [reflexivity|]. split; [discriminate|].
    split; [vm_compute; reflexivity|]. vm_compute. reflexivity.
  - right. exists 3%Z. split; [reflexivity|lia].
  - reflexivity.
  - vm_compute. reflexivity.
  - vm_compute. reflexivity.
  - vm_compute. reflexivity.
  - vm_compute. reflexivity.
  - vm_compute. reflexivity.
  - split; [exact H1|]. split; [eexists; split; [|exact H2]; vm_compute; reflexivity|].
    split; [exists event; split; [exact H3|]; split; [exact H4|]; split; [exact H5|exact H6]|].
    split; assumption.
Defined.



Lemma calculate_next_occurrence_unparsable task_data p s e w :
  dict_get "recurrence_pattern" task_data = Some (VStr p) ->
  dict_get "completed_at" task_data = Some (VStr s) ->
  fromisoformat (completion_text s) = Raise e ->
  calculate_next_occurrence task_data w = (Ret None, set_reads (S (reads w)) w).
Proof.
  intros Hp Hs He.
  unfold calculate_next_occurrence, try_except, bind, lift, datetime_now, ret, dict_get_default.
  rewrite Hp, Hs. cbn [str_lower str_endswith_Z as_str].
  fold (completion_text s). rewrite He. reflexivity.
Qed.



(** X6. A failed publication does not undo or block the recurrence: when
    only the fourth client call (the publication, after the marker read, the
    started marker and the task creation) fails, the task is still created,
    the result is still True, the completed marker is written and the
    started marker removed; no event is published. *)
Theorem failed_publication_does_not_block task_data w p pat s dt next body answer new_id :
  faults w (3 + calls w) = true ->
  (forall n, n <> 3 + calls w -> faults w n = false) ->
  store w !! processed_key (completion_identity task_data w) = None ->
  dict_get "recurrence_pattern" task_data = Some (VStr p) ->
  RecurrencePattern_of (lower p) = Ret pat ->
  end_open task_data (clock w (2 + reads w)) (local_offset w) ->
  count_open task_data ->
  dict_get "completed_at" task_data = Some (VStr s) ->
  fromisoformat (completion_text s) = Ret dt ->
  next_occurrence_of pat dt = Some next ->
  new_task_of task_data next = Ret body ->
  backend w body = Ret answer ->
  dict_get "id" answer = Some new_id ->
  let r := process_completed_task task_data w in
  let pid := completion_identity task_data w in
  fst r = Ret true /\
  tasks (snd r) = (tasks w ++ [body])%list /\
  published (snd r) = published w /\
  (exists t, store (snd r) !! processed_key pid = Some (marker "completed" t)) /\
  store (snd r) !! started_key pid = None.
Proof.
  intros Hbad Hgood Hfresh Hp Hpat Hend Hcount Hs Hdt Hnext Hbody Hback Hid r pid.
  subst r pid.
  destruct w as [st f c clk r off be ts ps ds].
  unfold completion_identity in *.
  cbn in Hbad, Hgood, Hfresh, Hend, Hback.
  cbn [clock reads local_offset tasks published].
  assert (H0 : f c = false) by (apply Hgood; lia).
  assert (H1 : f (S c) = false) by (apply Hgood; lia).
  assert (H2 : f (S (S c)) = false) by (apply Hgood; lia).
  assert (H4 : f (S (S (S (S c)))) = false) by (apply Hgood; lia).
  assert (H5 : f (S (S (S (S (S c))))) = false) by (apply Hgood; lia).
  unfold_processing.
  run_world. rewrite H0. run_world. rewrite Hfresh. run_world. rewrite H1. run_world.
  unfold dict_get_none, dict_get_default. rewrite Hp.
  cbn [truthy str_lower].
  assert (Hne : p <> "") by (intros ->; discriminate).
  apply String.eqb_neq in Hne. rewrite Hne. cbn [negb].
  run_world. rewrite Hpat. run_world.
  match goal with
  | |- context [should_stop_recurrence task_data
                  (mk_world ?s0 ?f0 ?c' ?clk0 ?r0 ?off0 ?be0 ?ts0 ?ps0 ?ds0)] =>
      destruct (should_stop_false task_data s0 f0 c' clk0 r0 off0 be0 ts0 ps0 ds0
                  Hend Hcount) as (r' & ->)
  end.
  run_world.
  rewrite (calculate_next_occurrence_run _ _ _ _ _ _ Hp Hs Hdt Hpat).
  unfold next_occurrence_of in Hnext.
  match type of Hnext with
  | match ?x with _ => _ end = _ => destruct x as [nx|e]; [|discriminate]
  end.
  injection Hnext as <-.
  unfold create_recurring_task. run_world. rewrite Hbody. run_world.
  rewrite H2. run_world. rewrite Hback. run_world.
  destruct answer as [|kv answer']; [discriminate|]. cbn [truthy_dict].
  unfold subscript. rewrite Hid. unfold publish_recurrence_event. run_world.
  rewrite Hbad. run_world. rewrite H4. run_world. rewrite H5. run_world.
  split; [reflexivity|]. split; [reflexivity|]. split; [reflexivity|].
  split; [eexists; rewrite lookup_delete_ne by apply started_not_processed;
          apply lookup_insert_eq|].
  apply lookup_delete_eq.
Qed.

Lemma failed_publication_does_not_block_witness :
  let w := world_with ∅ (fun n => Nat.eqb n 3) in
  let r := process_completed_task (demo_task 2) w in
  fst r = Ret true /\
  length (tasks (snd r)) = 1%nat /\
  published (snd r) = [].
Proof.
  intros w r.
  edestruct (failed_publication_does_not_block (demo_task 2) w "weekly" WEEKLY
               "2024-01-31T09:00:00Z")
    as (H1 & H2 & H3 & _).
  - reflexivity.
  - intros n Hn. cbn. apply Nat.eqb_neq. exact Hn.
  - vm_compute. reflexivity.
  - reflexivity.
  - reflexivity.
  - left. reflexivity.
  - right. exists 2%Z. split; [reflexivity|lia].
  - reflexivity.
  - vm_compute. reflexivity.
  - vm_compute. reflexivity.
  - vm_compute. reflexivity.
  - vm_compute. reflexivity.
  - vm_compute. reflexivity.
  - split; [exact H1|]. split; [|exact H3].
    fold r in H2. rewrite H2. reflexivity.
Defined.

(** X7. A backend that creates the task but answers without an [id] leaves
    the processing open: the task exists, the lookup of the id raises
    KeyError, which only the outermost handler catches, so the result is
    False, nothing is published, no completed marker is written and the
    started marker stays in the store. *)
Theorem answer_without_id_stays_started task_data w p pat s dt next body answer :
  reliable w ->
  store w !! processed_key (completion_identity task_data w) = None ->
  dict_get "recurrence_pattern" task_data = Some (VStr p) ->
  RecurrencePattern_of (lower p) = Ret pat ->
  end_open task_data (clock w (2 + reads w)) (local_offset w) ->
  count_open task_data ->
  dict_get "completed_at" task_data = Some (VStr s) ->
  fromisoformat (completion_text s) = Ret dt ->
  next_occurrence_of pat dt = Some next ->
  new_task_of task_data next = Ret body ->
  backend w body = Ret answer ->
  answer <> [] ->
  dict_get "id" answer = None ->
  let r := process_completed_task task_data w in
  let pid := completion_identity task_data w in
  fst r = Ret false /\
  tasks (snd r) = (tasks w ++ [body])%list /\
  published (snd r) = published w /\
  store (snd r) !! processed_key pid = None /\
  exists t, store (snd r) !! started_key pid = Some (marker "started" t).
Proof.
  intros Hrel Hfresh Hp Hpat Hend Hcount Hs Hdt Hnext Hbody Hback Hne' Hid r pid.
  subst r pid.
  destruct w as [st f c clk r off be ts ps ds].
  unfold reliable in Hrel. unfold completion_identity in *.
  cbn in Hrel, Hfresh, Hend, Hback. subst f.
  cbn [clock reads local_offset tasks published].
  run_to_next_occurrence task_data Hfresh Hp Hpat Hend Hcount.
  rewrite (calculate_next_occurrence_run _ _ _ _ _ _ Hp Hs Hdt Hpat).
  unfold next_occurrence_of in Hnext.
  match type of Hnext with
  | match ?x with _ => _ end = _ => destruct x as [nx|e]; [|discriminate]
  end.
  injection Hnext as <-.
  unfold create_recurring_task. run_world. rewrite Hbody. run_world.
  rewrite Hback. run_world.
  destruct answer as [|kv answer']; [congruence|]. cbn [truthy_dict].
  unfold subscript. rewrite Hid. run_world.
  split; [reflexivity|]. split; [reflexivity|]. split; [reflexivity|].
  split.
  - rewrite lookup_insert_ne by apply started_not_processed.
    exact Hfresh.
  - eexists. apply lookup_insert_eq.
Qed.

Lemma answer_without_id_stays_started_witness :
  let w := mk_world ∅ (fun _ => false) 0 (clock demo_world) 0 0
             (fun _ => Ret [("status", VStr "created")]) [] [] [] in
  let r := process_completed_task (demo_task 2) w in
  let pid := completion_identity (demo_task 2) w in
  fst r = Ret false /\
  length (tasks (snd r)) = 1%nat /\
  published (snd r) = [] /\
  store (snd r) !! processed_key pid = None /\
  exists t, store (snd r) !! started_key pid = Some (marker "started" t).
Proof.
  intros w r pid.
  edestruct (answer_without_id_stays_started (demo_task 2) w "weekly" WEEKLY
               "2024-01-31T09:00:00Z")
    as (H1 & H2 & H3 & H4 & H5).
  - reflexivity.
  - vm_compute. reflexivity.
  - reflexivity.
  - reflexivity.
  - left. reflexivity.
  - right. exists 2%Z. split; [reflexivity|lia].
  - reflexivity.
  - vm_compute. reflexivity.
  - vm_compute. reflexivity.
  - vm_compute. reflexivity.
  - vm_compute. reflexivity.
  - discriminate.
  - reflexivity.
  - split; [exact H1|]. split; [fold r in H2; rewrite H2; reflexivity|].
    split; [exact H3|]. split; [exact H4|exact H5].
Defined.

End Outcomes.

(** ** What the engine leaves alone *)

Section Keeps.
Context (K : string -> Prop).

Lemma Keeps_ret {A} (a : A) : Keeps K (ret a).
Proof. intros w. split; [reflexivity|]. intros; reflexivity. Qed.

Lemma Keeps_raise {A} e : Keeps K (@raise A e).
Proof. intros w. split; [reflexivity|]. intros; reflexivity. Qed.

Lemma Keeps_lift {A} (r : res A) : Keeps K (lift r).
Proof. intros w. unfold lift. destruct r; (split; [reflexivity|]; intros; reflexivity). Qed.

Lemma Keeps_bind {A B} (c : M A) (k : A -> M B) :
  Keeps K c -> (forall a, Keeps K (k a)) -> Keeps K (bind c k).
Proof.
  intros Hc Hk w. unfold bind. specialize (Hc w).
  destruct (c w) as [[a|e] w']; simpl in *; [|assumption].
  destruct Hc as (Hd & Hs), (Hk a w') as (Hd' & Hs').
  split; [congruence|]. intros k0 Hk0. rewrite Hs', Hs; auto.
Qed.

Lemma Keeps_try_except {A} (c : M A) (h : exn -> M A) :
  Keeps K c -> (forall e, Keeps K (h e)) -> Keeps K (try_except c h).
Proof.
  intros Hc Hh w. unfold try_except. specialize (Hc w).
  destruct (c w) as [[a|e] w']; simpl in *; [assumption|].
  destruct Hc as (Hd & Hs), (Hh e w') as (Hd' & Hs').
  split; [congruence|]. intros k0 Hk0. rewrite Hs', Hs; auto.
Qed.

Lemma Keeps_client_call : Keeps K client_call.
Proof.
  intros w. unfold client_call.
  destruct (faults w (calls w)); simpl; split; auto.
Qed.

Lemma Keeps_now : Keeps K datetime_now.
Proof. intros w. simpl. split; auto. Qed.

Lemma Keeps_get_state key : Keeps K (get_state key).
Proof.
  unfold get_state. apply Keeps_bind; [apply Keeps_client_call|].
  intros _ w. simpl. split; auto.
Qed.

Lemma Keeps_save_state key v : ~ K key -> Keeps K (save_state key v).
Proof.
  intros Hk. unfold save_state. apply Keeps_bind; [apply Keeps_client_call|].
  intros _ w. simpl. split; [reflexivity|].
  intros k Hin. apply lookup_insert_ne. congruence.
Qed.

Lemma Keeps_delete_state key : ~ K key -> Keeps K (delete_state key).
Proof.
  intros Hk. unfold delete_state. apply Keeps_bind; [apply Keeps_client_call|].
  intros _ w. simpl. split; [reflexivity|].
  intros k Hin. apply lookup_delete_ne. congruence.
Qed.

Lemma Keeps_invoke_create_task body : Keeps K (invoke_create_task body).
Proof.
  unfold invoke_create_task. apply Keeps_bind; [apply Keeps_client_call|].
  intros _ w. destruct (backend w body); simpl; split; auto.
Qed.

Lemma Keeps_publish_event topic data : Keeps K (publish_event topic data).
Proof.
  unfold publish_event. apply Keeps_bind; [apply Keeps_client_call|].
  intros _ w. simpl. split; auto.
Qed.

Lemma Keeps_now_reached e : Keeps K (now_reached e).
Proof.
  intros w. unfold now_reached, bind, datetime_now. simpl.
  destruct (tzinfo e); simpl; split; auto.
Qed.

End Keeps.

Create HintDb keeps.
#[export] Hint Resolve Keeps_ret Keeps_raise Keeps_lift Keeps_client_call Keeps_now
  Keeps_get_state Keeps_save_state Keeps_delete_state Keeps_invoke_create_task
  Keeps_publish_event Keeps_now_reached : keeps.

(** Take a computation apart along its binds, handlers and tests. *)
Ltac keeps :=
  repeat first
    [ solve [auto with keeps]
    | match goal with
      | |- Keeps _ (fun w' => (Raise _, w')) => apply Keeps_raise
      | |- Keeps _ (fun w' => (Ret _, w')) => apply Keeps_ret
      end
    | apply Keeps_try_except; [|intros ?]
    | apply Keeps_bind; [|intros ?]
    | match goal with
      | |- Keeps _ (match ?x with _ => _ end) => destruct x
      | |- Keeps _ (if ?x then _ else _) => destruct x
      end ].

Section Frame.
Import RecurrenceEngine.

Lemma processed_not_free pid : ~ ~ marker_key (processed_key pid).
Proof. intros H. apply H. exists pid. now left. Qed.

Lemma started_not_free pid : ~ ~ marker_key (started_key pid).
Proof. intros H. apply H. exists pid. now right. Qed.

(** X8. [process_completed_task] never raises, whatever the event and
    whichever calls fail; it delivers no notification, and in the state
    store it touches only keys of its own markers
    ([recurrence_processed:...] and [recurrence_started:...]). *)
Theorem process_completed_task_frame task_data w :
  let r := process_completed_task task_data w in
  (exists b, fst r = Ret b) /\
  delivered (snd r) = delivered w /\
  forall k, ~ marker_key k -> store (snd r) !! k = store w !! k.
Proof.
  intros r. subst r. split.
  - unfold process_completed_task. apply try_except_returns. 
  - assert (H : Keeps (fun k => ~ marker_key k) (process_completed_task task_data)).
    { unfold process_completed_task, has_processed_recurrence,
        mark_recurrence_processing_started, mark_recurrence_processing_completed,
        should_stop_recurrence, calculate_next_occurrence, create_recurring_task,
        publish_recurrence_event.
      pose proof processed_not_free. pose proof started_not_free.
      keeps. }
    apply H.
Qed.
End Frame.

Section EndDate.
Import PyDatetime RecurrenceEngine.



End EndDate.

(** * Further properties of the reminder state *)

Section MoreReminders.
Import PyDatetime ReminderState.

(** On a reliable client a read is one call and returns what the store
    holds. *)
Lemma get_reminder_reliable rid st c clk r off be ts ps ds :
  get_reminder rid (mk_world st (fun _ => false) c clk r off be ts ps ds)
  = (Ret (match st !! rid with Some (PDict d) => Some d | _ => None end),
     mk_world st (fun _ => false) (S c) clk r off be ts ps ds).
Proof.
  unfold get_reminder. run_world.
  destruct (st !! rid) as [[d|ids]|]; reflexivity.
Qed.

Lemma fetch_reminders_reliable ids st c clk r off be ts ps ds :
  fetch_reminders ids (mk_world st (fun _ => false) c clk r off be ts ps ds)
  = (Ret (resolve st ids),
     mk_world st (fun _ => false) (length ids + c) clk r off be ts ps ds).
Proof.
  revert c. induction ids as [|rid ids IH]; intros c; [reflexivity|].
  cbn [fetch_reminders]. unfold bind at 1. rewrite get_reminder_reliable.
  unfold bind at 1. rewrite IH. unfold ret. cbn [length].
  replace (length ids + S c)%nat with (S (length ids + c))%nat by lia.
  f_equal. f_equal. unfold resolve. cbn.
  destruct (st !! rid) as [[[|kv d]|l]|]; reflexivity.
Qed.

Lemma listing_reliable key st c clk r off be ts ps ds :
  try_except
    (response <- get_state key ;;
     match response with
     | Some p => fetch_reminders (iter_payload p)
     | None => ret []
     end)%py
    (fun _ => ret []) (mk_world st (fun _ => false) c clk r off be ts ps ds)
  = (Ret (resolve st (index_of st key)),
     mk_world st (fun _ => false) (S (length (index_of st key) + c)) clk r off be ts ps ds).
Proof.
  unfold try_except, bind at 1. unfold get_state. run_world.
  unfold index_of. destruct (st !! key) as [p|].
  - rewrite fetch_reminders_reliable. f_equal. f_equal. lia.
  - reflexivity.
Qed.

(** X9. On a reliable client [get_user_reminders] and [get_task_reminders]
    return, in the order of the index, the reminders that the identities of
    the index resolve to; an identity under which nothing, an empty
    dictionary or a list is stored is skipped.  Neither writes to the store,
    and a listing costs one call for the index and one per identity. *)
Theorem listings_resolve_the_index user_id task_id w :
  reliable w ->
  let by_user := get_user_reminders user_id w in
  let by_task := get_task_reminders user_id task_id w in
  fst by_user = Ret (resolve (store w) (index_of (store w) (user_index_key user_id))) /\
  fst by_task
  = Ret (resolve (store w) (index_of (store w) (task_index_key user_id task_id))) /\
  store (snd by_user) = store w /\ store (snd by_task) = store w /\
  calls (snd by_user)
  = S (length (index_of (store w) (user_index_key user_id)) + calls w).
Proof.
  intros Hrel by_user by_task. subst by_user by_task.
  destruct w as [st f c clk r off be ts ps ds]. unfold reliable in Hrel. cbn in Hrel.
  subst f. unfold get_user_reminders, get_task_reminders.
  rewrite !listing_reliable. cbn [fst snd store calls]. tauto.
Qed.


Lemma existsb_eqb_elem (x : string) ids : existsb (String.eqb x) ids = true <-> x ∈ ids.
Proof.
  rewrite existsb_exists. split.
  - intros (y & Hin & Hy). apply String.eqb_eq in Hy. subst y.
    now apply list_elem_of_In.
  - intros Hin. exists x. split; [now apply list_elem_of_In|apply String.eqb_refl].
Qed.

Lemma user_index_not_task_index u u' t : user_index_key u <> task_index_key u' t.
Proof. unfold user_index_key, task_index_key. simpl. discriminate. Qed.

(** One half of the index maintenance on a reliable client. *)
Lemma index_append_reliable key rid st c clk r off be ts ps ds :
  index_slot st key ->
  exists c',
    index_append key rid (mk_world st (fun _ => false) c clk r off be ts ps ds)
    = (Ret tt, mk_world (index_added key rid st) (fun _ => false) c' clk r off be ts ps ds).
Proof.
  intros Hslot. unfold index_append, index_added, index_of. run_world.
  destruct Hslot as [->|(ids & ->)]; cbn [iter_payload existsb].
  - run_world. eexists; reflexivity.
  - destruct (existsb (String.eqb rid) ids); run_world; eexists; reflexivity.
Qed.

Lemma index_remove_reliable key rid st c clk r off be ts ps ds :
  index_slot st key ->
  exists c',
    index_remove key rid (mk_world st (fun _ => false) c clk r off be ts ps ds)
    = (Ret tt, mk_world (index_removed key rid st) (fun _ => false) c' clk r off be ts ps ds).
Proof.
  intros Hslot. unfold index_remove, index_removed, index_of. run_world.
  destruct Hslot as [->|(ids & ->)]; cbn [iter_payload existsb].
  - eexists; reflexivity.
  - destruct (existsb (String.eqb rid) ids); run_world; eexists; reflexivity.
Qed.

Lemma index_added_other key rid st k : k <> key -> index_added key rid st !! k = st !! k.
Proof.
  intros Hk. unfold index_added.
  destruct (existsb _ _); [reflexivity|]. apply lookup_insert_ne. congruence.
Qed.

Lemma index_removed_other key rid st k : k <> key -> index_removed key rid st !! k = st !! k.
Proof.
  intros Hk. unfold index_removed.
  destruct (existsb _ _); [|reflexivity]. apply lookup_insert_ne. congruence.
Qed.

Lemma index_of_other st st' key :
  st' !! key = st !! key -> index_of st' key = index_of st key.
Proof. unfold index_of. now intros ->. Qed.

Lemma index_slot_other st st' key :
  st' !! key = st !! key -> index_slot st key -> index_slot st' key.
Proof. unfold index_slot. now intros ->. Qed.

Lemma index_of_added key rid st :
  index_of (index_added key rid st) key
  = if existsb (String.eqb rid) (index_of st key) then index_of st key
    else (index_of st key ++ [rid])%list.
Proof.
  unfold index_added. destruct (existsb _ _) eqn:E; [reflexivity|].
  unfold index_of at 1. now rewrite lookup_insert_eq.
Qed.

Lemma index_of_removed key rid st :
  index_slot st key ->
  index_of (index_removed key rid st) key = list_remove rid (index_of st key).
Proof.
  intros Hslot. unfold index_removed. destruct (existsb _ _) eqn:E.
  - unfold index_of at 1. now rewrite lookup_insert_eq.
  - generalize dependent (index_of st key). intros ids E.
    induction ids as [|y ids IH]; [reflexivity|]. cbn in E |- *.
    apply orb_false_elim in E as (E1 & E2). rewrite E1. f_equal. now apply IH.
Qed.

Lemma add_to_index_reliable u t rid st c clk r off be ts ps ds :
  index_slot st (user_index_key u) -> index_slot st (task_index_key u t) ->
  exists c',
    _add_to_user_task_index u t rid (mk_world st (fun _ => false) c clk r off be ts ps ds)
    = (Ret tt,
       mk_world (index_added (task_index_key u t) rid
                   (index_added (user_index_key u) rid st))
                (fun _ => false) c' clk r off be ts ps ds).
Proof.
  intros Hu Ht. unfold _add_to_user_task_index, try_except, bind.
  destruct (index_append_reliable (user_index_key u) rid st c clk r off be ts ps ds Hu)
    as (c1 & ->).
  assert (Ht' : index_slot (index_added (user_index_key u) rid st) (task_index_key u t)).
  { eapply index_slot_other; [|exact Ht]. apply index_added_other.
    intros E. symmetry in E. revert E. apply user_index_not_task_index. }
  destruct (index_append_reliable (task_index_key u t) rid _ c1 clk r off be ts ps ds Ht')
    as (c2 & ->).
  eexists; reflexivity.
Qed.

Lemma remove_from_index_reliable u t rid st c clk r off be ts ps ds :
  index_slot st (user_index_key u) -> index_slot st (task_index_key u t) ->
  exists c',
    _remove_from_user_task_index u t rid
      (mk_world st (fun _ => false) c clk r off be ts ps ds)
    = (Ret tt,
       mk_world (index_removed (task_index_key u t) rid
                   (index_removed (user_index_key u) rid st))
                (fun _ => false) c' clk r off be ts ps ds).
Proof.
  intros Hu Ht. unfold _remove_from_user_task_index, try_except, bind.
  destruct (index_remove_reliable (user_index_key u) rid st c clk r off be ts ps ds Hu)
    as (c1 & ->).
  assert (Ht' : index_slot (index_removed (user_index_key u) rid st) (task_index_key u t)).
  { eapply index_slot_other; [|exact Ht]. apply index_removed_other.
    intros E. symmetry in E. revert E. apply user_index_not_task_index. }
  destruct (index_remove_reliable (task_index_key u t) rid _ c1 clk r off be ts ps ds Ht')
    as (c2 & ->).
  eexists; reflexivity.
Qed.

Lemma added_in key rid st : rid ∈ index_of (index_added key rid st) key.
Proof.
  rewrite index_of_added. destruct (existsb _ _) eqn:E.
  - now apply existsb_eqb_elem.
  - apply elem_of_app. right. apply list_elem_of_singleton. reflexivity.
Qed.

Lemma added_NoDup key rid st :
  NoDup (index_of st key) -> NoDup (index_of (index_added key rid st) key).
Proof.
  intros Hnd. rewrite index_of_added. destruct (existsb _ _) eqn:E; [exact Hnd|].
  apply NoDup_app. split; [exact Hnd|]. split; [|apply NoDup_singleton].
  intros x Hx Hx'. apply list_elem_of_singleton in Hx'. subst x.
  apply existsb_eqb_elem in Hx. congruence.
Qed.

Lemma added_keeps key rid st x :
  x ∈ index_of st key -> x ∈ index_of (index_added key rid st) key.
Proof.
  intros Hx. rewrite index_of_added. destruct (existsb _ _); [exact Hx|].
  apply elem_of_app. now left.
Qed.

(** X10. [_add_to_user_task_index] on a reliable client, with a list or
    nothing yet under the two index keys: afterwards both indexes hold the
    identity, still hold what they held, have no duplicate if they had none,
    and no other key has changed; when both indexes already hold the
    identity, nothing is written at all. *)
Theorem indexes_hold_each_identity_once u t rid w :
  reliable w ->
  index_slot (store w) (user_index_key u) ->
  index_slot (store w) (task_index_key u t) ->
  let r := _add_to_user_task_index u t rid w in
  let by_user st := index_of st (user_index_key u) in
  let by_task st := index_of st (task_index_key u t) in
  fst r = Ret tt /\
  rid ∈ by_user (store (snd r)) /\ rid ∈ by_task (store (snd r)) /\
  (forall x, x ∈ by_user (store w) -> x ∈ by_user (store (snd r))) /\
  (forall x, x ∈ by_task (store w) -> x ∈ by_task (store (snd r))) /\
  (NoDup (by_user (store w)) -> NoDup (by_user (store (snd r)))) /\
  (NoDup (by_task (store w)) -> NoDup (by_task (store (snd r)))) /\
  (rid ∈ by_user (store w) -> rid ∈ by_task (store w) -> store (snd r) = store w) /\
  forall k, k <> user_index_key u -> k <> task_index_key u t ->
            store (snd r) !! k = store w !! k.
Proof.
  intros Hrel Hu Ht r by_user by_task. subst r by_user by_task.
  destruct w as [st f c clk rd off be ts ps ds]. unfold reliable in Hrel.
  cbn in Hrel, Hu, Ht. subst f.
  destruct (add_to_index_reliable u t rid st c clk rd off be ts ps ds Hu Ht) as (c' & ->).
  cbn [fst snd store].
  assert (Hne : user_index_key u <> task_index_key u t)
    by apply user_index_not_task_index.
  assert (Hsame : index_of (index_added (task_index_key u t) rid
                              (index_added (user_index_key u) rid st)) (user_index_key u)
                  = index_of (index_added (user_index_key u) rid st) (user_index_key u))
    by (apply index_of_other, index_added_other; exact Hne).
  assert (Hsame' : index_of (index_added (user_index_key u) rid st) (task_index_key u t)
                   = index_of st (task_index_key u t))
    by (apply index_of_other, index_added_other; congruence).
  split; [reflexivity|]. split; [rewrite Hsame; apply added_in|].
  split; [apply added_in|].
  split; [intros x Hx; rewrite Hsame; now apply added_keeps|].
  split; [intros x Hx; apply added_keeps; now rewrite Hsame'|].
  split; [intros Hnd; rewrite Hsame; now apply added_NoDup|].
  split; [intros Hnd; apply added_NoDup; now rewrite Hsame'|].
  split.
  - intros H1 H2. apply existsb_eqb_elem in H1, H2.
    unfold index_added at 2. rewrite H1. unfold index_added. now rewrite H2.
  - intros k Hk1 Hk2. now rewrite !index_added_other.
Qed.


Lemma dict_set_nonempty k v d : dict_set k v d <> [].
Proof.
  destruct d as [|[k0 v0] d]; simpl; [discriminate|].
  destruct (String.eqb k k0); discriminate.
Qed.

Lemma resolve_elem st ids rid d :
  rid ∈ ids -> st !! rid = Some (PDict d) -> d <> [] -> d ∈ resolve st ids.
Proof.
  intros Hin Hs Hne. unfold resolve. apply list_elem_of_omap.
  exists rid. split; [exact Hin|]. rewrite Hs. destruct d; [congruence|reflexivity].
Qed.

(** What [store_reminder] leaves behind on a reliable client. *)
Lemma store_reminder_reliable rid data u t st c clk r off be ts ps ds :
  dict_get "user_id" data = Some u -> dict_get "task_id" data = Some t ->
  rid <> user_index_key u -> rid <> task_index_key u t ->
  index_slot st (user_index_key u) -> index_slot st (task_index_key u t) ->
  let stored := dict_set "updated_at" (VStr (isoformat (clk r))) data in
  exists c',
    store_reminder rid data (mk_world st (fun _ => false) c clk r off be ts ps ds)
    = (Ret true,
       mk_world (index_added (task_index_key u t) rid
                   (index_added (user_index_key u) rid (<[rid := PDict stored]> st)))
                (fun _ => false) c' clk (S r) off be ts ps ds).
Proof.
  intros Hu Ht Hk1 Hk2 Hsu Hst stored.
  unfold store_reminder. run_world. unfold RecurrenceEngine.subscript.
  rewrite !dict_get_set_other by discriminate. rewrite Hu, Ht.
  match goal with
  | |- context [_add_to_user_task_index u t rid
                  (mk_world ?s0 _ ?c0 _ ?r0 _ _ _ _ _)] =>
      destruct (add_to_index_reliable u t rid s0 c0 clk r0 off be ts ps ds)
        as (c' & ->)
  end.
  - eapply index_slot_other; [|exact Hsu]. apply lookup_insert_ne. congruence.
  - eapply index_slot_other; [|exact Hst]. apply lookup_insert_ne. congruence.
  - eexists; reflexivity.
Qed.

(** X11. Store, then read: after [store_reminder] on a reliable client (the
    data has [user_id] and [task_id], the identity is not an index key, the
    index keys hold lists or nothing) [get_reminder] returns the data with
    its [updated_at] stamp, and both listings contain it. *)
Theorem stored_reminder_is_listed rid data u t w :
  reliable w ->
  dict_get "user_id" data = Some u -> dict_get "task_id" data = Some t ->
  rid <> user_index_key u -> rid <> task_index_key u t ->
  index_slot (store w) (user_index_key u) ->
  index_slot (store w) (task_index_key u t) ->
  let stored := dict_set "updated_at" (VStr (isoformat (clock w (reads w)))) data in
  let w' := snd (store_reminder rid data w) in
  fst (store_reminder rid data w) = Ret true /\
  fst (get_reminder rid w') = Ret (Some stored) /\
  (exists l, fst (get_user_reminders u w') = Ret l /\ stored ∈ l) /\
  (exists l, fst (get_task_reminders u t w') = Ret l /\ stored ∈ l).
Proof.
  intros Hrel Hu Ht Hk1 Hk2 Hsu Hst stored w'. subst stored w'.
  destruct w as [st f c clk r off be ts ps ds]. unfold reliable in Hrel.
  cbn in Hrel, Hsu, Hst. subst f. cbn [clock reads].
  destruct (store_reminder_reliable rid data u t st c clk r off be ts ps ds
              Hu Ht Hk1 Hk2 Hsu Hst) as (c' & ->).
  cbn [fst snd].
  set (stored := dict_set "updated_at" (VStr (isoformat (clk r))) data).
  set (st' := index_added (task_index_key u t) rid
                (index_added (user_index_key u) rid (<[rid := PDict stored]> st))).
  assert (Hrid : st' !! rid = Some (PDict stored)).
  { subst st'. rewrite !index_added_other by congruence. apply lookup_insert_eq. }
  assert (Hinu : rid ∈ index_of st' (user_index_key u)).
  { subst st'. erewrite index_of_other; [apply added_in|].
    apply index_added_other. apply user_index_not_task_index. }
  assert (Hint : rid ∈ index_of st' (task_index_key u t)) by apply added_in.
  split; [reflexivity|]. split; [|split].
  - rewrite get_reminder_reliable. cbn [fst]. now rewrite Hrid.
  - unfold get_user_reminders. rewrite listing_reliable. eexists. split; [reflexivity|].
    eapply resolve_elem; [exact Hinu|exact Hrid|apply dict_set_nonempty].
  - unfold get_task_reminders. rewrite listing_reliable. eexists. split; [reflexivity|].
    eapply resolve_elem; [exact Hint|exact Hrid|apply dict_set_nonempty].
Qed.

(** X12. [update_reminder] - and so [mark_reminder_as_notified] and
    [cancel_reminder] - on an identity under which nothing is stored answers
    False after its one read, whether or not that read fails; it writes
    nothing and does not read the clock: an update never creates a
    reminder. *)
Theorem missing_reminder_is_not_updated rid updates w :
  store w !! rid = None ->
  let r := update_reminder rid updates w in
  fst r = Ret false /\ store (snd r) = store w /\ reads (snd r) = reads w /\
  calls (snd r) = S (calls w).
Proof.
  intros Hs r. subst r. destruct w as [st f c clk rd off be ts ps ds]. cbn in Hs.
  unfold update_reminder, get_reminder. run_world.
  destruct (f c); run_world; rewrite ?Hs; cbn [truthy_dict]; run_world; tauto.
Qed.

Lemma delete_reminder_reliable rid d u t st c clk r off be ts ps ds :
  st !! rid = Some (PDict d) -> d <> [] ->
  dict_get "user_id" d = Some u -> dict_get "task_id" d = Some t ->
  index_slot st (user_index_key u) -> index_slot st (task_index_key u t) ->
  exists c',
    delete_reminder rid (mk_world st (fun _ => false) c clk r off be ts ps ds)
    = (Ret true,
       mk_world (delete rid (index_removed (task_index_key u t) rid
                               (index_removed (user_index_key u) rid st)))
                (fun _ => false) c' clk r off be ts ps ds).
Proof.
  intros Hs Hne Hu Ht Hsu Hst.
  unfold delete_reminder. unfold try_except at 1. unfold bind at 1. unfold bind at 1.
  rewrite get_reminder_reliable. rewrite Hs.
  destruct d as [|kv d']; [congruence|]. cbn [truthy_dict].
  unfold RecurrenceEngine.subscript. rewrite Hu, Ht. unfold lift. unfold bind at 1.
  unfold bind at 1.
  destruct (remove_from_index_reliable u t rid st (S c) clk r off be ts ps ds Hsu Hst)
    as (c' & ->).
  run_world. eexists; reflexivity.
Qed.

(** X13. [delete_reminder] of a stored reminder, on a reliable client:
    the result is True, the identity holds nothing any more, its first
    occurrence is gone from the user index and from the task index of the
    reminder's own [user_id] and [task_id], and no other key has changed. *)
Theorem delete_reminder_unlinks rid d u t w :
  reliable w ->
  store w !! rid = Some (PDict d) -> d <> [] ->
  dict_get "user_id" d = Some u -> dict_get "task_id" d = Some t ->
  rid <> user_index_key u -> rid <> task_index_key u t ->
  index_slot (store w) (user_index_key u) ->
  index_slot (store w) (task_index_key u t) ->
  let r := delete_reminder rid w in
  fst r = Ret true /\
  store (snd r) !! rid = None /\
  index_of (store (snd r)) (user_index_key u)
  = list_remove rid (index_of (store w) (user_index_key u)) /\
  index_of (store (snd r)) (task_index_key u t)
  = list_remove rid (index_of (store w) (task_index_key u t)) /\
  forall k, k <> rid -> k <> user_index_key u -> k <> task_index_key u t ->
            store (snd r) !! k = store w !! k.
Proof.
  intros Hrel Hs Hne Hu Ht Hk1 Hk2 Hsu Hst r. subst r.
  destruct w as [st f c clk rd off be ts ps ds]. unfold reliable in Hrel.
  cbn in Hrel, Hs, Hsu, Hst. subst f.
  destruct (delete_reminder_reliable rid d u t st c clk rd off be ts ps ds
              Hs Hne Hu Ht Hsu Hst) as (c' & ->).
  cbn [fst snd store].
  assert (Hne' : user_index_key u <> task_index_key u t)
    by apply user_index_not_task_index.
  split; [reflexivity|]. split; [apply lookup_delete_eq|]. split; [|split].
  - unfold index_of at 1. rewrite lookup_delete_ne by congruence.
    rewrite index_removed_other by exact Hne'.
    fold (index_of (index_removed (user_index_key u) rid st) (user_index_key u)).
    now apply index_of_removed.
  - unfold index_of at 1. rewrite lookup_delete_ne by congruence.
    fold (index_of (index_removed (task_index_key u t) rid
                      (index_removed (user_index_key u) rid st)) (task_index_key u t)).
    rewrite index_of_removed.
    + f_equal. apply index_of_other, index_removed_other. congruence.
    + eapply index_slot_other; [|exact Hst]. apply index_removed_other. congruence.
  - intros k H1 H2 H3. rewrite lookup_delete_ne by congruence.
    now rewrite !index_removed_other.
Qed.


(** X14. When the read at the start of [delete_reminder] fails and the
    deletion goes through, the reminder is deleted and the result is True,
    but no index is touched: [get_reminder] turns the failure into None, so
    the identity stays listed in the indexes of its user and task. *)
Theorem failed_read_deletes_without_unlinking rid w :
  faults w (calls w) = true -> faults w (S (calls w)) = false ->
  let r := delete_reminder rid w in
  fst r = Ret true /\ store (snd r) = delete rid (store w).
Proof.
  intros H0 H1 r. subst r. destruct w as [st f c clk rd off be ts ps ds].
  cbn in H0, H1. unfold delete_reminder, get_reminder. run_world.
  rewrite H0. run_world. cbn [truthy_dict]. run_world. rewrite H1. run_world.
  tauto.
Qed.

Lemma listings_resolve_the_index_witness :
  let w := snd (store_reminder "r1" (reminder_with false false) demo_world) in
  let by_user := get_user_reminders (VStr "u1") w in
  let by_task := get_task_reminders (VStr "u1") (VInt 5) w in
  fst by_user = Ret (resolve (store w) (index_of (store w) (user_index_key (VStr "u1")))) /\
  fst by_task
  = Ret (resolve (store w) (index_of (store w) (task_index_key (VStr "u1") (VInt 5)))) /\
  store (snd by_user) = store w /\ store (snd by_task) = store w /\
  calls (snd by_user)
  = S (length (index_of (store w) (user_index_key (VStr "u1"))) + calls w).
Proof.
  intros w.
  apply (listings_resolve_the_index (VStr "u1") (VInt 5) w). reflexivity.
Defined.

Lemma indexes_hold_each_identity_once_witness :
  let w := snd (store_reminder "r1" (reminder_with false false) demo_world) in
  let r := _add_to_user_task_index (VStr "u1") (VInt 5) "r2" w in
  index_of (store w) (user_index_key (VStr "u1")) = ["r1"] /\
  "r2" ∈ index_of (store (snd r)) (user_index_key (VStr "u1")) /\
  "r1" ∈ index_of (store (snd r)) (user_index_key (VStr "u1")) /\
  NoDup (index_of (store (snd r)) (task_index_key (VStr "u1") (VInt 5))).
Proof.
  intros w r.
  destruct (indexes_hold_each_identity_once (VStr "u1") (VInt 5) "r2" w)
    as (_ & H1 & _ & H2 & _ & _ & H3 & _).
  - reflexivity.
  - right. eexists. vm_compute. reflexivity.
  - right. eexists. vm_compute. reflexivity.
  - split; [vm_compute; reflexivity|]. split; [exact H1|]. split.
    + apply H2. vm_compute. apply list_elem_of_singleton. reflexivity.
    + apply H3. vm_compute. apply NoDup_singleton.
Defined.

Lemma stored_reminder_is_listed_witness :
  let stored :=
    dict_set "updated_at" (VStr "2024-01-31T10:20:30") (reminder_with false false) in
  let w' := snd (store_reminder "r1" (reminder_with false false) demo_world) in
  fst (store_reminder "r1" (reminder_with false false) demo_world) = Ret true /\
  fst (get_reminder "r1" w') = Ret (Some stored) /\
  (exists l, fst (get_user_reminders (VStr "u1") w') = Ret l /\ stored ∈ l) /\
  (exists l, fst (get_task_reminders (VStr "u1") (VInt 5) w') = Ret l /\ stored ∈ l).
Proof.
  apply (stored_reminder_is_listed "r1" (reminder_with false false) (VStr "u1") (VInt 5)
           demo_world);
    try reflexivity; try discriminate; left; reflexivity.
Defined.

Lemma missing_reminder_is_not_updated_witness :
  let r := update_reminder "r1" [("notified", VBool true)] demo_world in
  fst r = Ret false /\ store (snd r) = store demo_world /\
  reads (snd r) = reads demo_world /\ calls (snd r) = S (calls demo_world).
Proof.
  apply (missing_reminder_is_not_updated "r1" [("notified", VBool true)] demo_world).
  reflexivity.
Defined.

Lemma delete_reminder_unlinks_witness :
  let w := snd (store_reminder "r2" (reminder_with false false)
                  (snd (store_reminder "r1" (reminder_with false false) demo_world))) in
  let r := delete_reminder "r1" w in
  fst r = Ret true /\
  store (snd r) !! "r1" = None /\
  index_of (store w) (user_index_key (VStr "u1")) = ["r1"; "r2"] /\
  index_of (store (snd r)) (user_index_key (VStr "u1")) = ["r2"] /\
  index_of (store (snd r)) (task_index_key (VStr "u1") (VInt 5)) = ["r2"].
Proof.
  intros w r.
  destruct (delete_reminder_unlinks "r1"
              (dict_set "updated_at" (VStr "2024-01-31T10:20:30") (reminder_with false false))
              (VStr "u1") (VInt 5) w)
    as (H1 & H2 & H3 & H4 & _).
  - reflexivity.
  - vm_compute. reflexivity.
  - discriminate.
  - reflexivity.
  - reflexivity.
  - discriminate.
  - discriminate.
  - right. eexists. vm_compute. reflexivity.
  - right. eexists. vm_compute. reflexivity.
  - split; [exact H1|]. split; [exact H2|]. split; [vm_compute; reflexivity|].
    split; [fold r in H3; rewrite H3|fold r in H4; rewrite H4]; vm_compute; reflexivity.
Defined.

Lemma failed_read_deletes_without_unlinking_witness :
  let w0 := snd (store_reminder "r1" (reminder_with false false) demo_world) in
  let w := world_with (store w0) (fun n => Nat.eqb n 0) in
  let r := delete_reminder "r1" w in
  fst r = Ret true /\ store (snd r) = delete "r1" (store w) /\
  index_of (store (snd r)) (user_index_key (VStr "u1")) = ["r1"].
Proof.
  intros w0 w r.
  destruct (failed_read_deletes_without_unlinking "r1" w) as (H1 & H2);
    [reflexivity|reflexivity|].
  split; [exact H1|]. split; [exact H2|]. fold r in H2. rewrite H2.
  vm_compute. reflexivity.
Defined.

End MoreReminders.

(** ** Cancelling reminders that carry their identity *)

Section Cancelling.
Import PyDatetime ReminderState.

Lemma cancel_reminder_reliable rid d st c clk r off be ts ps ds :
  st !! rid = Some (PDict d) -> d <> [] ->
  cancel_reminder rid (mk_world st (fun _ => false) c clk r off be ts ps ds)
  = (Ret true,
     mk_world (<[rid := PDict (dict_set "updated_at" (VStr (isoformat (clk r)))
                                 (dict_set "cancelled" (VBool true) d))]> st)
              (fun _ => false) (S (S c)) clk (S r) off be ts ps ds).
Proof.
  intros Hs Hne. unfold cancel_reminder, update_reminder, get_reminder. run_world.
  rewrite Hs. run_world. destruct d as [|kv d']; [congruence|]. cbn [truthy_dict].
  run_world. reflexivity.
Qed.

Lemma cancelled_after_update v d :
  dict_get "cancelled" (dict_set "updated_at" v (dict_set "cancelled" (VBool true) d))
  = Some (VBool true).
Proof.
  rewrite dict_get_set_other by discriminate. rewrite dict_get_set. reflexivity.
Qed.

Lemma cancel_each_reliable l : forall st c clk r off be ts ps ds,
  (forall d, d ∈ l -> exists rid, dict_get "id" d = Some (VStr rid) /\ present st rid) ->
  exists st' c' r',
    cancel_each l (mk_world st (fun _ => false) c clk r off be ts ps ds)
    = (Ret (length l), mk_world st' (fun _ => false) c' clk r' off be ts ps ds) /\
    (forall rid, present st rid -> present st' rid) /\
    (forall rid, cancelled_in st rid -> cancelled_in st' rid) /\
    (forall d rid, d ∈ l -> dict_get "id" d = Some (VStr rid) -> cancelled_in st' rid) /\
    (forall k, (forall d, d ∈ l -> dict_get "id" d <> Some (VStr k)) -> st' !! k = st !! k).
Proof.
  induction l as [|d l IH]; intros st c clk r off be ts ps ds Hall.
  - exists st, c, r. split; [reflexivity|]. split; [tauto|]. split; [tauto|].
    split; [|reflexivity]. intros d rid Hin. now apply elem_of_nil in Hin.
  - destruct (Hall d ltac:(left)) as (rid & Hid & d0 & Hs & Hne).
    cbn [cancel_each]. unfold bind at 1.
    assert (Hd : d <> []) by (intros ->; discriminate).
    destruct d as [|kv d']; [congruence|].
    unfold cancel_target. rewrite Hid. cbn [cancel_reminder_value].
    rewrite (cancel_reminder_reliable rid d0 st c clk r off be ts ps ds Hs Hne).
    set (st1 := <[rid := _]> st).
    assert (Hp1 : forall k, present st k -> present st1 k).
    { intros k (dk & Hk & Hnk). subst st1. destruct (decide (k = rid)) as [->|Hkr].
      - eexists. rewrite lookup_insert_eq. split; [reflexivity|apply dict_set_nonempty].
      - exists dk. rewrite lookup_insert_ne by congruence. tauto. }
    assert (Hc1 : forall k, cancelled_in st k -> cancelled_in st1 k).
    { intros k (dk & Hk & Hck). subst st1. destruct (decide (k = rid)) as [->|Hkr].
      - eexists. rewrite lookup_insert_eq. split; [reflexivity|apply cancelled_after_update].
      - exists dk. rewrite lookup_insert_ne by congruence. tauto. }
    destruct (IH st1 (S (S c)) clk (S r) off be ts ps ds)
      as (st' & c' & r' & Hrun & Hp & Hc & Hl & Ho).
    { intros d1 Hin. destruct (Hall d1 ltac:(now right)) as (rid1 & Hid1 & Hpr).
      exists rid1. split; [exact Hid1|now apply Hp1]. }
    unfold bind at 1. rewrite Hrun. unfold ret.
    exists st', c', r'. split; [reflexivity|].
    split; [intros k Hk; now apply Hp, Hp1|].
    split; [intros k Hk; now apply Hc, Hc1|].
    split.
    + intros d1 rid1 Hin Hid1. apply elem_of_cons in Hin as [->|Hin].
      * rewrite Hid in Hid1. injection Hid1 as <-. apply Hc. subst st1.
        eexists. rewrite lookup_insert_eq. split; [reflexivity|apply cancelled_after_update].
      * now apply (Hl d1).
    + intros k Hk. rewrite Ho.
      * subst st1. apply lookup_insert_ne. intros <-. apply (Hk (kv :: d')); [left|exact Hid].
      * intros d1 Hin. apply Hk. now right.
Qed.

(** X26. [cancel_task_reminders] of the state manager does cancel when the
    reminders carry their identity: on a reliable client, if every identity
    listed in the task index holds a reminder whose ['id'] field is that
    identity, the result is True, each of these reminders is stored with
    [cancelled = True] afterwards, and no key outside the index's
    identities has changed. *)
Theorem identified_reminders_are_cancelled user_id task_id ids w :
  reliable w ->
  store w !! task_index_key user_id task_id = Some (PList ids) ->
  (forall rid, rid ∈ ids ->
     exists d, store w !! rid = Some (PDict d) /\ dict_get "id" d = Some (VStr rid)) ->
  let r := cancel_task_reminders user_id task_id w in
  fst r = Ret true /\
  (forall rid, rid ∈ ids -> cancelled_in (store (snd r)) rid) /\
  (forall k, ~ (k ∈ ids) -> store (snd r) !! k = store w !! k).
Proof.
  intros Hrel Hidx Hids r. subst r.
  destruct w as [st f c clk rd off be ts ps ds]. unfold reliable in Hrel.
  cbn in Hrel, Hidx, Hids. subst f.
  assert (Hio : index_of st (task_index_key user_id task_id) = ids)
    by (unfold index_of; now rewrite Hidx).
  assert (Hres : forall d, d ∈ resolve st ids ->
                   exists rid, rid ∈ ids /\ st !! rid = Some (PDict d) /\
                               dict_get "id" d = Some (VStr rid)).
  { intros d Hd. unfold resolve in Hd. apply list_elem_of_omap in Hd as (rid & Hin & Hm).
    destruct (Hids rid Hin) as (d0 & Hs & Hid). rewrite Hs in Hm.
    destruct d0 as [|kv d0']; [discriminate|]. injection Hm as <-. eauto. }
  destruct (cancel_each_reliable (resolve st ids) st (S (length ids + c)) clk rd off be ts ps ds)
    as (st' & c' & r' & Hce & Hp & Hc & Hl & Ho).
  { intros d Hd. destruct (Hres d Hd) as (rid & Hin & Hs & Hid).
    exists rid. split; [exact Hid|]. exists d. split; [exact Hs|]. intros ->. discriminate. }
  assert (Hrun : cancel_task_reminders user_id task_id
                   (mk_world st (fun _ => false) c clk rd off be ts ps ds)
                 = (Ret true, mk_world st' (fun _ => false) c' clk r' off be ts ps ds)).
  { unfold cancel_task_reminders. unfold try_except at 1. unfold bind at 1.
    unfold get_task_reminders. rewrite listing_reliable, Hio.
    unfold bind at 1. rewrite Hce. reflexivity. }
  rewrite Hrun. cbn [fst snd store].
  split; [reflexivity|]. split.
  - intros rid Hin. destruct (Hids rid Hin) as (d & Hs & Hid).
    apply (Hl d rid); [|exact Hid].
    eapply resolve_elem; [exact Hin|exact Hs|]. intros ->. discriminate.
  - intros k Hk. apply Ho. intros d Hd Hid.
    destruct (Hres d Hd) as (rid & Hin & _ & Hid'). rewrite Hid in Hid'.
    injection Hid' as <-. contradiction.
Qed.

Lemma identified_reminders_are_cancelled_witness :
  let st : gmap string payload :=
    <[task_index_key (VStr "u1") (VInt 5) := PList ["r1"; "r2"]]>
      (<["r1" := PDict (identified_reminder "r1")]>
         (<["r2" := PDict (identified_reminder "r2")]> ∅)) in
  let r := cancel_task_reminders (VStr "u1") (VInt 5) (world_with st (fun _ => false)) in
  fst r = Ret true /\
  (forall rid, rid ∈ ["r1"; "r2"] -> cancelled_in (store (snd r)) rid) /\
  (forall k, ~ (k ∈ ["r1"; "r2"]) -> store (snd r) !! k = st !! k).
Proof.
  intros st.
  apply (identified_reminders_are_cancelled (VStr "u1") (VInt 5) ["r1"; "r2"]
           (world_with st (fun _ => false))).
  - reflexivity.
  - vm_compute. reflexivity.
  - intros rid Hin. apply elem_of_cons in Hin as [->|Hin];
      [|apply elem_of_cons in Hin as [->|Hin]; [|now apply elem_of_nil in Hin]];
      eexists; split; vm_compute; reflexivity.
Defined.

End Cancelling.

(** * Further properties of the notification service *)

Section MoreNotifications.
Import PyDatetime ReminderState NotificationService.

(** X15. [reminder_handler] drops an event exactly when [user_id],
    [task_id], [task_title] or [due_date] is missing or falsy (None, an
    empty string, the number 0).  Such an event is dropped before anything
    happens: no reminder is stored, no clock is read, no call is made,
    nothing is delivered.  An event with its four fields never ends on
    "missing required fields", whichever calls fail; and the handler never
    raises. *)
Theorem only_incomplete_events_are_dropped event_data w :
  let complete :=
    forallb truthy [dict_get_none "user_id" event_data; dict_get_none "task_id" event_data;
                    dict_get_none "task_title" event_data;
                    dict_get_none "due_date" event_data] in
  (complete = false -> reminder_handler event_data w = (Ret MissingFields, w)) /\
  (complete = true -> fst (reminder_handler event_data w) <> Ret MissingFields) /\
  exists outcome, fst (reminder_handler event_data w) = Ret outcome.
Proof.
  intros complete. split; [|split].
  - intros Hall. unfold reminder_handler. fold complete. rewrite Hall. reflexivity.
  - intros Hall. unfold reminder_handler. fold complete. rewrite Hall. cbn [negb].
    unfold datetime_now. unfold_monad.
    repeat match goal with
           | |- context [let (_, _) := ?c in _] =>
               lazymatch c with
               | context [let (_, _) := _ in _] => fail
               | _ => destruct c as [[?|?] ?]
               end
           | |- context [if truthy ?a then _ else _] => destruct (truthy a)
           end; cbn; discriminate.
  - apply try_except_returns.
Qed.

Lemma only_incomplete_events_are_dropped_witness :
  let zero := [("user_id", VStr "u1"); ("task_id", VInt 0); ("task_title", VStr "Pay rent");
               ("due_date", VStr "2024-02-01T00:00:00")] in
  reminder_handler zero demo_world = (Ret MissingFields, demo_world) /\
  fst (reminder_handler demo_reminder_event (world_with ∅ (fun _ => true)))
  <> Ret MissingFields.
Proof.
  intros zero. split.
  - apply (proj1 (only_incomplete_events_are_dropped zero demo_world)). reflexivity.
  - apply (proj1 (proj2 (only_incomplete_events_are_dropped demo_reminder_event
                           (world_with ∅ (fun _ => true))))).
    reflexivity.
Defined.

Lemma dispatch_outcomes channels user_id message w :
  dispatch channels user_id message w
  = (Ret (map (fun c => (c, if known_channel c then channel_status c
                            else "unknown_channel")) channels),
     mk_world (store w) (faults w) (calls w) (clock w) (reads w) (local_offset w)
       (backend w) (tasks w) (published w)
       (delivered w ++ map (fun c => (c, py_str user_id, message))
                         (filter (fun c => known_channel c = true) channels))).
Proof.
  revert w. induction channels as [|c channels IH]; intros w.
  - cbn. rewrite app_nil_r. destruct w; reflexivity.
  - cbn [dispatch map]. rewrite filter_cons.
    destruct (known_channel c) eqn:Hk.
    + rewrite decide_True by reflexivity.
      unfold bind at 1. unfold try_except, channel_send. unfold bind at 1.
      rewrite IH. unfold ret, add_delivered. cbn [store faults calls clock reads local_offset
        backend tasks published delivered map].
      rewrite <- app_assoc. reflexivity.
    + rewrite decide_False by discriminate.
      unfold bind at 1. unfold ret at 1. unfold bind at 1. rewrite IH. reflexivity.
Qed.

(** X16. [send_notification] records an outcome for each requested
    channel, in the order requested: the channel's own status for [email],
    [push], [sms] and [log], and [unknown_channel] for any other name.  It
    delivers the text "Reminder: Task '<title>' is due on <date>" once per
    known channel requested, in that order, and nothing on an unknown one;
    without a channel list it uses [log] alone.  It makes no client call and
    touches neither the store nor the topics. *)
Theorem notification_reaches_the_known_channels user_id task_title due_date channels w :
  let chosen := match channels with Some c => c | None => ["log"] end in
  let text := "Reminder: Task '" ++ py_str task_title ++ "' is due on " ++ py_str due_date in
  let r := send_notification user_id task_title due_date channels w in
  fst r = Ret (map (fun c => (c, if known_channel c then channel_status c
                                 else "unknown_channel")) chosen) /\
  delivered (snd r)
  = (delivered w ++ map (fun c => (c, py_str user_id, text))
                      (filter (fun c => known_channel c = true) chosen))%list /\
  store (snd r) = store w /\ published (snd r) = published w /\ calls (snd r) = calls w.
Proof.
  intros chosen text r. subst r. unfold send_notification. fold chosen. fold text.
  rewrite dispatch_outcomes. cbn [fst snd delivered store published calls]. tauto.
Qed.

(** Outcomes are per channel, deliveries only on known ones. *)
Example notification_on_three_channels :
  let r := send_notification (VStr "u1") (VStr "Pay rent") (VStr "tomorrow")
             (Some ["sms"; "fax"; "email"]) demo_world in
  fst r = Ret [("sms", "sms_sent"); ("fax", "unknown_channel"); ("email", "email_sent")] /\
  delivered (snd r)
  = [("sms", "u1", "Reminder: Task 'Pay rent' is due on tomorrow");
     ("email", "u1", "Reminder: Task 'Pay rent' is due on tomorrow")].
Proof. vm_compute. split; reflexivity. Qed.


(** The whole run of the handler on a reliable client. *)
Lemma reminder_handler_reliable event_data st c clk r off be ts ps ds :
  forallb truthy [dict_get_none "user_id" event_data; dict_get_none "task_id" event_data;
                  dict_get_none "task_title" event_data; dict_get_none "due_date" event_data]
    = true ->
  let u := dict_get_none "user_id" event_data in
  let t := dict_get_none "task_id" event_data in
  index_slot st (user_index_key u) -> index_slot st (task_index_key u t) ->
  let rid := reminder_id_of u t (clk r) in
  exists c' upd d,
    reminder_handler event_data (mk_world st (fun _ => false) c clk r off be ts ps ds)
    = (Ret Processed,
       mk_world (<[rid := PDict (dict_set "updated_at" upd (dict_set "notified" (VBool true) d))]>
                   (index_added (task_index_key u t) rid
                      (index_added (user_index_key u) rid (<[rid := PDict d]> st))))
                (fun _ => false) c' clk (5 + r) off be ts ps
                (ds ++ [("log", py_str u, reminder_text event_data)])) /\
    dict_get "user_id" d = Some u /\ dict_get "task_id" d = Some t /\
    dict_get "task_title" d = Some (dict_get_none "task_title" event_data) /\
    dict_get "due_date" d = Some (dict_get_none "due_date" event_data).
Proof.
  intros Hall u t Hsu Hst rid.
  unfold reminder_handler. rewrite Hall. cbn [negb].
  fold u. fold t. run_world. fold rid.
  match goal with
  | |- context [store_reminder rid ?data (mk_world _ _ ?c0 _ ?r0 _ _ _ _ _)] =>
      destruct (store_reminder_reliable rid data u t st c0 clk r0 off be ts ps ds
                  eq_refl eq_refl (reminder_id_not_user_index _ _ _ _)
                  (reminder_id_not_task_index _ _ _ _ _) Hsu Hst) as (c1 & Hstore);
      rewrite Hstore; clear Hstore
  end.
  match goal with
  | |- context [dict_set "updated_at" ?v ?l] =>
      let x := eval cbn [dict_set String.eqb Ascii.eqb Bool.eqb] in
               (dict_set "updated_at" v l) in
      change (dict_set "updated_at" v l) with x;
      set (stored := x)
  end.
  set (st1 := index_added (task_index_key u t) rid
                (index_added (user_index_key u) rid (<[rid := PDict stored]> st))).
  assert (Hrid : st1 !! rid = Some (PDict stored)).
  { subst st1. rewrite !index_added_other.
    - apply lookup_insert_eq.
    - apply reminder_id_not_user_index.
    - apply reminder_id_not_task_index. }
  unfold is_reminder_notified. run_world. rewrite get_reminder_reliable, Hrid.
  run_world. subst stored. cbn [truthy_dict dict_get_default dict_get String.eqb
    Ascii.eqb Bool.eqb truthy].
  unfold send_notification. rewrite dispatch_outcomes. run_world.
  unfold mark_reminder_as_notified, update_reminder. run_world.
  rewrite get_reminder_reliable, Hrid. run_world. cbn [truthy_dict]. run_world.
  eexists _, _, _. split; [reflexivity|]. repeat split.
Qed.

(** X17. What a handled reminder leaves in the store.  On a reliable
    client, for an event with its four required fields, [reminder_handler]
    leaves under the reminder's identity (user, task and the second of
    arrival) a record with [notified = True] that carries the event's
    [user_id], [task_id], [task_title] and [due_date], and the identity is
    listed in the index of the user and in the index of the task. *)
Theorem handled_reminder_ends_notified event_data w :
  forallb truthy [dict_get_none "user_id" event_data; dict_get_none "task_id" event_data;
                  dict_get_none "task_title" event_data; dict_get_none "due_date" event_data]
    = true ->
  reliable w ->
  index_slot (store w) (user_index_key (dict_get_none "user_id" event_data)) ->
  index_slot (store w)
    (task_index_key (dict_get_none "user_id" event_data)
       (dict_get_none "task_id" event_data)) ->
  let u := dict_get_none "user_id" event_data in
  let t := dict_get_none "task_id" event_data in
  let rid := reminder_id_of u t (clock w (reads w)) in
  let w' := snd (reminder_handler event_data w) in
  (exists d, store w' !! rid = Some (PDict d) /\
             dict_get "notified" d = Some (VBool true) /\
             dict_get "user_id" d = Some u /\ dict_get "task_id" d = Some t /\
             dict_get "task_title" d = Some (dict_get_none "task_title" event_data) /\
             dict_get "due_date" d = Some (dict_get_none "due_date" event_data)) /\
  rid ∈ index_of (store w') (user_index_key u) /\
  rid ∈ index_of (store w') (task_index_key u t).
Proof.
  intros Hall Hrel Hsu Hst u t rid w'. subst w'.
  destruct w as [st f c clk r off be ts ps ds]. unfold reliable in Hrel.
  cbn in Hrel, Hsu, Hst. subst f. cbn [clock reads] in rid.
  destruct (reminder_handler_reliable event_data st c clk r off be ts ps ds Hall Hsu Hst)
    as (c' & upd & d & -> & Hu & Ht & Htitle & Hdue).
  cbn [snd store]. fold u t rid.
  assert (Hne : user_index_key u <> task_index_key u t)
    by apply user_index_not_task_index.
  split; [|split].
  - eexists. split; [apply lookup_insert_eq|].
    rewrite !dict_get_set. cbn [String.eqb Ascii.eqb Bool.eqb].
    tauto.
  - unfold index_of. rewrite lookup_insert_ne by apply reminder_id_not_user_index.
    rewrite index_added_other by exact Hne.
    apply added_in.
  - unfold index_of. rewrite lookup_insert_ne by apply reminder_id_not_task_index.
    apply added_in.
Qed.

Lemma handled_reminder_ends_notified_witness :
  let w' := snd (reminder_handler demo_reminder_event demo_world) in
  let rid := "reminder_u1_5_20240131102030" in
  (exists d, store w' !! rid = Some (PDict d) /\
             dict_get "notified" d = Some (VBool true) /\
             dict_get "user_id" d = Some (VStr "u1") /\ dict_get "task_id" d = Some (VInt 5) /\
             dict_get "task_title" d = Some (VStr "Pay rent") /\
             dict_get "due_date" d = Some (VStr "2024-02-01T00:00:00")) /\
  rid ∈ index_of (store w') (user_index_key (VStr "u1")) /\
  rid ∈ index_of (store w') (task_index_key (VStr "u1") (VInt 5)).
Proof.
  apply (handled_reminder_ends_notified demo_reminder_event demo_world);
    try reflexivity; left; reflexivity.
Defined.

End MoreNotifications.

(** * Further properties of the lifecycle handler and the scheduler *)

Section MoreLifecycle.
Import TaskLifecycleHandler.

(** X18. [task_update_handler] changes nothing, whatever the event: when
    [user_id] or [task_id] is missing it returns at once, and when the due
    date has changed the cancellation it schedules is the function of
    [task_lifecycle_handler.py] itself, which only logs.  No reminder is
    cancelled or rescheduled, no call is made. *)
Theorem task_update_handler_changes_nothing event_data w :
  task_update_handler event_data w = (Ret tt, w).
Proof.
  unfold task_update_handler, cancel_task_reminders. unfold_monad.
  destruct (negb _); [reflexivity|]. destruct (negb _); reflexivity.
Qed.

(** The reminder of a task whose due date moves stays as it was. *)
Example moved_task_keeps_its_reminder :
  let w := snd (NotificationService.reminder_handler demo_reminder_event demo_world) in
  let r := task_update_handler
             [("user_id", VStr "u1"); ("task_id", VInt 5);
              ("old_due_date", VStr "2024-02-01T00:00:00");
              ("new_due_date", VStr "2024-03-01T00:00:00")] w in
  store (snd r) = store w /\
  fst (ReminderState.is_reminder_cancelled "reminder_u1_5_20240131102030" (snd r))
  = Ret (VBool false).
Proof. vm_compute. split; reflexivity. Qed.

End MoreLifecycle.

Section MoreScheduler.
Import ReminderScheduler.

(** X19. The overlap guard of [reminder_check] never fires.  Starting with
    the flag down, in whatever order the binding triggers and the event loop
    runs scheduled scans, the flag is down again in every state reached, so
    the next [reminder_check] does not take the skip branch; with a running
    loop it schedules one more scan. *)
Theorem no_check_is_ever_skipped answer es p w :
  checking_reminders p = false ->
  let s := run answer es (p, w) in
  checking_reminders (fst s) = false /\
  fst (reminder_check (fst s)) <> Skipped /\
  (loop_running (fst s) = true -> fst (reminder_check (fst s)) = Started).
Proof.
  intros Hc s. subst s.
  pose proof (flag_is_always_down answer es p w Hc) as Hdown.
  destruct (reminder_check_from_lowered _ Hdown) as (_ & Hns & Hst).
  split; [exact Hdown|]. split; [exact Hns|]. intros Hl. now apply Hst.
Qed.

Lemma no_check_is_ever_skipped_witness :
  let s := run one_due_task [Trigger; Trigger; ScanRuns; Trigger] (idle_process, demo_world) in
  checking_reminders (fst s) = false /\
  fst (reminder_check (fst s)) <> Skipped /\
  (loop_running (fst s) = true -> fst (reminder_check (fst s)) = Started).
Proof.
  apply (no_check_is_ever_skipped one_due_task [Trigger; Trigger; ScanRuns; Trigger]
           idle_process demo_world).
  reflexivity.
Defined.

(** The loop publishes until a publication fails. *)
Lemma publish_reminders_run due : forall k st f c clk r off be ts ps ds,
  (k <= length due)%nat ->
  (forall n, (n < k)%nat -> f (c + n)%nat = false) ->
  ((k < length due)%nat -> f (c + k)%nat = true) ->
  exists events c' r',
    publish_reminders due (mk_world st f c clk r off be ts ps ds)
    = (if (k <? length due)%nat then Raise DaprError else Ret tt,
       mk_world st f c' clk r' off be ts
         (ps ++ map (pair TASK_REMINDERS_TOPIC) events) ds) /\
    Forall2 announces (take k due) events.
Proof.
  induction due as [|task due IH]; intros k st f c clk r off be ts ps ds Hk Hok Hbad.
  - assert (k = 0)%nat as -> by (simpl in Hk; lia).
    exists [], c, r. split; [|constructor]. cbn. now rewrite app_nil_r.
  - destruct k as [|k].
    + specialize (Hbad ltac:(simpl; lia)). rewrite Nat.add_0_r in Hbad.
      exists [], (S c), (S r). split; [|constructor].
      cbn [publish_reminders]. run_world. rewrite Hbad. cbn. now rewrite app_nil_r.
    + pose proof (Hok 0%nat ltac:(lia)) as H0. rewrite Nat.add_0_r in H0.
      cbn [publish_reminders]. run_world. rewrite H0.
      match goal with
      | |- context [publish_reminders due (mk_world _ _ _ _ _ _ _ _ ?ps' _)] =>
          destruct (IH k st f (S c) clk (S r) off be ts ps' ds) as (events & c' & r' & -> & HF)
      end.
      * simpl in Hk. lia.
      * intros n Hn. replace (S c + n)%nat with (c + S n)%nat by lia. apply Hok. lia.
      * intros Hlt. replace (S c + k)%nat with (c + S k)%nat by lia. apply Hbad.
        simpl. lia.
      * eexists (_ :: events), c', r'. split.
        -- cbn [length]. change (S k <? S (length due))%nat with (k <? length due)%nat.
           destruct (k <? length due)%nat; rewrite <- app_assoc; reflexivity.
        -- cbn [take]. constructor; [|exact HF]. repeat split.
Qed.

(** X20. One scan of [check_upcoming_tasks] over the due tasks the backend
    returned: while the calls go through, each due task is announced in
    order by one event on the reminders topic carrying its [user_id], [id],
    [title] and [due_date]; when a publication fails, the loop is left, so
    with the first [k] publications succeeding exactly the first [k] due
    tasks are announced and the later ones are not.  The scan returns
    normally either way and writes nothing to the store. *)
Theorem scan_announces_until_a_publication_fails due k w :
  (k <= length due)%nat ->
  (forall n, (n <= k)%nat -> faults w (calls w + n)%nat = false) ->
  ((k < length due)%nat -> faults w (calls w + S k)%nat = true) ->
  let r := check_upcoming_tasks (Ret due) w in
  fst r = Ret tt /\ store (snd r) = store w /\
  exists events,
    published (snd r) = (published w ++ map (pair TASK_REMINDERS_TOPIC) events)%list /\
    Forall2 announces (take k due) events.
Proof.
  intros Hk Hok Hbad r. subst r.
  destruct w as [st f c clk rd off be ts ps ds]. cbn in Hok, Hbad.
  unfold check_upcoming_tasks. run_world.
  pose proof (Hok 0%nat ltac:(lia)) as H0. rewrite Nat.add_0_r in H0. rewrite H0.
  destruct (publish_reminders_run due k st f (S c) clk rd off be ts ps ds Hk)
    as (events & c' & r' & -> & HF).
  - intros n Hn. replace (S c + n)%nat with (c + S n)%nat by lia. apply Hok. lia.
  - intros Hlt. replace (S c + k)%nat with (c + S k)%nat by lia. now apply Hbad.
  - destruct (k <? length due)%nat; cbn; (split; [reflexivity|]); (split; [reflexivity|]);
      exists events; split; [reflexivity|exact HF|reflexivity|exact HF].
Qed.


Lemma scan_announces_until_a_publication_fails_witness :
  let w := world_with ∅ (fun n => Nat.eqb n 2) in
  let r := check_upcoming_tasks (Ret two_due_tasks) w in
  fst r = Ret tt /\ store (snd r) = store w /\
  exists events,
    published (snd r) = (published w ++ map (pair TASK_REMINDERS_TOPIC) events)%list /\
    Forall2 announces (take 1 two_due_tasks) events.
Proof.
  intros w.
  apply (scan_announces_until_a_publication_fails two_due_tasks 1 w).
  - simpl. lia.
  - intros n Hn. cbn. apply Nat.eqb_neq. lia.
  - intros _. reflexivity.
Defined.

(** The second due task of that scan is never announced. *)
Example scan_stops_at_the_failure :
  let w := world_with ∅ (fun n => Nat.eqb n 2) in
  map (fun e => dict_get "task_id" (snd e))
      (published (snd (check_upcoming_tasks (Ret two_due_tasks) w)))
  = [Some (VInt 5)].
Proof. vm_compute. reflexivity. Qed.

Lemma Keeps_publish_reminders K due : Keeps K (publish_reminders due).
Proof.
  induction due as [|task due IH]; cbn [publish_reminders]; [apply Keeps_ret|].
  apply Keeps_bind; [apply Keeps_now|intros t].
  apply Keeps_bind; [apply Keeps_publish_event|intros _; exact IH].
Qed.

(** X21. [check_upcoming_tasks] never raises and touches neither the state
    store nor the delivery channels, whatever fails; when the call to the
    backend fails, its answer cannot be decoded, or no task is due, it
    publishes nothing. *)
Theorem scan_never_raises_nor_stores answer w :
  let r := check_upcoming_tasks answer w in
  fst r = Ret tt /\ store (snd r) = store w /\ delivered (snd r) = delivered w /\
  (faults w (calls w) = true \/ (exists e, answer = Raise e) \/ answer = Ret [] ->
   published (snd r) = published w).
Proof.
  intros r. subst r. split; [|split; [|split]].
  - destruct (try_except_returns
                (bind client_call (fun _ => bind (lift answer) publish_reminders)) tt w)
      as ([] & H). exact H.
  - assert (H : Keeps (fun _ => True) (check_upcoming_tasks answer)).
    { unfold check_upcoming_tasks. apply Keeps_try_except; [|intros; apply Keeps_ret].
      apply Keeps_bind; [apply Keeps_client_call|intros _].
      apply Keeps_bind; [apply Keeps_lift|intros due]. apply Keeps_publish_reminders. }
    apply map_eq. intros k. now apply H.
  - assert (H : Keeps (fun _ => True) (check_upcoming_tasks answer)).
    { unfold check_upcoming_tasks. apply Keeps_try_except; [|intros; apply Keeps_ret].
      apply Keeps_bind; [apply Keeps_client_call|intros _].
      apply Keeps_bind; [apply Keeps_lift|intros due]. apply Keeps_publish_reminders. }
    apply H.
  - destruct w as [st f c clk rd off be ts ps ds]. cbn [faults calls].
    unfold check_upcoming_tasks. run_world.
    intros [Hf|[(e & ->)| ->]].
    + rewrite Hf. reflexivity.
    + destruct (f c); reflexivity.
    + destruct (f c); reflexivity.
Qed.

End MoreScheduler.

(** * Further properties of the connection registry *)

Section MoreFanOut.
Import WebSocketService.

Lemma manager_eq m m' :
  active_connections m = active_connections m' ->
  user_connection_map m = user_connection_map m' -> m = m'.
Proof. destruct m, m'. simpl. now intros -> ->. Qed.

(** X22. [disconnect] of a connection the manager does not know changes
    nothing, and disconnecting twice is disconnecting once: the [finally] of
    [websocket_handler] may disconnect a connection that a broadcast has
    already removed. *)
Theorem disconnect_of_unknown_connection websocket m :
  (user_connection_map m !! websocket = None -> disconnect websocket m = m) /\
  disconnect websocket (disconnect websocket m) = disconnect websocket m.
Proof.
  assert (H : forall m0, user_connection_map m0 !! websocket = None ->
                         disconnect websocket m0 = m0).
  { intros m0 Hm. unfold disconnect. now rewrite Hm. }
  split; [apply H|]. apply H. rewrite disconnect_map. now rewrite decide_True.
Qed.

Lemma exact_consistent m : exact m -> consistent m.
Proof. intros H u c Hr. now apply H. Qed.

Lemma tidy_connect c0 u0 m : tidy m -> tidy (connect c0 u0 m).
Proof.
  intros Ht u cs. unfold connect. cbn [active_connections].
  destruct (decide (u = u0)) as [->|Hne].
  - rewrite lookup_insert_eq. intros [= <-] He.
    assert (c0 ∈ (∅ : gset nat)); [|set_solver].
    rewrite <- He. apply elem_of_union. right. now apply elem_of_singleton.
  - rewrite lookup_insert_ne by congruence.
    destruct (active_connections m !! u0).
    + apply Ht.
    + rewrite lookup_insert_ne by congruence. apply Ht.
Qed.

Lemma tidy_disconnect c0 m : tidy m -> tidy (disconnect c0 m).
Proof.
  intros Ht u cs. unfold disconnect.
  destruct (user_connection_map m !! c0) as [u0|]; [|apply Ht].
  cbn [active_connections].
  destruct (active_connections m !! u0) as [cs0|]; [|apply Ht].
  destruct (decide (size (cs0 ∖ {[c0]}) = 0)) as [Hz|Hnz].
  - destruct (decide (u = u0)) as [->|Hne].
    + now rewrite lookup_delete_eq.
    + rewrite lookup_delete_ne by congruence. apply Ht.
  - destruct (decide (u = u0)) as [->|Hne].
    + rewrite lookup_insert_eq. intros [= <-] He. apply Hnz. rewrite He. apply size_empty.
    + rewrite lookup_insert_ne by congruence. apply Ht.
Qed.

Lemma exact_connect c0 u0 m :
  exact m -> user_connection_map m !! c0 = None -> exact (connect c0 u0 m).
Proof.
  intros He Hnew u c. rewrite registered_connect.
  unfold connect. cbn [user_connection_map].
  destruct (decide (c = c0)) as [->|Hne].
  - rewrite lookup_insert_eq. split.
    + intros [= <-]. now right.
    + intros [Hr|(-> & _)]; [|reflexivity].
      apply He in Hr. congruence.
  - rewrite lookup_insert_ne by congruence. rewrite (He u c). tauto.
Qed.

Lemma exact_disconnect c0 m : exact m -> exact (disconnect c0 m).
Proof.
  intros He u c. rewrite disconnect_map.
  rewrite (disconnect_registered c0 m u c (exact_consistent m He)).
  destruct (decide (c = c0)) as [->|Hne].
  - split; [discriminate|tauto].
  - rewrite (He u c). tauto.
Qed.

Lemma invariant_disconnect_all l m :
  tidy m /\ exact m ->
  tidy (fold_left (fun m c => disconnect c m) l m) /\
  exact (fold_left (fun m c => disconnect c m) l m).
Proof.
  revert m. induction l as [|c l IH]; intros m (Ht & He); [tauto|].
  cbn [fold_left]. apply IH. split; [now apply tidy_disconnect|now apply exact_disconnect].
Qed.

Lemma tidy_empty : tidy empty_manager.
Proof. intros u cs H. cbn in H. now rewrite lookup_empty in H. Qed.

Lemma exact_empty : exact empty_manager.
Proof.
  intros u c. cbn. rewrite lookup_empty. split; [discriminate|].
  intros H. now apply registered_empty in H.
Qed.

Lemma demo_manager_invariant : tidy demo_manager /\ exact demo_manager.
Proof.
  unfold demo_manager. split.
  - apply tidy_connect, tidy_connect, tidy_empty.
  - apply exact_connect; [apply exact_connect; [apply exact_empty|reflexivity]|].
    vm_compute. reflexivity.
Qed.

(** X23. [disconnect] undoes [connect]: registering a connection the
    manager does not know yet and disconnecting it gives back the very
    manager - the user's set is restored, or removed again when the
    connection was the user's only one - provided the manager keeps no user
    with an empty set and its backward map knows exactly the registered
    connections. *)
Theorem disconnect_undoes_connect websocket user_id m :
  tidy m -> exact m ->
  user_connection_map m !! websocket = None ->
  disconnect websocket (connect websocket user_id m) = m.
Proof.
  intros Htidy Hexact Hnew.
  assert (Hfresh : forall u, ~ registered m u websocket).
  { intros u Hr. apply Hexact in Hr. congruence. }
  unfold disconnect, connect.
  cbn [user_connection_map active_connections]. rewrite lookup_insert_eq.
  apply manager_eq; cbn [user_connection_map active_connections].
  - destruct (active_connections m !! user_id) as [cs|] eqn:Hu.
    + rewrite Hu. cbn [default]. rewrite lookup_insert_eq.
      assert (Hcs : (cs ∪ {[websocket]}) ∖ {[websocket]} = cs).
      { apply set_eq. intros c. rewrite elem_of_difference, elem_of_union, elem_of_singleton.
        split; [tauto|]. intros Hc. split; [now left|]. intros ->.
        apply (Hfresh user_id). exists cs. tauto. }
      unfold id. rewrite Hcs. destruct (decide (size cs = 0)) as [Hz|Hnz].
      * apply size_empty_inv in Hz. apply leibniz_equiv in Hz.
        exfalso. now apply (Htidy user_id cs).
      * rewrite insert_insert_eq. now apply insert_id.
    + rewrite lookup_insert_eq. unfold default, id. rewrite lookup_insert_eq.
      assert (Hcs : ((∅ : gset nat) ∪ {[websocket]}) ∖ {[websocket]} = ∅).
      { apply set_eq. intros c. rewrite elem_of_difference, elem_of_union, elem_of_singleton.
        rewrite elem_of_empty. tauto. }
      cbn [from_option]. rewrite Hcs. rewrite decide_True by apply size_empty.
      rewrite !delete_insert_eq. now apply delete_id.
  - rewrite delete_insert_eq. now apply delete_id.
Qed.


Lemma disconnect_undoes_connect_witness :
  disconnect 3 (connect 3 "u2" demo_manager) = demo_manager /\
  disconnect 3 (connect 3 "u1" demo_manager) = demo_manager.
Proof.
  split; apply (disconnect_undoes_connect 3 _ demo_manager);
    solve [apply demo_manager_invariant | vm_compute; reflexivity].
Defined.

(** X24. The registry invariant.  In every manager a service process can
    reach from the empty one - by [connect] of a connection not known yet,
    by [disconnect], and by [broadcast_to_user] over any wire - no user is
    kept with an empty set of connections, and the backward map sends a
    connection to a user exactly when the connection is in that user's
    set. *)
Theorem registry_invariant m :
  reachable m -> tidy m /\ exact m.
Proof.
  induction 1 as [|m c u Hr (Ht & He) Hnew|m c Hr (Ht & He)|m wire u msg Hr IH].
  - split; [apply tidy_empty|apply exact_empty].
  - split; [now apply tidy_connect|now apply exact_connect].
  - split; [now apply tidy_disconnect|now apply exact_disconnect].
  - unfold broadcast_to_user. destruct (active_connections m !! u) as [cs|]; [|exact IH].
    destruct (send_each wire (elements cs)) as [received gone]. cbn [fst].
    now apply invariant_disconnect_all.
Qed.

Lemma registry_invariant_witness :
  tidy (fst (broadcast_to_user demo_wire "u1" [("type", VStr "task_update")] demo_manager)) /\
  exact (fst (broadcast_to_user demo_wire "u1" [("type", VStr "task_update")] demo_manager)).
Proof.
  apply (registry_invariant
           (fst (broadcast_to_user demo_wire "u1" [("type", VStr "task_update")]
                   demo_manager))).
  apply reach_broadcast. unfold demo_manager.
  apply reach_connect; [apply reach_connect; [apply reach_start|reflexivity]|].
  vm_compute. reflexivity.
Defined.


End MoreFanOut.
